(** * A shallow embedding of [sudokuSolver.py]

    The solver keeps a 9x9 board of candidate strings ("domains"), prunes
    them with an AC-3 style propagator and completes the board with a
    recursive backtracking search driven by a variable selector
    (first available cell, or minimum remaining values).

    Python values are modelled as follows.
    - [str] is [string]; [len] is [String.length]; iterating a string
      yields its characters in order.
    - a list indexed by a non-negative integer is a [list] read with
      stdpp's [!!]; an index past the end raises [IndexError].
    - a method that mutates the board takes the board and returns the
      new one (explicit state passing).  [Grid.copy] copies every row, so
      no two boards share a row and a value-level copy is faithful.
    - the [set] of pending coordinates is a duplicate-free list; which
      element [set.pop] removes is left to a caller-supplied choice
      sequence, so that every statement holds for every pop order.
    - the [while] loop of [AC3.consistency] and the recursion of
      [Backtracking.search] are driven by a step budget; running out of
      budget is the outcome [OutOfFuel], distinct from every Python
      outcome. *)

From Stdlib Require Import Ascii String Arith ZArith Lia ZifyNat Bool.
From stdpp Require Import list strings.

Set Default Proof Using "Type".

(** ** Outcomes of a Python call *)

Inductive pyexc : Type :=
| IndexError
| TypeError.

Inductive res (A : Type) : Type :=
| Done (a : A)
| Raise (e : pyexc)
| OutOfFuel.

Arguments Done {A} a.
Arguments Raise {A} e.
Arguments OutOfFuel {A}.

#[export] Instance res_ret : MRet res := fun A a => Done a.

#[export] Instance res_bind : MBind res := fun A B k m =>
  match m with
  | Done a => k a
  | Raise e => Raise e
  | OutOfFuel => OutOfFuel
  end.

(** ** Python strings *)

Definition len (s : string) : nat := String.length s.

Fixpoint chars (s : string) : list ascii :=
  match s with
  | EmptyString => []
  | String c s' => c :: chars s'
  end.

(** The one-character string that iterating a [str] yields. *)
Definition str1 (c : ascii) : string := String c EmptyString.

(** [s.replace(old, '')]: every non-overlapping occurrence of [old], found
    scanning from the left, is deleted.  [skip] counts the characters of
    the occurrence being deleted that are still to be dropped.  With
    [old] empty Python inserts the replacement between the characters,
    and the replacement being empty the string comes back unchanged. *)
Fixpoint replace_scan (old : string) (skip : nat) (s : string) : string :=
  match s with
  | EmptyString => EmptyString
  | String c s' =>
      match skip with
      | S k => replace_scan old k s'
      | O =>
          if String.prefix old s
          then replace_scan old (len old - 1) s'
          else String c (replace_scan old 0 s')
      end
  end.

Definition replace (s old : string) : string :=
  match old with
  | EmptyString => s
  | String _ _ => replace_scan old 0 s
  end.

(** ** class Grid *)

Definition coord : Type := nat * nat.

Record Grid : Type := mkGrid { _cells : list (list string) }.

(** [__init__] sets the two attributes below once and nothing ever
    assigns them again, so they are constants of the class. *)
Definition _complete_domain : string := "123456789".
Definition _width : nat := 9.

Definition Grid_new : Grid := mkGrid [].

Definition copy (self : Grid) : Grid :=
  mkGrid (map (fun row => row) (_cells self)).

Definition get_cells (self : Grid) : list (list string) := _cells self.
Definition get_width (self : Grid) : nat := _width.

(** [read_file]: the loop over the characters of [string_puzzle], with
    the counter [i], the row being filled and the rows appended so far. *)
Fixpoint read_file_loop (cells : list (list string)) (i : nat)
    (row : list string) (string_puzzle : string) : list (list string) :=
  match string_puzzle with
  | EmptyString => cells
  | String p rest =>
      let row := row ++ [if Ascii.eqb p "." then _complete_domain else str1 p] in
      let i := i + 1 in
      if i mod _width =? 0
      then read_file_loop (cells ++ [row]) i [] rest
      else read_file_loop cells i row rest
  end.

Definition read_file (self : Grid) (string_puzzle : string) : Grid :=
  mkGrid (read_file_loop (_cells self) 0 [] string_puzzle).

(** [cells[i][j]], raising [IndexError] out of range. *)
Definition cell_at (cells : list (list string)) (i j : nat) : res string :=
  match cells !! i with
  | None => Raise IndexError
  | Some row =>
      match row !! j with
      | None => Raise IndexError
      | Some d => Done d
      end
  end.

(** [grid.get_cells()[i][j] = d]. *)
Definition set_cell (grid : Grid) (i j : nat) (d : string) : res Grid :=
  match _cells grid !! i with
  | None => Raise IndexError
  | Some row =>
      if j <? length row
      then Done (mkGrid (<[i := <[j := d]> row]> (_cells grid)))
      else Raise IndexError
  end.

(** The order in which [for i in range(a, a+n): for j in range(b, b+m)]
    visits its pairs. *)
Definition range2 (a n b m : nat) : list coord :=
  list_prod (seq a n) (seq b m).

(** [is_solved]: [all] over the generator stops at the first cell whose
    length is not 1. *)
Fixpoint is_solved_scan (cells : list (list string)) (ijs : list coord)
    : res bool :=
  match ijs with
  | [] => Done true
  | (i, j) :: rest =>
      d ← cell_at cells i j;
      if len d =? 1 then is_solved_scan cells rest else Done false
  end.

Definition is_solved (self : Grid) : res bool :=
  is_solved_scan (_cells self) (range2 0 _width 0 _width).

(** The character [Grid.print] writes for a cell, and the board written
    cell by cell in the order of [print]'s two loops, without the frame. *)
Definition print_cell (val : string) : string :=
  if len val =? 1 then val else ".".

Fixpoint print_cells (cells : list (list string)) (ijs : list coord)
    : res string :=
  match ijs with
  | [] => Done EmptyString
  | (i, j) :: rest =>
      val ← cell_at cells i j;
      out ← print_cells cells rest;
      Done (print_cell val +:+ out)
  end.

Definition serialize (self : Grid) : res string :=
  print_cells (_cells self) (range2 0 _width 0 _width).

(** ** Variable selectors *)

(** [class VarSelector]: one method, [select_variable(grid)].  A selector
    that finds nothing to return yields Python's [None]. *)
Class VarSelector (T : Type) : Type :=
  select_variable : T -> Grid -> res (option coord).

(** [FirstAvailable.select_variable]: the first cell, in the order of the
    two loops, whose domain is longer than 1; the method falls off its
    end, returning [None], when there is none. *)
Fixpoint FirstAvailable_scan (domains : list (list string))
    (ijs : list coord) : res (option coord) :=
  match ijs with
  | [] => Done None
  | (i, j) :: rest =>
      d ← cell_at domains i j;
      if 1 <? len d then Done (Some (i, j))
      else FirstAvailable_scan domains rest
  end.

Inductive FirstAvailable : Type := FirstAvailable_new.

#[export] Instance FirstAvailable_select_variable
    : VarSelector FirstAvailable :=
  fun _ grid =>
    FirstAvailable_scan (get_cells grid)
      (range2 0 (get_width grid) 0 (get_width grid)).

(** [MRV.select_variable]: the loops carry [var] and [small_domain]. *)
Fixpoint MRV_scan (grid : Grid) (ijs : list coord) (var : coord)
    (small_domain : nat) : res coord :=
  match ijs with
  | [] => Done var
  | (i, j) :: rest =>
      d ← cell_at (get_cells grid) i j;
      let d_len := len d in
      if (d_len <=? small_domain) && negb (d_len =? 1)
      then MRV_scan grid rest (i, j) d_len
      else MRV_scan grid rest var small_domain
  end.

Inductive MRV : Type := MRV_new.

#[export] Instance MRV_select_variable : VarSelector MRV :=
  fun _ grid =>
    var ← MRV_scan grid (range2 0 (get_width grid) 0 (get_width grid))
            (0, 0) 9;
    Done (Some var).

(** ** class AC3 *)

(** What the three [remove_domain_*] methods return, next to the board
    they leave behind: [(variables_assigned, False)] or [(None, True)]. *)
Definition removal : Type := Grid * (option (list coord) * bool).

(** The three methods run the same loop body over different cells: the
    cell at [(row, column)] itself is skipped, every other visited cell
    loses the occurrences of the domain at [(row, column)]; an empty
    result returns [(None, True)] before anything is stored, a result
    that newly has length 1 is recorded. *)
Fixpoint remove_domain_scan (row column : nat) (ijs : list coord)
    (grid : Grid) (variables_assigned : list coord) : res removal :=
  match ijs with
  | [] => Done (grid, (Some variables_assigned, false))
  | (i, j) :: rest =>
      if (i =? row) && (j =? column)
      then remove_domain_scan row column rest grid variables_assigned
      else
        cell ← cell_at (get_cells grid) i j;
        old ← cell_at (get_cells grid) row column;
        let new_domain := replace cell old in
        if len new_domain =? 0 then Done (grid, (None, true))
        else
          let variables_assigned :=
            if (len new_domain =? 1) && (1 <? len cell)
            then variables_assigned ++ [(i, j)]
            else variables_assigned in
          grid ← set_cell grid i j new_domain;
          remove_domain_scan row column rest grid variables_assigned
  end.

(** [for j in range(width)]: cells [(row, j)], [j != column]. *)
Definition remove_domain_row (grid : Grid) (row column : nat) : res removal :=
  remove_domain_scan row column
    (map (fun j => (row, j)) (seq 0 (get_width grid))) grid [].

(** [for i in range(width)]: cells [(i, column)], [i != row]. *)
Definition remove_domain_column (grid : Grid) (row column : nat)
    : res removal :=
  remove_domain_scan row column
    (map (fun i => (i, column)) (seq 0 (get_width grid))) grid [].

(** The 3x3 box of [(row, column)], without the cell itself. *)
Definition remove_domain_unit (grid : Grid) (row column : nat)
    : res removal :=
  let r0 := (row / 3) * 3 in
  let c0 := (column / 3) * 3 in
  remove_domain_scan row column (range2 r0 3 c0 3) grid [].

(** [Q.add(v)] on a set kept as a duplicate-free list. *)
Definition set_add (Q : list coord) (v : coord) : list coord :=
  if decide (v ∈ Q) then Q else Q ++ [v].

(** [consistency]: one round of the [while] loop per unit of [fuel].
    [picks 0] chooses which element [Q.pop()] removes in this round, the
    rest of [picks] serves the later rounds.  All three removals run
    before the flags are looked at, as in the source. *)
Fixpoint consistency_loop (fuel : nat) (picks : nat -> nat) (grid : Grid)
    (Q : list coord) : res (Grid * bool) :=
  match Q with
  | [] => Done (grid, false)
  | q0 :: _ =>
      match fuel with
      | O => OutOfFuel
      | S fuel' =>
          let k := picks 0 mod length Q in
          let var := nth k Q q0 in
          let Q := delete k Q in
          let '(r, c) := var in
          '(grid, (row_vars, f1)) ← remove_domain_row grid r c;
          '(grid, (col_vars, f2)) ← remove_domain_column grid r c;
          '(grid, (unit_vars, f3)) ← remove_domain_unit grid r c;
          if f1 || f2 || f3 then Done (grid, true)
          else
            match row_vars, col_vars, unit_vars with
            | Some row_vars, Some col_vars, Some unit_vars =>
                consistency_loop fuel' (fun n => picks (S n)) grid
                  (foldl set_add Q (row_vars ++ col_vars ++ unit_vars))
            | _, _, _ => Raise TypeError
            end
      end
  end.

(** The number of cells whose domain is longer than 1. *)
Definition count_multi (grid : Grid) : nat :=
  sum_list (map (fun row =>
    length (filter (fun d => 1 < len d) row)) (_cells grid)).

(** The loop run with a budget that it cannot exhaust on a 9x9 board
    with a set of cells of the board: every round either ends the loop
    or lowers the number of open cells plus the size of the set
    (see [consistency_loop_fuel_enough]). *)
Definition consistency (picks : nat -> nat) (grid : Grid) (Q : list coord)
    : res (Grid * bool) :=
  consistency_loop (count_multi grid + length Q) picks grid Q.

(** A pop order for every call of [consistency], given the board and the
    set it starts from. *)
Definition scheduler : Type := Grid -> list coord -> nat -> nat.

(** [pre_process_consistency]: the cells of length 1 are collected in
    scan order; the value of [self.consistency(grid, Q)] is dropped and
    the method returns [None]. *)
Fixpoint fixed_cells_scan (grid : Grid) (ijs : list coord) (Q : list coord)
    : res (list coord) :=
  match ijs with
  | [] => Done Q
  | (i, j) :: rest =>
      d ← cell_at (get_cells grid) i j;
      if len d =? 1 then fixed_cells_scan grid rest (set_add Q (i, j))
      else fixed_cells_scan grid rest Q
  end.

Definition fixed_cells (grid : Grid) : res (list coord) :=
  fixed_cells_scan grid (range2 0 (get_width grid) 0 (get_width grid)) [].

Definition pre_process_consistency (sched : scheduler) (grid : Grid)
    : res (Grid * unit) :=
  Q ← fixed_cells grid;
  '(grid, _) ← consistency (sched grid Q) grid Q;
  Done (grid, tt).

(** ** class Backtracking *)

(** [consistent]: the first loop looks at [(row, i)] and then [(i, col)]
    for each [i]; the second at the 3x3 box. *)
Fixpoint consistent_lines (grid : Grid) (d_val : string) (row col : nat)
    (idxs : list nat) : res bool :=
  match idxs with
  | [] => Done true
  | i :: rest =>
      a ← cell_at (get_cells grid) row i;
      if (len a =? 1) && String.eqb a d_val then Done false
      else
        b ← cell_at (get_cells grid) i col;
        if (len b =? 1) && String.eqb b d_val then Done false
        else consistent_lines grid d_val row col rest
  end.

Fixpoint consistent_box (grid : Grid) (d_val : string) (ijs : list coord)
    : res bool :=
  match ijs with
  | [] => Done true
  | (i, j) :: rest =>
      a ← cell_at (get_cells grid) i j;
      if (len a =? 1) && String.eqb a d_val then Done false
      else consistent_box grid d_val rest
  end.

Definition consistent (grid : Grid) (d_val : string) (row col : nat)
    : res bool :=
  ok ← consistent_lines grid d_val row col (seq 0 9);
  if ok : bool then
    let r0 := (row / 3) * 3 in
    let c0 := (col / 3) * 3 in
    consistent_box grid d_val (range2 r0 3 c0 3)
  else Done false.

(** The [for d in grid.get_cells()[i][j]] loop of [search]; [rec] is the
    recursive call.  The result [None] stands for Python's [False]; a
    [Grid] object is truthy. *)
Fixpoint search_values (rec : Grid -> res (option Grid)) (sched : scheduler)
    (grid : Grid) (i j : nat) (ds : list ascii) : res (option Grid) :=
  match ds with
  | [] => Done None
  | d :: rest =>
      ok ← consistent grid (str1 d) i j;
      if ok : bool then
        copy_grid ← set_cell (copy grid) i j (str1 d);
        '(copy_grid, contradiction) ←
          consistency (sched copy_grid [(i, j)]) copy_grid [(i, j)];
        if negb contradiction then
          result ← rec copy_grid;
          match result with
          | Some solved => Done (Some solved)
          | None => search_values rec sched grid i j rest
          end
        else search_values rec sched grid i j rest
      else search_values rec sched grid i j rest
  end.

(** [search]: [fuel] bounds the depth of the recursion.  Unpacking the
    [None] of a selector raises [TypeError]. *)
Fixpoint search {T : Type} `{VarSelector T} (fuel : nat) (sched : scheduler)
    (grid : Grid) (var_selector : T) : res (option Grid) :=
  match fuel with
  | O => OutOfFuel
  | S fuel' =>
      solved ← is_solved grid;
      if solved : bool then Done (Some grid)
      else
        var ← select_variable var_selector grid;
        match var with
        | None => Raise TypeError
        | Some (i, j) =>
            d ← cell_at (get_cells grid) i j;
            search_values (fun g => search fuel' sched g var_selector)
              sched grid i j (chars d)
        end
  end.

(** ** The body of the main loop, for one puzzle and one selector *)

Definition solve {T : Type} `{VarSelector T} (fuel : nat) (sched : scheduler)
    (var_selector : T) (p : string) : res (option Grid) :=
  let g := read_file Grid_new p in
  '(g, _) ← pre_process_consistency sched g;
  search fuel sched g var_selector.

(** * Vocabulary of the statements *)

(** The domain [read_file] stores for the character [p]. *)
Definition domain_of (p : ascii) : string :=
  if Ascii.eqb p "." then _complete_domain else str1 p.

Definition domains_of (s : string) : list string :=
  map domain_of (chars s).

(** A puzzle string as the input format describes it: 81 characters,
    each a digit 1-9 or a dot. *)
Definition puzzle_char (c : ascii) : Prop := c ∈ chars "123456789.".

Definition valid_puzzle (s : string) : Prop :=
  len s = 81 /\ Forall puzzle_char (chars s).

(** The domain at a coordinate, the empty string off the board. *)
Definition dom (g : Grid) (q : coord) : string :=
  default EmptyString (row ← _cells g !! q.1; row !! q.2).

Definition in_range (q : coord) : Prop := q.1 < 9 /\ q.2 < 9.

(** The 81 coordinates in the order of the scans. *)
Definition all_coords : list coord := range2 0 9 0 9.

Definition shape9 (g : Grid) : Prop :=
  length (_cells g) = 9 /\ Forall (fun row => length row = 9) (_cells g).

Definition digits : list ascii := chars "123456789".

(** A candidate set: a non-empty, duplicate-free string of digits 1-9. *)
Definition candidates (d : string) : Prop :=
  d <> EmptyString /\ NoDup (chars d) /\ Forall (fun c => c ∈ digits) (chars d).

(** A board: nine rows of nine candidate sets. *)
Definition board (g : Grid) : Prop :=
  shape9 g /\ Forall (fun q => candidates (dom g q)) all_coords.

Definition fixed (g : Grid) (q : coord) : Prop := len (dom g q) = 1.

(** The cells visited by the three removals started at [(r, c)], the
    cell itself left out. *)
Definition row_cells (r : nat) : list coord := map (fun j => (r, j)) (seq 0 9).
Definition column_cells (c : nat) : list coord := map (fun i => (i, c)) (seq 0 9).
Definition box_cells (r c : nat) : list coord :=
  range2 ((r / 3) * 3) 3 ((c / 3) * 3) 3.

Definition peers (q : coord) : list coord :=
  filter (fun q' => q' <> q)
    (row_cells q.1 ++ column_cells q.2 ++ box_cells q.1 q.2).

(** No character of [a] occurs in [b]. *)
Definition apart (a b : string) : Prop :=
  Forall (fun c => c ∉ chars b) (chars a).

(** The value of the fixed cell [q] has been removed from every peer. *)
Definition propagated (g : Grid) (q : coord) : Prop :=
  Forall (fun q' => apart (dom g q) (dom g q')) (peers q).

(** A propagation fixed point: no removal applies any more. *)
Definition arc_consistent (g : Grid) : Prop :=
  Forall (fun q => fixed g q -> propagated g q) all_coords.

(** The 27 groups of the puzzle. *)
Definition units : list (list coord) :=
  map row_cells (seq 0 9) ++ map column_cells (seq 0 9)
  ++ map (fun b => box_cells (3 * (b / 3)) (3 * (b mod 3))) (seq 0 9).

(** How many cells of the group [u] hold exactly the digit [d]. *)
Definition occurrences (g : Grid) (u : list coord) (d : ascii) : nat :=
  length (filter (fun q => dom g q = str1 d) u).

(** Every group holds each digit 1-9 exactly once. *)
Definition valid_solution (g : Grid) : Prop :=
  Forall (fun u => Forall (fun d => occurrences g u d = 1) digits) units.

(** The boards the program can build from an empty one: by reading
    strings, by any of the three removals at any cell, and by the trial
    assignment of [search], which stores one character of the domain it
    replaces. *)
Inductive reachable : Grid -> Prop :=
| reach_new : reachable Grid_new
| reach_read g s : reachable g -> reachable (read_file g s)
| reach_row g r c g' out :
    reachable g -> remove_domain_row g r c = Done (g', out) -> reachable g'
| reach_column g r c g' out :
    reachable g -> remove_domain_column g r c = Done (g', out) ->
    reachable g'
| reach_unit g r c g' out :
    reachable g -> remove_domain_unit g r c = Done (g', out) -> reachable g'
| reach_assign g i j cell d g' :
    reachable g -> cell_at (get_cells g) i j = Done cell -> d ∈ chars cell ->
    set_cell (copy g) i j (str1 d) = Done g' -> reachable g'.

(** No stored domain is empty. *)
Definition no_empty (g : Grid) : Prop :=
  Forall (Forall (fun d => d <> EmptyString)) (_cells g).

(** [x] is what some removals leave of [y]: characters are only lost,
    and not all of them. *)
Definition shrinks (x y : string) : Prop :=
  chars x `sublist_of` chars y /\ (y <> EmptyString -> x <> EmptyString).

Definition refines (g' g : Grid) : Prop :=
  forall q, shrinks (dom g' q) (dom g q).

(** 1 for a domain longer than one character, 0 otherwise. *)
Definition multi (d : string) : nat := if decide (1 < len d) then 1 else 0.

(** What a removal started at [p] over the cells [ijs] guarantees when
    it is run on [g] with [va] already recorded and ends with the board
    [g'] and the result [out]. *)
Definition removal_post (p : coord) (ijs : list coord) (g : Grid)
    (va : list coord) (g' : Grid) (out : option (list coord) * bool)
    : Prop :=
  shape9 g' /\ refines g' g /\ dom g' p = dom g p /\
  count_multi g' <= count_multi g /\
  (out = (None, true) \/
   exists extra,
     out = (Some (va ++ extra), false) /\
     Forall (fun q => q ∈ ijs) extra /\
     count_multi g' + length extra = count_multi g /\
     (forall q, len (dom g q) <> 1 -> len (dom g' q) = 1 -> q ∈ extra) /\
     (forall q d, q ∈ ijs -> q <> p -> dom g p = str1 d ->
        d ∉ chars (dom g' q))).

(** What one round of [consistency] that pops [p] and raises no flag
    guarantees about the board [g3] it leaves and the coordinates [new]
    it adds to the set. *)
Definition round_post (p : coord) (g g3 : Grid) (new : list coord) : Prop :=
  count_multi g3 + length new = count_multi g /\
  Forall in_range new /\
  (forall q, len (dom g q) <> 1 -> len (dom g3 q) = 1 -> q ∈ new) /\
  (forall d, dom g p = str1 d ->
     forall q, q ∈ peers p -> d ∉ chars (dom g3 q)).

(** The invariant of the loop of [consistency]: a fixed cell that is
    not waiting in [Q] has been propagated. *)
Definition pending_inv (g : Grid) (Q : list coord) : Prop :=
  board g /\ Forall in_range Q /\
  forall q, in_range q -> fixed g q -> q ∈ Q \/ propagated g q.

(** A board that is solved, with every fixed value propagated. *)
Definition solved_fixed_point (g : Grid) : Prop :=
  board g /\ arc_consistent g /\ is_solved g = Done true.

(** The call does not end in a [TypeError]. *)
Definition no_TypeError {A} (m : res A) : Prop := m <> Raise TypeError.

(** ** Puzzles used as examples *)

Definition easy : string :=
  "53..7....6..195....98....6.8...6...34..8.3..17...2...6.6....28....419..5....8..79".

Definition easy_solved : string :=
  "534678912672195348198342567859761423426853791713924856961537284287419635345286179".

(** [easy_solved] with the second digit of the first row overwritten by
    the first. *)
Definition twice_five : string :=
  "554678912672195348198342567859761423426853791713924856961537284287419635345286179".

Definition blank : string :=
  ".................................................................................".

(** [easy_solved] with four cells blanked so that two completions exist,
    and the board the initial sweep makes of it: the four cells are left
    with the candidates 1 and 3. *)
Definition two_ways : string :=
  "53467891267219534819834256785976.42.42685.79.713924856961537284287419635345286179".

Definition two_ways_swept : Grid :=
  mkGrid
    [["5"; "3"; "4"; "6"; "7"; "8"; "9"; "1"; "2"];
     ["6"; "7"; "2"; "1"; "9"; "5"; "3"; "4"; "8"];
     ["1"; "9"; "8"; "3"; "4"; "2"; "5"; "6"; "7"];
     ["8"; "5"; "9"; "7"; "6"; "13"; "4"; "2"; "13"];
     ["4"; "2"; "6"; "8"; "5"; "13"; "7"; "9"; "13"];
     ["7"; "1"; "3"; "9"; "2"; "4"; "8"; "5"; "6"];
     ["9"; "6"; "1"; "5"; "3"; "7"; "2"; "8"; "4"];
     ["2"; "8"; "7"; "4"; "1"; "9"; "6"; "3"; "5"];
     ["3"; "4"; "5"; "2"; "8"; "6"; "1"; "7"; "9"]].

(** A board built by hand with an empty domain in its first cell. *)
Definition hole_grid : Grid :=
  mkGrid (<[0 := <[0 := EmptyString]> (replicate 9 "1")]>
            (replicate 9 (replicate 9 "1"))).

(** The pop order that always takes the first element of the set. *)
Definition first_pick : scheduler := fun _ _ _ => 0.

(** Malformed inputs: 80 characters, 82 characters (a line with its
    newline, as [readlines] yields it), a letter, a zero. *)
Definition dots80 : string :=
  "................................................................................".

Definition easy_newline : string := easy +:+ String "010" EmptyString.

Definition with_x : string :=
  "x................................................................................".

Definition with_zero : string :=
  "0................................................................................".

(** ** Deciding the predicates on concrete boards *)

Section Deciding.

#[export] Instance in_range_dec q : Decision (in_range q).
Proof. unfold in_range. apply _. Defined.

#[export] Instance puzzle_char_dec c : Decision (puzzle_char c).
Proof. unfold puzzle_char. apply _. Defined.

#[export] Instance valid_puzzle_dec s : Decision (valid_puzzle s).
Proof. unfold valid_puzzle. apply _. Defined.

#[export] Instance shape9_dec g : Decision (shape9 g).
Proof. unfold shape9. apply _. Defined.

#[export] Instance candidates_dec d : Decision (candidates d).
Proof. unfold candidates. apply _. Defined.

#[export] Instance board_dec g : Decision (board g).
Proof. unfold board. apply _. Defined.

#[export] Instance fixed_dec g q : Decision (fixed g q).
Proof. unfold fixed. apply _. Defined.

#[export] Instance apart_dec a b : Decision (apart a b).
Proof. unfold apart. apply _. Defined.

#[export] Instance propagated_dec g q : Decision (propagated g q).
Proof. unfold propagated. apply _. Defined.

#[export] Instance arc_consistent_dec g : Decision (arc_consistent g).
Proof. unfold arc_consistent. apply _. Defined.

#[export] Instance valid_solution_dec g : Decision (valid_solution g).
Proof. unfold valid_solution, occurrences. apply _. Defined.

End Deciding.

(** ** Vocabulary of the further properties *)

(** A full assignment of characters to the cells in which no two peers
    receive the same character. *)
Definition solution (sol : coord -> ascii) : Prop :=
  Forall (fun p => Forall (fun q => sol p <> sol q) (peers p)) all_coords.

(** The assignment picks, in every cell, one of the candidates the board
    still offers there. *)
Definition admits (g : Grid) (sol : coord -> ascii) : Prop :=
  Forall (fun q => sol q ∈ chars (dom g q)) all_coords.

(** The cells [consistent] looks at for the cell [(row, col)]: its row,
    its column and its box, the cell itself included. *)
Definition lines_and_box (row col : nat) : list coord :=
  row_cells row ++ column_cells col ++ box_cells row col.

(** A selector that, on an unsolved board, returns an open cell. *)
Definition picks_open {T} `{VarSelector T} (sel : T) : Prop :=
  forall g, board g -> is_solved g = Done false ->
    exists i j, select_variable sel g = Done (Some (i, j)) /\
      in_range (i, j) /\ 1 < len (dom g (i, j)).
(** The assignment a solved board spells out. *)
Definition read_off (g : Grid) : coord -> ascii :=
  fun q => default "0"%char (head (chars (dom g q))).

(** The cell [q], another cell than [p], loses its last candidate when
    the domain of [p] is deleted from it. *)
Definition emptied_by (g : Grid) (p q : coord) : Prop :=
  q <> p /\ replace (dom g q) (dom g p) = EmptyString.

(** What a removal that visits the distinct cells [ijs] from the cell
    [p] does to the board [g], given the board [g'] and the result
    [out] it ends with. *)
Definition removal_effect (p : coord) (ijs : list coord) (g : Grid)
    (va : list coord) (g' : Grid) (out : option (list coord) * bool)
    : Prop :=
  (out = (None, true) <-> Exists (emptied_by g p) ijs) /\
  (forall q, q ∉ ijs \/ q = p -> dom g' q = dom g q) /\
  (out <> (None, true) ->
   (forall q, q ∈ ijs -> q <> p ->
      dom g' q = replace (dom g q) (dom g p)) /\
   exists extra,
     out = (Some (va ++ extra), false) /\
     forall q, q ∈ extra <->
       q ∈ ijs /\ q <> p /\ 1 < len (dom g q) /\ len (dom g' q) = 1).

(** A board on which no row can be completed: every cell offers only the
    digits 1 and 2. *)
Definition ones_twos : Grid := mkGrid (replicate 9 (replicate 9 "12")).

(** The assignment spelled out by [easy_solved]. *)
Definition easy_sol : coord -> ascii :=
  read_off (read_file Grid_new easy_solved).

(** The cells [pre_process_consistency] starts from on the board read
    from a string. *)
Definition givens (s : string) : list coord :=
  match fixed_cells (read_file Grid_new s) with
  | Done Q => Q
  | _ => []
  end.

#[export] Instance solution_dec sol : Decision (solution sol).
Proof. unfold solution. apply _. Defined.

#[export] Instance admits_dec g sol : Decision (admits g sol).
Proof. unfold admits. apply _. Defined.

(** * Properties *)

Lemma bind_Done {A B} (a : A) (f : A -> res B) : (Done a ≫= f) = f a.
Proof. done. Qed.

Lemma bind_Done_inv {A B} (m : res A) (f : A -> res B) r :
  (m ≫= f) = Done r -> exists a, m = Done a /\ f a = Done r.
Proof. destruct m as [a| |]; [|done..]. intros H. by exists a. Qed.

(** Linear arithmetic with division and remainder by constants. *)
Ltac lia_div := zify; Z.to_euclidean_division_equations; lia.

(** ** Strings *)

Example replace_digit : replace "123456789" "5" = "12346789".
Proof. reflexivity. Qed.

Example replace_last_digit : replace "5" "5" = EmptyString.
Proof. reflexivity. Qed.

Example replace_substring : replace "aabb" "ab" = "ab".
Proof. reflexivity. Qed.

Example replace_empty_pattern : replace "123" EmptyString = "123".
Proof. reflexivity. Qed.

Example read_file_drops_newline :
  read_file Grid_new easy_newline = read_file Grid_new easy.
Proof. reflexivity. Qed.

Section Strings.

Implicit Types (s old : string) (c d : ascii).

Lemma len_chars s : len s = length (chars s).
Proof. unfold len. induction s; simpl; congruence. Qed.

Lemma chars_inj s1 s2 : chars s1 = chars s2 -> s1 = s2.
Proof.
  revert s2. induction s1 as [|c s1 IH]; intros [|c2 s2]; simpl; try done.
  intros [= -> E]. f_equal. by apply IH.
Qed.

Lemma len_1_inv s : len s = 1 -> exists d, s = str1 d.
Proof.
  destruct s as [|d [|? ?]]; simpl; try done. intros _. by exists d.
Qed.

Lemma len_str1 d : len (str1 d) = 1.
Proof. done. Qed.

(** [replace] never lengthens a string. *)
Lemma replace_scan_len old k s : len (replace_scan old k s) <= len s.
Proof.
  revert k. induction s as [|c s IH]; intros k; [done|].
  destruct k as [|k]; cbn [replace_scan].
  - destruct (String.prefix old (String c s)).
    + specialize (IH (len old - 1)). unfold len in *. simpl. lia.
    + specialize (IH 0). unfold len in *. simpl. lia.
  - specialize (IH k). unfold len in *. simpl. lia.
Qed.

Lemma replace_len s old : len (replace s old) <= len s.
Proof. destruct old; simpl; [done|]. apply replace_scan_len. Qed.

(** [replace] invents no character. *)
Lemma replace_scan_chars old k s c :
  c ∈ chars (replace_scan old k s) -> c ∈ chars s.
Proof.
  revert k. induction s as [|a s IH]; intros k; [done|].
  destruct k as [|k]; cbn [replace_scan].
  - destruct (String.prefix old (String a s)); cbn [chars].
    + intros Hc. apply elem_of_cons. right. by eapply IH.
    + rewrite !elem_of_cons. intros [->|Hc]; [by left|right; by eapply IH].
  - intros Hc. cbn [chars]. apply elem_of_cons. right. by eapply IH.
Qed.

Lemma replace_chars s old c : c ∈ chars (replace s old) -> c ∈ chars s.
Proof. destruct old; simpl; [done|]. apply replace_scan_chars. Qed.

(** Deleting a one-character string deletes that character. *)
Lemma replace_scan_str1 d a s :
  replace_scan (str1 d) 0 (String a s) =
  if decide (d = a) then replace_scan (str1 d) 0 s
  else String a (replace_scan (str1 d) 0 s).
Proof. cbn. destruct (ascii_dec d a); case_decide; by destruct s. Qed.

Lemma replace_str1_chars s d :
  chars (replace s (str1 d)) = filter (fun c => c <> d) (chars s).
Proof.
  change (replace s (str1 d)) with (replace_scan (str1 d) 0 s).
  induction s as [|a s IH]; [done|].
  rewrite replace_scan_str1. cbn [chars]. case_decide as Hd.
  - subst a. rewrite filter_cons_False by (intros ?; done). exact IH.
  - rewrite filter_cons_True by congruence. cbn [chars]. by rewrite IH.
Qed.

Lemma replace_str1_absent s d : d ∉ chars (replace s (str1 d)).
Proof.
  rewrite replace_str1_chars. intros [H _]%list_elem_of_filter. done.
Qed.

Lemma replace_str1_id s d : d ∉ chars s -> replace s (str1 d) = s.
Proof.
  intros Hd. apply chars_inj. rewrite replace_str1_chars.
  induction (chars s) as [|a l IH]; [done|].
  apply not_elem_of_cons in Hd as [Hne Hd].
  rewrite filter_cons_True by congruence. f_equal. by apply IH.
Qed.

(** A string of length 1 either survives a deletion or vanishes. *)
Lemma replace_len_1 s old :
  len s = 1 -> replace s old = s \/ len (replace s old) = 0.
Proof.
  intros [d ->]%len_1_inv. destruct old as [|a old]; [by left|].
  cbn. destruct (ascii_dec a d); [|by left].
  destruct old; [by right|by left].
Qed.

End Strings.

(** ** Reading a puzzle *)

Section ReadFile.

Lemma copy_id g : copy g = g.
Proof. destruct g as [cs]. unfold copy. simpl. by rewrite map_id. Qed.

(** The loop appends, nine at a time, the domains of the characters it
    reads after those already waiting in [row]; what is left of an
    unfinished row at the end is dropped. *)
Lemma read_file_loop_rows s : forall cells i row,
  length row < 9 -> i mod 9 = length row ->
  exists rows,
    read_file_loop cells i row s = cells ++ rows /\
    length rows = length (row ++ domains_of s) / 9 /\
    forall k, k < length (row ++ domains_of s) / 9 ->
      rows !! k = Some (take 9 (drop (9 * k) (row ++ domains_of s))).
Proof.
  induction s as [|p s IH]; intros cells i row Hrow Hi.
  - exists []. unfold domains_of. cbn [read_file_loop chars map].
    rewrite !app_nil_r.
    split_and!; [done|cbn [length]; lia_div|]. intros k Hk. lia_div.
  - cbn [read_file_loop]. fold (domain_of p).
    unfold domains_of. cbn [chars map]. fold (domains_of s).
    unfold _width.
    replace (row ++ domain_of p :: domains_of s)
      with ((row ++ [domain_of p]) ++ domains_of s)
      by (by rewrite <- app_assoc).
    assert (length (row ++ [domain_of p]) = length row + 1) as Hlen
      by (rewrite length_app; simpl; lia).
    destruct (Nat.eqb_spec ((i + 1) mod 9) 0) as [E|E].
    + assert (length row + 1 = 9) as Hnine by (clear IH; lia_div).
      rewrite Hnine in Hlen.
      destruct (IH (cells ++ [row ++ [domain_of p]]) (i + 1) [])
        as (rows & -> & Hl & Hk); [simpl; lia|done|].
      exists ((row ++ [domain_of p]) :: rows).
      rewrite <- app_assoc. rewrite app_nil_l in Hl, Hk.
      rewrite length_app, Hlen.
      assert ((9 + length (domains_of s)) / 9
              = S (length (domains_of s) / 9)) as -> by (clear; lia_div).
      split_and!; [done|simpl; by rewrite Hl|].
      intros [|k] Hlt.
      * simpl. f_equal. rewrite drop_0. by rewrite take_app_length'.
      * rewrite lookup_cons. rewrite Hk by lia. f_equal. f_equal.
        replace (9 * S k) with (9 + 9 * k) by lia.
        rewrite <- drop_drop. f_equal.
        by rewrite drop_app_length'.
    + assert ((i + 1) mod 9 = length row + 1 /\ length row + 1 < 9)
        as [E1 E2] by (clear IH; lia_div).
      destruct (IH cells (i + 1) (row ++ [domain_of p]))
        as (rows & -> & Hl & Hk); [lia|lia|].
      by exists rows.
Qed.

Lemma read_file_cells g s :
  exists rows,
    _cells (read_file g s) = _cells g ++ rows /\
    length rows = len s / 9 /\
    forall k, k < len s / 9 ->
      rows !! k = Some (take 9 (drop (9 * k) (domains_of s))).
Proof.
  destruct (read_file_loop_rows s (_cells g) 0 []) as (rows & E & Hl & Hk);
    [simpl; lia|done|].
  exists rows. simpl in Hl, Hk.
  assert (length (domains_of s) = len s) as Hlen
    by (unfold domains_of; by rewrite length_map, len_chars).
  rewrite Hlen in *. done.
Qed.

(** A cell of the board read from a string of at least [9 * (i + 1)]
    characters. *)
Lemma read_file_cell_at s i j p :
  9 * (i + 1) <= len s -> j < 9 -> chars s !! (9 * i + j) = Some p ->
  cell_at (_cells (read_file Grid_new s)) i j = Done (domain_of p).
Proof.
  intros Hi Hj Hp.
  destruct (read_file_cells Grid_new s) as (rows & -> & Hl & Hk).
  simpl. unfold cell_at. rewrite Hk by lia.
  rewrite lookup_take_lt by done. rewrite lookup_drop.
  unfold domains_of. rewrite list_lookup_fmap, Hp. done.
Qed.

Lemma print_cell_domain_of p : print_cell (domain_of p) = str1 p.
Proof.
  unfold domain_of, print_cell.
  destruct (Ascii.eqb_spec p "."%char) as [->|]; done.
Qed.

End ReadFile.

(** ** Parsing and printing *)

Section Parsing.

Lemma chars_append a b : chars (a +:+ b) = chars a ++ chars b.
Proof. induction a as [|c a IH]; simpl; [done|]. by rewrite IH. Qed.

Lemma read_file_shape9 s : len s = 81 -> shape9 (read_file Grid_new s).
Proof.
  intros Hs. destruct (read_file_cells Grid_new s) as (rows & E & Hl & Hk).
  rewrite Hs in Hl, Hk. change (81 / 9) with 9 in Hl, Hk.
  assert (length (domains_of s) = 81) as Hd
    by (unfold domains_of; by rewrite length_map, <- len_chars).
  unfold shape9. rewrite E. simpl. split; [done|].
  apply Forall_lookup. intros k row Hrow.
  pose proof (lookup_lt_Some _ _ _ Hrow) as Hlt. rewrite Hl in Hlt.
  rewrite Hk in Hrow by done. injection Hrow as <-.
  rewrite length_take, length_drop. lia.
Qed.

Lemma chars_lookup_81 s i j :
  len s = 81 -> i < 9 -> j < 9 -> is_Some (chars s !! (9 * i + j)).
Proof.
  intros Hs Hi Hj. apply lookup_lt_is_Some. rewrite <- len_chars. lia.
Qed.

(** What [print_cells] writes when the visited cells are known. *)
Lemma print_cells_known cells (f : coord -> string) ijs :
  (forall q, q ∈ ijs -> cell_at cells q.1 q.2 = Done (f q)) ->
  exists out, print_cells cells ijs = Done out /\
    chars out = concat (map (fun q => chars (print_cell (f q))) ijs).
Proof.
  induction ijs as [|[i j] ijs IH]; intros Hf.
  - by exists EmptyString.
  - destruct IH as (out & E & Hout).
    { intros q Hq. apply Hf. by apply elem_of_cons; right. }
    exists (print_cell (f (i, j)) +:+ out). cbn [print_cells].
    pose proof (Hf (i, j) ltac:(apply elem_of_cons; by left)) as E0.
    simpl in E0. rewrite E0. cbn.
    rewrite E. cbn. split; [done|]. by rewrite chars_append, Hout.
Qed.

Lemma seq_lookups {A} (l : list A) d :
  map (fun k => nth k l d) (seq 0 (length l)) = l.
Proof.
  apply list_eq. intros i. rewrite list_lookup_fmap.
  destruct (decide (i < length l)) as [Hi|Hi].
  - rewrite lookup_seq_lt by done. simpl.
    destruct (lookup_lt_is_Some_2 l i Hi) as [x Hx].
    by rewrite Hx, (nth_lookup_Some _ _ _ _ Hx).
  - rewrite lookup_seq_ge by lia. simpl. symmetry.
    apply lookup_ge_None. lia.
Qed.

(** Printing the cells of a freshly read 81-character string gives the
    string back, whatever its characters. *)
Lemma serialize_read_file s :
  len s = 81 -> serialize (read_file Grid_new s) = Done s.
Proof.
  intros Hs.
  set (f := fun q : coord => domain_of (nth (9 * q.1 + q.2) (chars s) " "%char)).
  destruct (print_cells_known (_cells (read_file Grid_new s)) f all_coords)
    as (out & E & Hout).
  { intros [i j] Hq. unfold all_coords, range2 in Hq.
    apply list_elem_of_In, in_prod_iff in Hq as [Hi Hj].
    apply in_seq in Hi, Hj. simpl.
    destruct (chars_lookup_81 s i j) as [p Hp]; [done|lia|lia|].
    unfold f. simpl. rewrite (nth_lookup_Some _ _ _ _ Hp).
    apply read_file_cell_at; [lia|lia|done]. }
  unfold serialize. change (range2 0 _width 0 _width) with all_coords.
  rewrite E. f_equal. apply chars_inj. rewrite Hout.
  unfold f. erewrite map_ext; last first.
  { intros q. rewrite print_cell_domain_of. reflexivity. }
  change (fun q : coord => chars (str1 (nth (9 * q.1 + q.2) (chars s) " "%char)))
    with (fun q : coord => [nth (9 * q.1 + q.2) (chars s) " "%char]).
  transitivity (map (fun k => nth k (chars s) " "%char) (seq 0 81)).
  - reflexivity.
  - rewrite len_chars in Hs. rewrite <- Hs. apply seq_lookups.
Qed.

End Parsing.

(** ** Reading and writing cells *)

Section Cells.

Implicit Types (g : Grid) (q : coord).

Lemma cell_at_Done_dom g i j d :
  cell_at (_cells g) i j = Done d -> dom g (i, j) = d.
Proof.
  unfold cell_at, dom. simpl.
  destruct (_cells g !! i) as [row|]; [|done]. simpl.
  destruct (row !! j); [|done]. by intros [= ->].
Qed.

Lemma cell_at_dom g i j :
  shape9 g -> in_range (i, j) ->
  cell_at (_cells g) i j = Done (dom g (i, j)).
Proof.
  set (q := (i, j)). change i with q.1. change j with q.2. clearbody q.
  intros [Hl Hr] [Hi Hj]. unfold cell_at, dom.
  assert (is_Some (_cells g !! q.1)) as [row Hrow]
    by (apply lookup_lt_is_Some_2; lia).
  rewrite Hrow. simpl.
  pose proof (proj1 (Forall_lookup _ _) Hr _ _ Hrow) as Hlen.
  simpl in Hlen.
  assert (is_Some (row !! q.2)) as [d Hd]
    by (apply lookup_lt_is_Some_2; lia).
  by rewrite Hd.
Qed.

Lemma all_coords_in_range q : q ∈ all_coords <-> in_range q.
Proof.
  destruct q as [i j]. unfold all_coords, range2, in_range.
  rewrite list_elem_of_In. unfold coord.
  rewrite in_prod_iff, !in_seq. simpl. lia.
Qed.

Lemma Forall_all_coords (P : coord -> Prop) :
  Forall P all_coords <-> forall q, in_range q -> P q.
Proof.
  rewrite Forall_forall. split; intros H q Hq; apply H;
    by apply all_coords_in_range.
Qed.

Lemma candidates_len d : candidates d -> 1 <= len d <= 9.
Proof.
  intros (Hne & Hnd & Hsub). split.
  - destruct d; [done|]. simpl. lia.
  - rewrite len_chars. change 9 with (length digits).
    apply submseteq_length, NoDup_submseteq; [done|].
    by apply Forall_forall.
Qed.

Lemma board_len g q : board g -> in_range q -> 1 <= len (dom g q) <= 9.
Proof.
  intros [_ Hc] Hq. apply candidates_len.
  by apply (proj1 (Forall_all_coords _) Hc).
Qed.

Lemma set_cell_Done g i j c d :
  cell_at (_cells g) i j = Done c ->
  set_cell g i j d =
    Done (mkGrid (<[i := <[j := d]> (default [] (_cells g !! i))]> (_cells g))).
Proof.
  unfold cell_at, set_cell.
  destruct (_cells g !! i) as [row|]; [|done]. simpl.
  destruct (row !! j) eqn:Hj; [|done]. intros _.
  apply lookup_lt_Some in Hj.
  by destruct (Nat.ltb_spec j (length row)); [|lia].
Qed.

Lemma set_cell_dom g i j d g' q :
  set_cell g i j d = Done g' ->
  dom g' q = if decide (q = (i, j)) then d else dom g q.
Proof.
  unfold set_cell. destruct (_cells g !! i) as [row|] eqn:Hi; [|done].
  destruct (Nat.ltb_spec j (length row)) as [Hj|]; [|done].
  intros [= <-]. unfold dom. simpl. destruct q as [a b]. simpl.
  pose proof (lookup_lt_Some _ _ _ Hi) as Hlt.
  destruct (decide (a = i)) as [->|Ha].
  - rewrite list_lookup_insert_eq by done. simpl.
    destruct (decide (b = j)) as [->|Hb].
    + rewrite list_lookup_insert_eq by done. by rewrite decide_True.
    + rewrite list_lookup_insert_ne by done. rewrite Hi. simpl.
      rewrite decide_False; [done|congruence].
  - rewrite list_lookup_insert_ne by done.
    rewrite decide_False; [done|congruence].
Qed.

Lemma set_cell_shape9 g i j d g' :
  set_cell g i j d = Done g' -> shape9 g -> shape9 g'.
Proof.
  unfold set_cell. destruct (_cells g !! i) as [row|] eqn:Hi; [|done].
  destruct (Nat.ltb_spec j (length row)) as [Hj|]; [|done].
  intros [= <-] [Hl Hr]. split; simpl.
  - by rewrite length_insert.
  - apply Forall_insert; [done|]. rewrite length_insert.
    by apply (proj1 (Forall_lookup _ _) Hr _ _ Hi).
Qed.

(** Storing the domain a cell already holds changes nothing. *)
Lemma set_cell_same g i j d :
  cell_at (_cells g) i j = Done d -> set_cell g i j d = Done g.
Proof.
  intros Hc. rewrite (set_cell_Done _ _ _ _ _ Hc). unfold cell_at in Hc.
  destruct (_cells g !! i) as [row|] eqn:Hi; [|done]. simpl.
  destruct (row !! j) eqn:Hj; [|done]. injection Hc as ->.
  rewrite (list_insert_id row) by done.
  rewrite list_insert_id by done. by destruct g.
Qed.

Lemma set_cell_no_empty g i j d g' :
  set_cell g i j d = Done g' -> d <> EmptyString -> no_empty g ->
  no_empty g'.
Proof.
  unfold set_cell. destruct (_cells g !! i) as [row|] eqn:Hi; [|done].
  destruct (Nat.ltb_spec j (length row)) as [Hj|]; [|done].
  intros [= <-] Hd Hg. unfold no_empty in *. simpl.
  apply Forall_insert; [done|]. apply Forall_insert; [|done].
  by apply (proj1 (Forall_lookup _ _) Hg _ _ Hi).
Qed.

Lemma no_empty_cell_at g i j d :
  no_empty g -> cell_at (_cells g) i j = Done d -> d <> EmptyString.
Proof.
  unfold cell_at, no_empty. intros Hg.
  destruct (_cells g !! i) as [row|] eqn:Hi; [|done].
  destruct (row !! j) eqn:Hj; [|done]. intros [= <-].
  pose proof (proj1 (Forall_lookup _ _) Hg _ _ Hi) as Hrow.
  by apply (proj1 (Forall_lookup _ _) Hrow _ _ Hj).
Qed.

End Cells.

(** ** Variable selection *)

Section Selection.

Implicit Types (g : Grid) (q : coord).

Lemma is_solved_scan_true cells ijs :
  is_solved_scan cells ijs = Done true ->
  forall q, q ∈ ijs -> exists d, cell_at cells q.1 q.2 = Done d /\ len d = 1.
Proof.
  induction ijs as [|[i j] ijs IH]; intros Hs q Hq.
  - by apply elem_of_nil in Hq.
  - cbn [is_solved_scan] in Hs.
    destruct (cell_at cells i j) as [d| |] eqn:Hd; try done. cbn in Hs.
    destruct (Nat.eqb_spec (len d) 1) as [Hl|]; [|done].
    apply elem_of_cons in Hq as [->|Hq]; [by exists d|by apply IH].
Qed.

Lemma is_solved_scan_false cells ijs :
  is_solved_scan cells ijs = Done false ->
  exists q d, q ∈ ijs /\ cell_at cells q.1 q.2 = Done d /\ len d <> 1.
Proof.
  induction ijs as [|[i j] ijs IH]; intros Hs; [done|].
  cbn [is_solved_scan] in Hs.
  destruct (cell_at cells i j) as [d| |] eqn:Hd; try done. cbn in Hs.
  destruct (Nat.eqb_spec (len d) 1) as [Hl|Hl].
  - destruct (IH Hs) as (q & d' & Hq & Hc & Hn).
    exists q, d'. split; [by apply elem_of_cons; right|done].
  - exists (i, j), d. split; [by apply elem_of_cons; left|done].
Qed.

(** On cells that all have length 1, the scan of [FirstAvailable]
    finds nothing and the scan of [MRV] keeps its initial [var]. *)
Lemma FirstAvailable_scan_fixed cells ijs :
  (forall q, q ∈ ijs -> exists d, cell_at cells q.1 q.2 = Done d /\ len d = 1) ->
  FirstAvailable_scan cells ijs = Done None.
Proof.
  induction ijs as [|[i j] ijs IH]; intros Hf; [done|].
  destruct (Hf (i, j)) as (d & Hd & Hl); [by apply elem_of_cons; left|].
  cbn [FirstAvailable_scan]. simpl in Hd. rewrite Hd. cbn. rewrite Hl.
  simpl. apply IH. intros q Hq. apply Hf. by apply elem_of_cons; right.
Qed.

Lemma MRV_scan_fixed g ijs var small :
  (forall q, q ∈ ijs ->
     exists d, cell_at (_cells g) q.1 q.2 = Done d /\ len d = 1) ->
  MRV_scan g ijs var small = Done var.
Proof.
  induction ijs as [|[i j] ijs IH]; intros Hf; [done|].
  destruct (Hf (i, j)) as (d & Hd & Hl); [by apply elem_of_cons; left|].
  cbn [MRV_scan]. unfold get_cells. simpl in Hd. rewrite Hd. cbn.
  rewrite Hl. rewrite andb_false_r.
  apply IH. intros q Hq. apply Hf. by apply elem_of_cons; right.
Qed.

(** The first cell with more than one candidate, if the scan finds one. *)
Lemma FirstAvailable_scan_Some g ijs :
  shape9 g -> Forall in_range ijs ->
  Exists (fun q => 1 < len (dom g q)) ijs ->
  exists q, FirstAvailable_scan (_cells g) ijs = Done (Some q) /\
    q ∈ ijs /\ 1 < len (dom g q).
Proof.
  intros Hg. induction ijs as [|[i j] ijs IH]; intros Hr He.
  - by apply Exists_nil in He.
  - apply Forall_cons in Hr as [Hq Hr]. cbn [FirstAvailable_scan].
    rewrite (cell_at_dom g i j) by done. rewrite bind_Done.
    destruct (Nat.ltb_spec 1 (len (dom g (i, j)))) as [Hl|Hl].
    + exists (i, j). split_and!; [done|by apply elem_of_cons; left|done].
    + apply Exists_cons in He as [He|He]; [lia|].
      destruct (IH Hr He) as (q & E & Hin & Hlen).
      exists q. split_and!; [done|by apply elem_of_cons; right|done].
Qed.

(** What the scan of [MRV] returns: either nothing qualified and [var]
    is unchanged, or the last of the qualifying cells of least length. *)
Lemma MRV_scan_spec g ijs var small :
  shape9 g -> Forall in_range ijs ->
  exists var', MRV_scan g ijs var small = Done var' /\
    ((var' = var /\
      Forall (fun q => len (dom g q) = 1 \/ small < len (dom g q)) ijs) \/
     (exists before after,
        ijs = before ++ var' :: after /\
        len (dom g var') <> 1 /\ len (dom g var') <= small /\
        Forall (fun q => len (dom g q) = 1 \/
                         len (dom g var') <= len (dom g q)) before /\
        Forall (fun q => len (dom g q) = 1 \/
                         len (dom g var') < len (dom g q)) after)).
Proof.
  intros Hg. revert var small.
  induction ijs as [|[i j] ijs IH]; intros var small Hr.
  - exists var. split; [done|]. left. split; [done|]. constructor.
  - apply Forall_cons in Hr as [Hq Hr]. cbn [MRV_scan]. unfold get_cells.
    rewrite (cell_at_dom g i j) by done. rewrite bind_Done.
    set (n := len (dom g (i, j))).
    destruct (Nat.leb_spec n small) as [Hle|Hgt];
      [destruct (Nat.eqb_spec n 1) as [H1|H1]|]; simpl.
    + destruct (IH var small Hr) as (v & E & [[-> Hall]|Hlast]).
      * exists var. split; [done|]. left. split; [done|].
        constructor; [by left|done].
      * destruct Hlast as (b & a & -> & Hn & Hs & Hb & Ha).
        exists v. split; [done|]. right. exists ((i, j) :: b), a.
        split_and!; try done. constructor; [by left|done].
    + destruct (IH (i, j) n Hr) as (v & E & [[-> Hall]|Hlast]).
      * exists (i, j). split; [done|]. right. exists [], ijs.
        split_and!; done || constructor.
      * destruct Hlast as (b & a & -> & Hn & Hs & Hb & Ha).
        exists v. split; [done|]. right. exists ((i, j) :: b), a.
        split_and!; try done; [lia|]. constructor; [by right|done].
    + destruct (IH var small Hr) as (v & E & [[-> Hall]|Hlast]).
      * exists var. split; [done|]. left. split; [done|].
        constructor; [right; unfold n in Hgt; lia|done].
      * destruct Hlast as (b & a & -> & Hn & Hs & Hb & Ha).
        exists v. split; [done|]. right. exists ((i, j) :: b), a.
        split_and!; try done.
        constructor; [right; unfold n in Hgt; lia|done].
Qed.

End Selection.

(** ** Domains only shrink *)

Section Shrinking.

Implicit Types (x y z old : string) (g : Grid) (q : coord).

Lemma replace_scan_sublist old k y :
  chars (replace_scan old k y) `sublist_of` chars y.
Proof.
  revert k. induction y as [|c y IH]; intros k; [done|].
  destruct k as [|k]; cbn [replace_scan].
  - destruct (String.prefix old (String c y)); cbn [chars].
    + by apply sublist_cons.
    + by apply sublist_skip.
  - cbn [chars]. by apply sublist_cons.
Qed.

Lemma replace_sublist y old : chars (replace y old) `sublist_of` chars y.
Proof. destruct old; simpl; [done|]. apply replace_scan_sublist. Qed.

Lemma len_0 x : len x = 0 <-> x = EmptyString.
Proof. by destruct x. Qed.

Lemma shrinks_refl x : shrinks x x.
Proof. by split. Qed.

Lemma shrinks_trans x y z : shrinks x y -> shrinks y z -> shrinks x z.
Proof.
  intros [S1 N1] [S2 N2]. split; [by etrans|]. intros Hz. by apply N1, N2.
Qed.

Lemma shrinks_replace y old :
  len (replace y old) <> 0 -> shrinks (replace y old) y.
Proof.
  intros Hn. split; [apply replace_sublist|].
  intros _ E. by apply len_0 in E.
Qed.

Lemma shrinks_len x y : shrinks x y -> len x <= len y.
Proof. intros [Hs _]. rewrite !len_chars. by apply sublist_length. Qed.

Lemma shrinks_elem x y c : shrinks x y -> c ∈ chars x -> c ∈ chars y.
Proof. intros [Hs _] Hc. by eapply sublist_subseteq. Qed.

(** A domain of length 1 cannot shrink. *)
Lemma shrinks_fixed x y : shrinks x y -> len y = 1 -> x = y.
Proof.
  intros [Hs Hn] [d ->]%len_1_inv. apply chars_inj. simpl in *.
  destruct (chars x) as [|c l] eqn:E.
  - exfalso. apply Hn; [done|]. apply chars_inj. by rewrite E.
  - apply sublist_length in Hs as Hl. simpl in Hl.
    destruct l; [|simpl in Hl; lia].
    assert (c ∈ [d]) as Hc by (eapply sublist_subseteq; [done|by left]).
    by apply list_elem_of_singleton in Hc as ->.
Qed.

Lemma shrinks_candidates x y : shrinks x y -> candidates y -> candidates x.
Proof.
  intros [Hs Hn] (Hy & Hd & Hc). split_and!.
  - by apply Hn.
  - by eapply sublist_NoDup.
  - apply Forall_forall. intros c Hx.
    apply (proj1 (Forall_forall _ _) Hc). by eapply sublist_subseteq.
Qed.

Lemma shrinks_apart x x' y y' :
  shrinks x' x -> shrinks y' y -> apart x y -> apart x' y'.
Proof.
  intros Hx Hy Ha. apply Forall_forall. intros c Hc Hc'.
  apply (proj1 (Forall_forall _ _) Ha c); by eapply shrinks_elem.
Qed.

Lemma refines_refl g : refines g g.
Proof. intros q. apply shrinks_refl. Qed.

Lemma refines_trans g1 g2 g3 :
  refines g1 g2 -> refines g2 g3 -> refines g1 g3.
Proof. intros H1 H2 q. eapply shrinks_trans; [apply H1|apply H2]. Qed.

Lemma refines_set_cell g i j d g' :
  set_cell g i j d = Done g' -> shrinks d (dom g (i, j)) -> refines g' g.
Proof.
  intros Hs Hd q. rewrite (set_cell_dom _ _ _ _ _ q Hs).
  case_decide as E; [by subst q|apply shrinks_refl].
Qed.

Lemma refines_board g' g : shape9 g' -> refines g' g -> board g -> board g'.
Proof.
  intros Hs Hr [_ Hc]. split; [done|].
  apply Forall_all_coords. intros q Hq.
  eapply shrinks_candidates; [apply Hr|].
  by apply (proj1 (Forall_all_coords _) Hc).
Qed.

(** The counter of open cells under a store. *)
Lemma sum_list_insert {A} (f : A -> nat) (l : list A) i (v w : A) :
  l !! i = Some v ->
  sum_list (map f (<[i := w]> l)) + f v = sum_list (map f l) + f w.
Proof.
  revert i. induction l as [|a l IH]; intros [|i] Hi; try done.
  - injection Hi as ->. simpl. lia.
  - simpl in *. specialize (IH i Hi). lia.
Qed.

Lemma length_filter_multi (row : list string) :
  length (filter (fun d => 1 < len d) row) = sum_list (map multi row).
Proof.
  induction row as [|d row IH]; [done|].
  rewrite filter_cons. simpl. unfold multi at 1.
  case_decide; simpl; lia.
Qed.

Lemma count_multi_set_cell g i j c d g' :
  cell_at (_cells g) i j = Done c -> set_cell g i j d = Done g' ->
  count_multi g' + multi c = count_multi g + multi d.
Proof.
  intros Hc Hs. rewrite (set_cell_Done _ _ _ _ _ Hc) in Hs.
  injection Hs as <-. unfold cell_at in Hc.
  destruct (_cells g !! i) as [row|] eqn:Hi; [|done]. simpl in *.
  destruct (row !! j) eqn:Hj; [|done]. injection Hc as ->.
  unfold count_multi. simpl.
  pose proof (sum_list_insert
    (fun row => length (filter (fun d => 1 < len d) row))
    (_cells g) i row (<[j := d]> row) Hi) as H1.
  simpl in H1. rewrite !length_filter_multi in H1.
  pose proof (sum_list_insert multi row j c d Hj) as H2. lia.
Qed.

End Shrinking.

(** ** The three removals *)

Section Removal.

Implicit Types (g : Grid) (q p : coord).

Lemma multi_cases c d :
  shrinks d c ->
  (len d = 1 /\ 1 < len c /\ multi c = 1 /\ multi d = 0) \/
  (~ (len d = 1 /\ 1 < len c) /\ multi c = multi d).
Proof.
  intros Hs. pose proof (shrinks_len _ _ Hs) as Hl.
  assert (len c <> 0 -> len d <> 0) as Hn.
  { intros Hc Hd. apply len_0 in Hd. apply (proj2 Hs); [|done].
    intros ->. done. }
  unfold multi. repeat case_decide.
  - right. split; [lia|done].
  - left. lia.
  - lia.
  - right. split; [lia|done].
Qed.

Lemma remove_domain_scan_spec row col ijs : forall g va,
  shape9 g -> in_range (row, col) -> Forall in_range ijs ->
  exists g' out,
    remove_domain_scan row col ijs g va = Done (g', out) /\
    removal_post (row, col) ijs g va g' out.
Proof.
  induction ijs as [|[i j] ijs IH]; intros g va Hg Hp Hr.
  - exists g, (Some va, false). split; [done|].
    split_and!; [done|apply refines_refl|done|done|].
    right. exists []. rewrite app_nil_r.
    split_and!; [done|constructor|simpl; lia| |].
    + intros q H1 H2. done.
    + intros q d Hq. by apply elem_of_nil in Hq.
  - apply Forall_cons in Hr as [Hq Hr]. cbn [remove_domain_scan].
    destruct (decide ((i, j) = (row, col))) as [E|E].
    { injection E as -> ->. rewrite !Nat.eqb_refl. simpl.
      destruct (IH g va Hg Hp Hr)
        as (g' & out & Hrun & H1 & H2 & H3 & H4 & H5).
      exists g', out. split; [done|]. split_and!; try done.
      destruct H5 as [->|(extra & -> & E1 & E2 & E3 & E4)]; [by left|].
      right. exists extra. split_and!; try done.
      - eapply Forall_impl; [exact E1|]. intros q Hin.
        by apply elem_of_cons; right.
      - intros q d Hin Hne. apply E4; [|done].
        apply elem_of_cons in Hin as [->|Hin]; done. }
    assert ((i =? row) && (j =? col) = false) as ->.
    { apply andb_false_iff.
      destruct (Nat.eqb_spec i row) as [->|]; [|by left].
      destruct (Nat.eqb_spec j col) as [->|]; [done|by right]. }
    unfold get_cells.
    pose proof (cell_at_dom g i j Hg Hq) as Hcell.
    rewrite Hcell, bind_Done.
    rewrite (cell_at_dom g row col Hg Hp), bind_Done. cbn zeta.
    set (new := replace (dom g (i, j)) (dom g (row, col))).
    destruct (Nat.eqb_spec (len new) 0) as [E0|E0].
    { exists g, (None, true). split; [done|].
      split_and!; [done|apply refines_refl|done|done|by left]. }
    pose proof (shrinks_replace _ _ E0) as Hsh. fold new in Hsh.
    pose proof (set_cell_Done g i j _ new Hcell) as Hset.
    set (g1 := mkGrid _) in Hset. rewrite Hset, bind_Done.
    pose proof (set_cell_shape9 _ _ _ _ _ Hset Hg) as Hg1.
    pose proof (refines_set_cell _ _ _ _ _ Hset Hsh) as Hr1.
    pose proof (count_multi_set_cell _ _ _ _ _ _ Hcell Hset) as Hcnt.
    assert (dom g1 (row, col) = dom g (row, col)) as Hp1.
    { rewrite (set_cell_dom _ _ _ _ _ (row, col) Hset).
      rewrite decide_False; [done|congruence]. }
    set (va1 := if (len new =? 1) && (1 <? len (dom g (i, j)))
                then va ++ [(i, j)] else va).
    destruct (IH g1 va1 Hg1 Hp Hr)
      as (g' & out & Hrun & H1 & H2 & H3 & H4 & H5).
    exists g', out. split; [done|].
    assert (count_multi g1 <= count_multi g) as Hle.
    { destruct (multi_cases _ _ Hsh) as [(_ & _ & e1 & e2)|[_ e1]]; lia. }
    split_and!; [done|by eapply refines_trans|congruence|lia|].
    destruct H5 as [->|(extra & -> & E1 & E2 & E3 & E4)]; [by left|].
    right.
    assert (d_absent : forall q d, q ∈ (i, j) :: ijs -> q <> (row, col) ->
              dom g (row, col) = str1 d -> d ∉ chars (dom g' q)).
    { intros q d Hin Hne Hd.
      destruct (decide (q ∈ ijs)) as [Hin'|Hin'].
      - apply (E4 q d); [done|done|congruence].
      - apply elem_of_cons in Hin as [->|Hin]; [|done].
        intros Hc. apply (shrinks_elem _ _ _ (H2 (i, j))) in Hc.
        rewrite (set_cell_dom _ _ _ _ _ (i, j) Hset) in Hc.
        rewrite decide_True in Hc by done. unfold new in Hc.
        rewrite Hd in Hc. by apply replace_str1_absent in Hc. }
    destruct (multi_cases _ _ Hsh) as [(L1 & L2 & M1 & M2)|[Hnot M]].
    + assert (va1 = va ++ [(i, j)]) as Hva.
      { unfold va1. rewrite L1. simpl.
        by destruct (Nat.ltb_spec 1 (len (dom g (i, j)))); [|lia]. }
      exists ((i, j) :: extra). rewrite Hva, <- app_assoc.
      split_and!; [done| |simpl; lia| |done].
      * constructor; [by apply elem_of_cons; left|].
        eapply Forall_impl; [exact E1|]. intros q Hin.
        by apply elem_of_cons; right.
      * intros q Hq1 Hq2.
        destruct (decide (q = (i, j))) as [->|Hne];
          [by apply elem_of_cons; left|].
        apply elem_of_cons; right. apply E3; [|done].
        rewrite (set_cell_dom _ _ _ _ _ q Hset).
        by rewrite decide_False.
    + assert (va1 = va) as Hva.
      { unfold va1. destruct (Nat.eqb_spec (len new) 1); [|done].
        destruct (Nat.ltb_spec 1 (len (dom g (i, j)))); [|done].
        exfalso. by apply Hnot. }
      exists extra. rewrite Hva.
      split_and!; [done| |lia| |done].
      * eapply Forall_impl; [exact E1|]. intros q Hin.
        by apply elem_of_cons; right.
      * intros q Hq1 Hq2. apply E3; [|done].
        rewrite (set_cell_dom _ _ _ _ _ q Hset).
        case_decide as Eq; [|done]. subst q. intros Hn1.
        apply Hnot. split; [done|].
        pose proof (shrinks_len _ _ Hsh). lia.
Qed.

End Removal.

(** ** One round of [consistency] *)

Section Round.

Implicit Types (g : Grid) (q p : coord) (Q : list coord).

Lemma row_cells_in_range r : r < 9 -> Forall in_range (row_cells r).
Proof.
  intros Hr. apply Forall_forall. intros [i j] Hq.
  apply list_elem_of_fmap in Hq as (k & [= -> ->] & Hk).
  apply list_elem_of_In, in_seq in Hk. split; simpl; lia.
Qed.

Lemma column_cells_in_range c : c < 9 -> Forall in_range (column_cells c).
Proof.
  intros Hr. apply Forall_forall. intros [i j] Hq.
  apply list_elem_of_fmap in Hq as (k & [= -> ->] & Hk).
  apply list_elem_of_In, in_seq in Hk. split; simpl; lia.
Qed.

Lemma box_cells_in_range r c :
  r < 9 -> c < 9 -> Forall in_range (box_cells r c).
Proof.
  intros Hr Hc. apply Forall_forall. intros [i j] Hq.
  unfold box_cells, range2 in Hq. apply list_elem_of_In in Hq.
  unfold coord in Hq. apply in_prod_iff in Hq as [Hi Hj].
  apply in_seq in Hi, Hj. split; simpl; lia_div.
Qed.

Lemma set_add_elem Q v q : q ∈ set_add Q v <-> q ∈ Q \/ q = v.
Proof.
  unfold set_add. case_decide as Hv.
  - split; [by left|]. intros [?| ->]; done.
  - rewrite elem_of_app, list_elem_of_singleton. done.
Qed.

Lemma set_add_length Q v : length (set_add Q v) <= S (length Q).
Proof.
  unfold set_add. case_decide; [lia|]. rewrite length_app. simpl. lia.
Qed.

Lemma foldl_set_add_elem vs : forall Q q,
  q ∈ foldl set_add Q vs <-> q ∈ Q \/ q ∈ vs.
Proof.
  induction vs as [|v vs IH]; intros Q q; simpl.
  - split; [by left|]. intros [?|H]; [done|by apply elem_of_nil in H].
  - rewrite IH, set_add_elem, elem_of_cons. tauto.
Qed.

Lemma foldl_set_add_length vs : forall Q,
  length (foldl set_add Q vs) <= length Q + length vs.
Proof.
  induction vs as [|v vs IH]; intros Q; simpl; [lia|].
  specialize (IH (set_add Q v)). pose proof (set_add_length Q v). lia.
Qed.

Lemma foldl_set_add_Forall (P : coord -> Prop) Q vs :
  Forall P Q -> Forall P vs -> Forall P (foldl set_add Q vs).
Proof.
  rewrite !Forall_forall. intros HQ Hvs q Hq.
  apply foldl_set_add_elem in Hq as [?|?]; auto.
Qed.

Lemma delete_elem Q k p q :
  Q !! k = Some p -> q ∈ Q -> q = p \/ q ∈ delete k Q.
Proof.
  intros Hk Hq. rewrite <- (take_drop_middle _ _ _ Hk) in Hq.
  rewrite delete_take_drop.
  rewrite elem_of_app, elem_of_cons in Hq. rewrite elem_of_app. tauto.
Qed.

Lemma consistency_loop_unfold fuel picks g q0 Q' :
  consistency_loop (S fuel) picks g (q0 :: Q') =
  let k := picks 0 mod length (q0 :: Q') in
  let var := nth k (q0 :: Q') q0 in
  let Q := delete k (q0 :: Q') in
  let '(r, c) := var in
  '(grid, (row_vars, f1)) ← remove_domain_row g r c;
  '(grid, (col_vars, f2)) ← remove_domain_column grid r c;
  '(grid, (unit_vars, f3)) ← remove_domain_unit grid r c;
  if f1 || f2 || f3 then Done (grid, true)
  else
    match row_vars, col_vars, unit_vars with
    | Some row_vars, Some col_vars, Some unit_vars =>
        consistency_loop fuel (fun n => picks (S n)) grid
          (foldl set_add Q (row_vars ++ col_vars ++ unit_vars))
    | _, _, _ => Raise TypeError
    end.
Proof. reflexivity. Qed.

(** One round on a 9x9 board with a set of cells of the board: some
    element [p] of the set is popped, the three removals run without
    raising, and either a flag ends the loop or the loop goes on with
    the recorded cells added. *)
Lemma consistency_loop_round fuel picks g Q :
  shape9 g -> Forall in_range Q -> Q <> [] ->
  exists k p g3,
    Q !! k = Some p /\ shape9 g3 /\ refines g3 g /\
    dom g3 p = dom g p /\ count_multi g3 <= count_multi g /\
    (consistency_loop (S fuel) picks g Q = Done (g3, true) \/
     exists new,
       round_post p g g3 new /\
       consistency_loop (S fuel) picks g Q =
         consistency_loop fuel (fun n => picks (S n)) g3
           (foldl set_add (delete k Q) new)).
Proof.
  intros Hg HQ Hne. destruct Q as [|q0 Q']; [done|]. clear Hne.
  rewrite consistency_loop_unfold. cbv zeta.
  set (Q := q0 :: Q') in *. set (k := picks 0 mod length Q).
  assert (k < length Q) as Hk by (subst k; simpl; lia_div).
  assert (is_Some (Q !! k)) as [[r c] Hp] by by apply lookup_lt_is_Some_2.
  rewrite (nth_lookup_Some _ _ _ _ Hp).
  pose proof (proj1 (Forall_lookup _ _) HQ _ _ Hp) as Hr.
  destruct Hr as [Hr Hc]. simpl in Hr, Hc.
  exists k, (r, c).
  destruct (remove_domain_scan_spec r c (row_cells r) g [])
    as (g1 & o1 & R1 & S1 & F1 & P1 & C1 & O1);
    [done|done|by apply row_cells_in_range|].
  destruct (remove_domain_scan_spec r c (column_cells c) g1 [])
    as (g2 & o2 & R2 & S2 & F2 & P2 & C2 & O2);
    [done|done|by apply column_cells_in_range|].
  destruct (remove_domain_scan_spec r c (box_cells r c) g2 [])
    as (g3 & o3 & R3 & S3 & F3 & P3 & C3 & O3);
    [done|done|by apply box_cells_in_range|].
  exists g3.
  change (remove_domain_row g r c)
    with (remove_domain_scan r c (row_cells r) g []).
  rewrite R1, bind_Done. destruct o1 as [rv f1].
  change (remove_domain_column g1 r c)
    with (remove_domain_scan r c (column_cells c) g1 []).
  rewrite R2, bind_Done. destruct o2 as [cv f2].
  change (remove_domain_unit g2 r c)
    with (remove_domain_scan r c (box_cells r c) g2 []).
  rewrite R3, bind_Done. destruct o3 as [uv f3].
  split_and!; [done|done| |congruence|lia|].
  { eapply refines_trans; [exact F3|].
    eapply refines_trans; [exact F2|exact F1]. }
  destruct O1 as [[= -> ->]|(e1 & [= -> ->] & I1 & N1 & L1 & A1)];
    [by left|].
  destruct O2 as [[= -> ->]|(e2 & [= -> ->] & I2 & N2 & L2 & A2)];
    [by left|].
  destruct O3 as [[= -> ->]|(e3 & [= -> ->] & I3 & N3 & L3 & A3)];
    [by left|].
  right. exists (e1 ++ e2 ++ e3). simpl. split; [|done].
  unfold round_post. split_and!.
  - rewrite !length_app. lia.
  - rewrite !Forall_app. split_and!.
    + eapply Forall_impl; [exact I1|]. intros q Hq.
      by apply (proj1 (Forall_forall _ _) (row_cells_in_range r Hr)).
    + eapply Forall_impl; [exact I2|]. intros q Hq.
      by apply (proj1 (Forall_forall _ _) (column_cells_in_range c Hc)).
    + eapply Forall_impl; [exact I3|]. intros q Hq.
      by apply (proj1 (Forall_forall _ _) (box_cells_in_range r c Hr Hc)).
  - intros q Hq0 Hq3. rewrite !elem_of_app.
    destruct (decide (len (dom g1 q) = 1)) as [E1|E1]; [left; by apply L1|].
    destruct (decide (len (dom g2 q) = 1)) as [E2|E2];
      [right; left; by apply L2|].
    right; right. by apply L3.
  - intros d Hd q Hq Hin.
    apply list_elem_of_filter in Hq as [Hne Hq].
    rewrite !elem_of_app in Hq. destruct Hq as [Hq|[Hq|Hq]].
    + apply (A1 q d); [done|done|done|].
      apply (shrinks_elem _ _ _ (F2 q)).
      by apply (shrinks_elem _ _ _ (F3 q)).
    + apply (A2 q d); [done|done|congruence|].
      by apply (shrinks_elem _ _ _ (F3 q)).
    + apply (A3 q d); [done|done|congruence|done].
Qed.

End Round.

(** ** The loop of [consistency] *)

Section Loop.

Implicit Types (g : Grid) (q p : coord) (Q : list coord).

Lemma round_length Q k p new :
  Q !! k = Some p ->
  length (foldl set_add (delete k Q) new) + 1 <= length Q + length new.
Proof.
  intros Hk. pose proof (foldl_set_add_length new (delete k Q)) as H.
  rewrite length_delete in H by by exists p.
  apply lookup_lt_Some in Hk. lia.
Qed.

Lemma round_in_range Q k new :
  Forall in_range Q -> Forall in_range new ->
  Forall in_range (foldl set_add (delete k Q) new).
Proof.
  intros HQ Hn. apply foldl_set_add_Forall; [|done]. by apply Forall_delete.
Qed.

(** Termination: the number of open cells plus the size of the set
    drops by at least 1 in every round. *)
Lemma consistency_loop_fuel_enough fuel : forall picks g Q,
  shape9 g -> Forall in_range Q -> count_multi g + length Q <= fuel ->
  exists g' flag,
    consistency_loop fuel picks g Q = Done (g', flag) /\
    shape9 g' /\ refines g' g.
Proof.
  induction fuel as [|fuel IH]; intros picks g Q Hg HQ Hf.
  - destruct Q; [|simpl in Hf; lia].
    exists g, false. split_and!; [done|done|apply refines_refl].
  - destruct Q as [|q0 Q'] eqn:EQ.
    { exists g, false. split_and!; [done|done|apply refines_refl]. }
    rewrite <- EQ in *.
    destruct (consistency_loop_round fuel picks g Q)
      as (k & p & g3 & Hk & S3 & F3 & P3 & C3 & [E|(new & Hpost & E)]);
      [done|done|by subst|..]; rewrite E.
    + by exists g3, true.
    + destruct Hpost as (Hc & Hr & _).
      pose proof (round_length Q k p new Hk) as Hlen.
      destruct (IH (fun n => picks (S n)) g3
                  (foldl set_add (delete k Q) new))
        as (g' & flag & E' & S' & F'); [done|by apply round_in_range|lia|].
      exists g', flag. split_and!; [done|done|by eapply refines_trans].
Qed.

Lemma consistency_Done picks g Q :
  shape9 g -> Forall in_range Q ->
  exists g' flag,
    consistency picks g Q = Done (g', flag) /\ shape9 g' /\ refines g' g.
Proof. intros. by apply consistency_loop_fuel_enough. Qed.

(** The invariant survives a round without flag. *)
Lemma pending_inv_round g Q k p g3 new :
  pending_inv g Q -> Q !! k = Some p -> shape9 g3 -> refines g3 g ->
  dom g3 p = dom g p -> round_post p g g3 new ->
  pending_inv g3 (foldl set_add (delete k Q) new).
Proof.
  intros (Hb & HQ & Hinv) Hk S3 F3 P3 (_ & Hr & Hnew & Habs).
  split_and!; [by eapply refines_board|by apply round_in_range|].
  intros q Hq Hfix. unfold fixed in Hfix.
  destruct (decide (len (dom g q) = 1)) as [E|E].
  - pose proof (shrinks_fixed _ _ (F3 q) E) as Eq.
    destruct (Hinv q Hq E) as [Hin|Hprop].
    + destruct (delete_elem _ _ _ _ Hk Hin) as [->|Hin'].
      * right. apply Forall_forall. intros q' Hq'.
        destruct (len_1_inv _ E) as [d Hd]. rewrite Eq, Hd.
        apply Forall_forall. intros c Hc.
        apply list_elem_of_singleton in Hc as ->. by apply Habs.
      * left. apply foldl_set_add_elem. by left.
    + right. apply Forall_forall. intros q' Hq'.
      eapply shrinks_apart; [apply F3|apply F3|].
      by apply (proj1 (Forall_forall _ _) Hprop).
  - left. apply foldl_set_add_elem. right. by apply Hnew.
Qed.

(** A run that ends without flag ends on a propagation fixed point. *)
Lemma consistency_loop_sound fuel : forall picks g Q g',
  pending_inv g Q ->
  consistency_loop fuel picks g Q = Done (g', false) ->
  board g' /\ arc_consistent g'.
Proof.
  induction fuel as [|fuel IH]; intros picks g Q g' Hinv Hrun.
  - destruct Q; [|done]. injection Hrun as <-.
    destruct Hinv as (Hb & _ & Hinv). split; [done|].
    apply Forall_all_coords. intros q Hq Hfix.
    destruct (Hinv q Hq Hfix) as [Hin|]; [|done].
    by apply elem_of_nil in Hin.
  - destruct Q as [|q0 Q'] eqn:EQ.
    { injection Hrun as <-.
      destruct Hinv as (Hb & _ & Hinv). split; [done|].
      apply Forall_all_coords. intros q Hq Hfix.
      destruct (Hinv q Hq Hfix) as [Hin|]; [|done].
      by apply elem_of_nil in Hin. }
    rewrite <- EQ in *.
    destruct (consistency_loop_round fuel picks g Q)
      as (k & p & g3 & Hk & S3 & F3 & P3 & C3 & [E|(new & Hpost & E)]);
      [apply Hinv|apply Hinv|by subst|..]; rewrite E in Hrun; [done|].
    eapply IH; [|exact Hrun]. by eapply pending_inv_round.
Qed.

(** A run started with a cell in the set whose value also sits, fixed,
    in one of its peers ends with the flag. *)
Lemma consistency_loop_detects fuel : forall picks g Q g' flag p1 p2 d,
  shape9 g -> Forall in_range Q ->
  p1 ∈ Q -> p2 ∈ peers p1 -> dom g p1 = str1 d -> dom g p2 = str1 d ->
  consistency_loop fuel picks g Q = Done (g', flag) -> flag = true.
Proof.
  induction fuel as [|fuel IH];
    intros picks g Q g' flag p1 p2 d Hg HQ H1 H2 D1 D2 Hrun.
  - destruct Q; [by apply elem_of_nil in H1|done].
  - destruct Q as [|q0 Q'] eqn:EQ; [by apply elem_of_nil in H1|].
    rewrite <- EQ in *.
    destruct (consistency_loop_round fuel picks g Q)
      as (k & p & g3 & Hk & S3 & F3 & P3 & C3 & [E|(new & Hpost & E)]);
      [done|done|by subst|..]; rewrite E in Hrun; [congruence|].
    assert (dom g3 p1 = str1 d) as D1'
      by (rewrite <- D1; apply shrinks_fixed; [apply F3|by rewrite D1]).
    assert (dom g3 p2 = str1 d) as D2'
      by (rewrite <- D2; apply shrinks_fixed; [apply F3|by rewrite D2]).
    destruct Hpost as (_ & Hr & _ & Habs).
    destruct (delete_elem _ _ _ _ Hk H1) as [->|Hin].
    + exfalso. apply (Habs d D1 p2 H2). rewrite D2'. by left.
    + apply (IH (fun n => picks (S n)) g3
               (foldl set_add (delete k Q) new) g' flag p1 p2 d);
        try done.
      * by apply round_in_range.
      * apply foldl_set_add_elem. by left.
Qed.

End Loop.

(** ** Propagation on a fixed point *)

Section Idle.

Implicit Types (g : Grid) (q p : coord) (Q : list coord).

(** A removal that finds nothing to delete stores every domain back
    unchanged and records nothing. *)
Lemma remove_domain_scan_idle row col ijs g va :
  shape9 g -> in_range (row, col) -> Forall in_range ijs ->
  (forall q, q ∈ ijs -> q <> (row, col) ->
     replace (dom g q) (dom g (row, col)) = dom g q /\
     dom g q <> EmptyString) ->
  remove_domain_scan row col ijs g va = Done (g, (Some va, false)).
Proof.
  intros Hg Hp. induction ijs as [|[i j] ijs IH]; intros Hr Hidle; [done|].
  apply Forall_cons in Hr as [Hq Hr]. cbn [remove_domain_scan].
  assert (forall q, q ∈ ijs -> q <> (row, col) ->
     replace (dom g q) (dom g (row, col)) = dom g q /\
     dom g q <> EmptyString) as Hidle'.
  { intros q Hin. apply Hidle. by apply elem_of_cons; right. }
  destruct (decide ((i, j) = (row, col))) as [E|E].
  { injection E as -> ->. rewrite !Nat.eqb_refl. simpl. by apply IH. }
  assert ((i =? row) && (j =? col) = false) as ->.
  { apply andb_false_iff.
    destruct (Nat.eqb_spec i row) as [->|]; [|by left].
    destruct (Nat.eqb_spec j col) as [->|]; [done|by right]. }
  unfold get_cells.
  pose proof (cell_at_dom g i j Hg Hq) as Hcell.
  rewrite Hcell, bind_Done.
  rewrite (cell_at_dom g row col Hg Hp), bind_Done. cbn zeta.
  destruct (Hidle (i, j)) as [-> Hne]; [by apply elem_of_cons; left|done|].
  destruct (Nat.eqb_spec (len (dom g (i, j))) 0) as [E0|E0];
    [by apply len_0 in E0|].
  rewrite (set_cell_same _ _ _ _ Hcell), bind_Done.
  assert ((len (dom g (i, j)) =? 1) && (1 <? len (dom g (i, j))) = false)
    as ->.
  { destruct (Nat.eqb_spec (len (dom g (i, j))) 1) as [->|]; done. }
  by apply IH.
Qed.

Lemma peers_row r c q : q ∈ row_cells r -> q <> (r, c) -> q ∈ peers (r, c).
Proof.
  intros Hq Hne. apply list_elem_of_filter. split; [done|].
  cbn [fst snd]. rewrite !elem_of_app. by left.
Qed.

Lemma peers_column r c q :
  q ∈ column_cells c -> q <> (r, c) -> q ∈ peers (r, c).
Proof.
  intros Hq Hne. apply list_elem_of_filter. split; [done|].
  cbn [fst snd]. rewrite !elem_of_app. right. by left.
Qed.

Lemma peers_box r c q :
  q ∈ box_cells r c -> q <> (r, c) -> q ∈ peers (r, c).
Proof.
  intros Hq Hne. apply list_elem_of_filter. split; [done|].
  cbn [fst snd]. rewrite !elem_of_app. right. by right.
Qed.

Lemma peers_in_range p q : in_range p -> q ∈ peers p -> in_range q.
Proof.
  intros [Hr Hc] [_ Hq]%list_elem_of_filter.
  rewrite !elem_of_app in Hq. destruct Hq as [Hq|[Hq|Hq]].
  - by apply (proj1 (Forall_forall _ _) (row_cells_in_range _ Hr)).
  - by apply (proj1 (Forall_forall _ _) (column_cells_in_range _ Hc)).
  - by apply (proj1 (Forall_forall _ _) (box_cells_in_range _ _ Hr Hc)).
Qed.

(** On a fixed point the loop empties the set without touching the
    board. *)
Lemma consistency_loop_idle fuel : forall picks g Q,
  board g -> arc_consistent g ->
  Forall in_range Q -> Forall (fixed g) Q -> length Q <= fuel ->
  consistency_loop fuel picks g Q = Done (g, false).
Proof.
  induction fuel as [|fuel IH]; intros picks g Q Hb Hac HQ HF Hlen.
  - destruct Q; [done|simpl in Hlen; lia].
  - destruct Q as [|q0 Q'] eqn:EQ; [done|].
    rewrite consistency_loop_unfold. cbv zeta. rewrite <- EQ in *.
    set (k := picks 0 mod length Q).
    assert (k < length Q) as Hk by (subst k Q; simpl; lia_div).
    assert (is_Some (Q !! k)) as [[r c] Hp] by by apply lookup_lt_is_Some_2.
    rewrite (nth_lookup_Some _ _ _ _ Hp).
    pose proof (proj1 (Forall_lookup _ _) HQ _ _ Hp) as Hr.
    pose proof (proj1 (Forall_lookup _ _) HF _ _ Hp) as Hfix.
    simpl in Hfix.
    pose proof (proj1 (Forall_all_coords _) Hac _ Hr Hfix) as Hprop.
    destruct (len_1_inv _ Hfix) as [d Hd].
    assert (forall q, q ∈ peers (r, c) ->
      replace (dom g q) (dom g (r, c)) = dom g q /\
      dom g q <> EmptyString) as Hidle.
    { intros q Hq. split.
      - rewrite Hd. apply replace_str1_id.
        pose proof (proj1 (Forall_forall _ _) Hprop q Hq) as Ha.
        rewrite Hd in Ha. by apply Forall_cons in Ha as [Ha _].
      - pose proof (peers_in_range _ _ Hr Hq) as Hq'.
        destruct Hb as [_ Hc].
        by destruct (proj1 (Forall_all_coords _) Hc q Hq') as [Hne _]. }
    destruct Hb as [Hg Hc]. destruct Hr as [Hr1 Hr2]. simpl in Hr1, Hr2.
    change (remove_domain_row g r c)
      with (remove_domain_scan r c (row_cells r) g []).
    rewrite remove_domain_scan_idle, bind_Done;
      [|done|done|by apply row_cells_in_range
       |intros q Hq Hne; by apply Hidle, peers_row].
    change (remove_domain_column g r c)
      with (remove_domain_scan r c (column_cells c) g []).
    rewrite remove_domain_scan_idle, bind_Done;
      [|done|done|by apply column_cells_in_range
       |intros q Hq Hne; by apply Hidle, peers_column].
    change (remove_domain_unit g r c)
      with (remove_domain_scan r c (box_cells r c) g []).
    rewrite remove_domain_scan_idle, bind_Done;
      [|done|done|by apply box_cells_in_range
       |intros q Hq Hne; by apply Hidle, peers_box].
    simpl. apply IH; [done|done|by apply Forall_delete
                       |by apply Forall_delete|].
    rewrite length_delete by by exists (r, c). lia.
Qed.

(** The set [pre_process_consistency] starts from. *)
Lemma fixed_cells_scan_spec g ijs : forall Q0,
  shape9 g -> Forall in_range ijs ->
  exists Q, fixed_cells_scan g ijs Q0 = Done Q /\
    forall q, q ∈ Q <-> q ∈ Q0 \/ (q ∈ ijs /\ fixed g q).
Proof.
  induction ijs as [|[i j] ijs IH]; intros Q0 Hg Hr.
  - exists Q0. split; [done|]. intros q. split; [by left|].
    intros [?|[Hq _]]; [done|by apply elem_of_nil in Hq].
  - apply Forall_cons in Hr as [Hq Hr]. cbn [fixed_cells_scan].
    unfold get_cells. rewrite (cell_at_dom g i j Hg Hq), bind_Done.
    destruct (Nat.eqb_spec (len (dom g (i, j))) 1) as [E|E].
    + destruct (IH (set_add Q0 (i, j)) Hg Hr) as (Q & -> & HQ).
      exists Q. split; [done|]. intros q.
      rewrite HQ, set_add_elem, elem_of_cons. unfold fixed.
      split; [|intros [?|[[->|?] ?]]; tauto].
      intros [[?| ->]|[? ?]]; tauto.
    + destruct (IH Q0 Hg Hr) as (Q & -> & HQ).
      exists Q. split; [done|]. intros q.
      rewrite HQ, elem_of_cons. unfold fixed.
      split; [tauto|]. intros [?|[[->|?] ?]]; tauto.
Qed.

Lemma fixed_cells_spec g :
  shape9 g ->
  exists Q, fixed_cells g = Done Q /\
    forall q, q ∈ Q <-> in_range q /\ fixed g q.
Proof.
  intros Hg.
  destruct (fixed_cells_scan_spec g all_coords [] Hg) as (Q & E & HQ).
  { by apply Forall_all_coords. }
  exists Q. split; [exact E|]. intros q.
  rewrite HQ, all_coords_in_range. split; [|tauto].
  intros [H|?]; [by apply elem_of_nil in H|done].
Qed.

End Idle.

(** ** The search *)

Section Search.

Implicit Types (g : Grid) (q p : coord) (Q : list coord).

Lemma cell_at_in_range g i j d :
  shape9 g -> cell_at (_cells g) i j = Done d -> in_range (i, j).
Proof.
  intros [Hl Hr]. unfold cell_at.
  destruct (_cells g !! i) as [row|] eqn:Hi; [|done].
  destruct (row !! j) eqn:Hj; [|done]. intros _.
  pose proof (proj1 (Forall_lookup _ _) Hr _ _ Hi) as Hlen.
  simpl in Hlen. apply lookup_lt_Some in Hi, Hj. split; simpl; lia.
Qed.

(** The trial assignment of [search] leaves a board on which only the
    assigned cell is still to be propagated. *)
Lemma assign_pending_inv g i j d g1 :
  board g -> arc_consistent g -> in_range (i, j) ->
  d ∈ chars (dom g (i, j)) ->
  set_cell g i j (str1 d) = Done g1 ->
  pending_inv g1 [(i, j)].
Proof.
  intros Hb Hac Hr Hd Hset.
  assert (refines g1 g) as Hre.
  { eapply refines_set_cell; [done|]. split; [|done].
    by apply singleton_sublist_l. }
  split_and!.
  - eapply refines_board; [|done|done].
    eapply set_cell_shape9; [done|apply Hb].
  - by constructor.
  - intros q Hq Hfix.
    destruct (decide (q = (i, j))) as [->|Hne]; [left; by left|].
    right. unfold fixed in Hfix.
    rewrite (set_cell_dom _ _ _ _ _ q Hset) in Hfix.
    rewrite decide_False in Hfix by done.
    pose proof (proj1 (Forall_all_coords _) Hac q Hq Hfix) as Hprop.
    apply Forall_forall. intros q' Hq'.
    eapply shrinks_apart; [apply Hre|apply Hre|].
    by apply (proj1 (Forall_forall _ _) Hprop).
Qed.

Lemma search_values_sound (rec : Grid -> res (option Grid)) sched g i j :
  board g -> arc_consistent g -> in_range (i, j) ->
  (forall h h', board h -> arc_consistent h -> rec h = Done (Some h') ->
     solved_fixed_point h') ->
  forall ds g',
    (forall d, d ∈ ds -> d ∈ chars (dom g (i, j))) ->
    search_values rec sched g i j ds = Done (Some g') ->
    solved_fixed_point g'.
Proof.
  intros Hb Hac Hr Hrec.
  induction ds as [|d ds IH]; intros g' Hds Hrun; [done|].
  assert (forall d, d ∈ ds -> d ∈ chars (dom g (i, j))) as Hds'
    by (intros c Hc; apply Hds; by apply elem_of_cons; right).
  cbn [search_values] in Hrun.
  apply bind_Done_inv in Hrun as ([|] & Hok & Hrun); [|by apply IH].
  rewrite copy_id in Hrun.
  apply bind_Done_inv in Hrun as (g1 & Hset & Hrun).
  apply bind_Done_inv in Hrun as ([g2 [|]] & Hcons & Hrun); simpl in Hrun;
    [by apply IH|].
  apply bind_Done_inv in Hrun as ([h'|] & Hh & Hrun); [|by apply IH].
  injection Hrun as ->.
  unfold consistency in Hcons.
  destruct (consistency_loop_sound _ _ _ _ _
              (assign_pending_inv g i j d g1 Hb Hac Hr
                 (Hds d ltac:(by left)) Hset) Hcons) as [Hb2 Hac2].
  by eapply Hrec.
Qed.

(** Soundness of [search], whatever the selector. *)
Lemma search_sound {T} `{VarSelector T} (sel : T) sched fuel :
  forall g g',
    board g -> arc_consistent g ->
    search fuel sched g sel = Done (Some g') -> solved_fixed_point g'.
Proof.
  induction fuel as [|fuel IH]; intros g g' Hb Hac Hrun; [done|].
  cbn [search] in Hrun.
  apply bind_Done_inv in Hrun as ([|] & Hsolved & Hrun).
  { injection Hrun as <-. by split_and!. }
  apply bind_Done_inv in Hrun as ([[i j]|] & Hsel & Hrun); [|done].
  apply bind_Done_inv in Hrun as (d & Hd & Hrun).
  unfold get_cells in Hd.
  eapply search_values_sound; [done|done| | | |exact Hrun].
  - eapply cell_at_in_range; [apply Hb|done].
  - intros h h' Hh1 Hh2 Hh3. by eapply IH.
  - intros c Hc. by rewrite (cell_at_Done_dom _ _ _ _ Hd).
Qed.

End Search.

(** ** Solved boards *)

Section Solved.

Implicit Types (g : Grid) (q p : coord) (u : list coord).

(** The 27 groups: nine distinct cells of the board each, any two of
    them peers of one another. *)
Lemma units_facts :
  Forall (fun u =>
    NoDup u /\ length u = 9 /\ Forall in_range u /\
    Forall (fun q => Forall (fun q' => q = q' \/ q' ∈ peers q) u) u) units.
Proof. apply (bool_decide_unpack _). vm_compute. exact I. Qed.

Lemma is_solved_fixed g q :
  is_solved g = Done true -> in_range q -> fixed g q.
Proof.
  intros Hs Hq. apply all_coords_in_range in Hq.
  destruct (is_solved_scan_true _ _ Hs q Hq) as (d & Hd & Hl).
  destruct q as [i j]. simpl in Hd. unfold fixed.
  by rewrite (cell_at_Done_dom _ _ _ _ Hd).
Qed.

(** In a group of a solved fixed point no digit occurs twice. *)
Lemma unit_values_distinct g u q q' d :
  solved_fixed_point g -> u ∈ units -> q ∈ u -> q' ∈ u ->
  dom g q = str1 d -> dom g q' = str1 d -> q = q'.
Proof.
  intros (Hb & Hac & Hs) Hu Hq Hq' Hd Hd'.
  pose proof (proj1 (Forall_forall _ _) units_facts u Hu)
    as (Hnd & Hlen & Hr & Hpeers).
  pose proof (proj1 (Forall_forall _ _) Hpeers q Hq) as Hp. simpl in Hp.
  destruct (proj1 (Forall_forall _ _) Hp q' Hq') as [E|Hin]; [done|].
  exfalso.
  pose proof (proj1 (Forall_forall _ _) Hr q Hq) as Hrq.
  pose proof (proj1 (Forall_all_coords _) Hac q Hrq
                (is_solved_fixed _ _ Hs Hrq)) as Hprop.
  pose proof (proj1 (Forall_forall _ _) Hprop q' Hin) as Ha.
  rewrite Hd, Hd' in Ha. apply Forall_cons in Ha as [Ha _].
  apply Ha. by left.
Qed.

Lemma first_char_fixed g q :
  fixed g q -> exists d, dom g q = str1 d.
Proof. apply len_1_inv. Qed.

(** In a group of a solved fixed point every digit occurs. *)
Lemma unit_values_cover g u d :
  solved_fixed_point g -> u ∈ units -> d ∈ digits ->
  exists q, q ∈ u /\ dom g q = str1 d.
Proof.
  intros Hsol Hu Hd. pose proof Hsol as (Hb & Hac & Hs).
  pose proof (proj1 (Forall_forall _ _) units_facts u Hu)
    as (Hnd & Hlen & Hr & Hpeers).
  set (f := fun q => default "0"%char (head (chars (dom g q)))).
  assert (forall q, q ∈ u -> dom g q = str1 (f q)) as Hf.
  { intros q Hq.
    pose proof (proj1 (Forall_forall _ _) Hr q Hq) as Hrq.
    destruct (first_char_fixed g q (is_solved_fixed _ _ Hs Hrq)) as [c Hc].
    unfold f. by rewrite Hc. }
  assert (NoDup (f <$> u)) as Hnd'.
  { apply NoDup_fmap_2_strong; [|done]. intros q q' Hq Hq' E.
    eapply (unit_values_distinct g u q q' (f q)); try done.
    - by apply Hf.
    - rewrite E. by apply Hf. }
  assert ((f <$> u) ≡ₚ digits) as Hperm.
  { apply submseteq_length_Permutation.
    - apply NoDup_submseteq; [done|]. intros c Hc.
      apply list_elem_of_fmap in Hc as (q & E & Hq). rewrite E.
      pose proof (proj1 (Forall_forall _ _) Hr q Hq) as Hrq.
      destruct Hb as [_ Hc].
      destruct (proj1 (Forall_all_coords _) Hc q Hrq) as (_ & _ & Hdig).
      rewrite (Hf q Hq) in Hdig. by apply Forall_cons in Hdig as [? _].
    - rewrite length_fmap, Hlen. done. }
  rewrite <- Hperm in Hd. apply list_elem_of_fmap in Hd as (q & E & Hq).
  exists q. split; [done|]. rewrite E. by apply Hf.
Qed.

Lemma filter_length_1 {A} (P : A -> Prop) `{forall x, Decision (P x)}
    (l : list A) (a : A) :
  NoDup l -> a ∈ l -> P a -> (forall b, b ∈ l -> P b -> b = a) ->
  length (filter P l) = 1.
Proof.
  intros Hnd Ha HP Huniq.
  assert (NoDup (filter P l)) as Hnd' by by apply NoDup_filter.
  assert (a ∈ filter P l) as Hin by by apply list_elem_of_filter.
  destruct (filter P l) as [|b [|c l']] eqn:E.
  - by apply elem_of_nil in Hin.
  - done.
  - exfalso.
    assert (b ∈ filter P l) as Hb by (rewrite E; by left).
    assert (c ∈ filter P l) as Hc by (rewrite E; right; by left).
    apply list_elem_of_filter in Hb as [Pb Hb], Hc as [Pc Hc].
    apply NoDup_cons in Hnd' as [Hnb _]. apply Hnb.
    rewrite (Huniq b Hb Pb), (Huniq c Hc Pc). by left.
Qed.

(** A solved propagation fixed point is a solution of the puzzle. *)
Lemma solved_fixed_point_valid g : solved_fixed_point g -> valid_solution g.
Proof.
  intros Hsol. apply Forall_forall. intros u Hu.
  apply Forall_forall. intros d Hd.
  destruct (unit_values_cover g u d Hsol Hu Hd) as (q & Hq & Hdq).
  pose proof (proj1 (Forall_forall _ _) units_facts u Hu) as (Hnd & _).
  unfold occurrences.
  apply (filter_length_1 _ u q); [done|done|done|].
  intros q' Hq' Hdq'. by eapply unit_values_distinct.
Qed.

End Solved.

(** ** Boards the program can reach *)

Section Reachable.

Implicit Types (g : Grid) (q p : coord) (Q : list coord).

Lemma bind_Raise {A B} e (f : A -> res B) : (Raise e ≫= f) = Raise e.
Proof. done. Qed.

Lemma Raise_IndexError_ok {A} : no_TypeError (@Raise A IndexError).
Proof. done. Qed.

Lemma OutOfFuel_ok {A} : no_TypeError (@OutOfFuel A).
Proof. done. Qed.

Lemma Done_ok {A} (a : A) : no_TypeError (Done a).
Proof. done. Qed.

#[local] Hint Resolve Raise_IndexError_ok OutOfFuel_ok Done_ok : core.

Lemma bind_no_TypeError {A B} (m : res A) (f : A -> res B) :
  no_TypeError m -> (forall a, m = Done a -> no_TypeError (f a)) ->
  no_TypeError (m ≫= f).
Proof.
  intros Hm Hf. destruct m as [a|e|]; [by apply Hf|by destruct e|done].
Qed.

Lemma cell_at_no_TypeError cells i j : no_TypeError (cell_at cells i j).
Proof. unfold cell_at. by repeat case_match. Qed.

Lemma set_cell_no_TypeError g i j d : no_TypeError (set_cell g i j d).
Proof. unfold set_cell. by repeat case_match. Qed.

Lemma domain_of_not_empty c : domain_of c <> EmptyString.
Proof. unfold domain_of. by case_match. Qed.

Lemma read_file_no_empty g s : no_empty g -> no_empty (read_file g s).
Proof.
  intros Hg. destruct (read_file_cells g s) as (rows & E & Hl & Hk).
  unfold no_empty. rewrite E. apply Forall_app. split; [done|].
  apply Forall_lookup. intros k row Hrow.
  pose proof (lookup_lt_Some _ _ _ Hrow) as Hlt. rewrite Hl in Hlt.
  rewrite Hk in Hrow by done. injection Hrow as <-.
  apply Forall_take, Forall_drop, Forall_fmap, Forall_forall.
  intros c _. apply domain_of_not_empty.
Qed.

(** A removal on any board, whatever its shape: it raises at most
    [IndexError], stores no empty domain, and returns [(None, True)] or
    a list with [False]. *)
Lemma remove_domain_scan_no_TypeError row col ijs : forall g va,
  no_TypeError (remove_domain_scan row col ijs g va).
Proof.
  induction ijs as [|[i j] ijs IH]; intros g va; [done|].
  cbn [remove_domain_scan]. case_match; [apply IH|].
  apply bind_no_TypeError; [apply cell_at_no_TypeError|]. intros cell _.
  apply bind_no_TypeError; [apply cell_at_no_TypeError|]. intros old _.
  cbn zeta. case_match; [done|].
  apply bind_no_TypeError; [apply set_cell_no_TypeError|]. intros g1 _.
  apply IH.
Qed.

Lemma remove_domain_scan_Done row col ijs : forall g va g' out,
  remove_domain_scan row col ijs g va = Done (g', out) ->
  (no_empty g -> no_empty g') /\
  (out = (None, true) \/ exists va', out = (Some va', false)).
Proof.
  induction ijs as [|[i j] ijs IH]; intros g va g' out Hrun.
  - injection Hrun as <- <-. split; [done|]. right. eauto.
  - cbn [remove_domain_scan] in Hrun.
    destruct ((i =? row) && (j =? col)); [by eapply IH|].
    apply bind_Done_inv in Hrun as (cell & Hcell & Hrun).
    apply bind_Done_inv in Hrun as (old & Hold & Hrun). cbn zeta in Hrun.
    destruct (Nat.eqb_spec (len (replace cell old)) 0) as [E0|E0].
    { injection Hrun as <- <-. split; [done|by left]. }
    apply bind_Done_inv in Hrun as (g1 & Hset & Hrun).
    destruct (IH _ _ _ _ Hrun) as [Hne Hout]. split; [|done].
    intros Hg. apply Hne. eapply set_cell_no_empty; [exact Hset| |done].
    intros E. apply E0. by rewrite E.
Qed.

(** No board the program reaches holds an empty domain. *)
Lemma reachable_no_empty g : reachable g -> no_empty g.
Proof.
  induction 1 as [|g s _ IH|g r c g' out _ IH Hrun|g r c g' out _ IH Hrun
                  |g r c g' out _ IH Hrun|g i j cell d g' _ IH Hc Hd Hset].
  - constructor.
  - by apply read_file_no_empty.
  - by apply (remove_domain_scan_Done _ _ _ _ _ _ _ Hrun).
  - by apply (remove_domain_scan_Done _ _ _ _ _ _ _ Hrun).
  - by apply (remove_domain_scan_Done _ _ _ _ _ _ _ Hrun).
  - rewrite copy_id in Hset. by eapply set_cell_no_empty.
Qed.

(** Where [is_solved] answers [False] and no domain is empty,
    [FirstAvailable] finds a cell with more than one candidate. *)
Lemma FirstAvailable_scan_unsolved g ijs :
  no_empty g -> is_solved_scan (_cells g) ijs = Done false ->
  exists i j d,
    FirstAvailable_scan (_cells g) ijs = Done (Some (i, j)) /\
    cell_at (_cells g) i j = Done d /\ 1 < len d.
Proof.
  intros Hg. induction ijs as [|[i j] ijs IH]; intros Hs; [done|].
  cbn [is_solved_scan FirstAvailable_scan] in *.
  destruct (cell_at (_cells g) i j) as [d| |] eqn:Hd; try done.
  rewrite bind_Done in Hs. rewrite bind_Done.
  destruct (Nat.eqb_spec (len d) 1) as [E|E].
  - rewrite E. simpl. by apply IH.
  - pose proof (no_empty_cell_at _ _ _ _ Hg Hd) as Hne.
    assert (1 < len d) as Hlt.
    { destruct (decide (len d = 0)) as [E0|]; [by apply len_0 in E0|lia]. }
    exists i, j, d. by destruct (Nat.ltb_spec 1 (len d)); [|lia].
Qed.

(** The loop of [consistency] raises at most [IndexError] and keeps the
    board among the reachable ones. *)
Lemma consistency_loop_no_TypeError fuel : forall picks g Q,
  no_TypeError (consistency_loop fuel picks g Q).
Proof.
  induction fuel as [|fuel IH]; intros picks g Q; [by destruct Q|].
  destruct Q as [|q0 Q']; [done|].
  rewrite consistency_loop_unfold. cbv zeta.
  destruct (nth _ _ _) as [r c].
  apply bind_no_TypeError; [apply remove_domain_scan_no_TypeError|].
  intros [g1 [rv f1]] R1.
  apply bind_no_TypeError; [apply remove_domain_scan_no_TypeError|].
  intros [g2 [cv f2]] R2.
  apply bind_no_TypeError; [apply remove_domain_scan_no_TypeError|].
  intros [g3 [uv f3]] R3.
  destruct (proj2 (remove_domain_scan_Done _ _ _ _ _ _ _ R1))
    as [[= -> ->]|[rv' [= -> ->]]]; [done|].
  destruct (proj2 (remove_domain_scan_Done _ _ _ _ _ _ _ R2))
    as [[= -> ->]|[cv' [= -> ->]]]; [done|].
  destruct (proj2 (remove_domain_scan_Done _ _ _ _ _ _ _ R3))
    as [[= -> ->]|[uv' [= -> ->]]]; [done|].
  apply IH.
Qed.

Lemma consistency_loop_reachable fuel : forall picks g Q g' flag,
  reachable g -> consistency_loop fuel picks g Q = Done (g', flag) ->
  reachable g'.
Proof.
  induction fuel as [|fuel IH]; intros picks g Q g' flag Hg Hrun.
  - destruct Q; [|done]. by injection Hrun as <- <-.
  - destruct Q as [|q0 Q']; [by injection Hrun as <- <-|].
    rewrite consistency_loop_unfold in Hrun. cbv zeta in Hrun.
    destruct (nth _ _ _) as [r c].
    apply bind_Done_inv in Hrun as ([g1 [rv f1]] & R1 & Hrun).
    apply bind_Done_inv in Hrun as ([g2 [cv f2]] & R2 & Hrun).
    apply bind_Done_inv in Hrun as ([g3 [uv f3]] & R3 & Hrun).
    assert (reachable g3) as Hg3.
    { eapply reach_unit; [|exact R3].
      eapply reach_column; [|exact R2]. by eapply reach_row. }
    destruct (f1 || f2 || f3); [by injection Hrun as <- <-|].
    destruct rv, cv, uv; try done. by eapply IH.
Qed.

Lemma consistent_no_TypeError g d i j : no_TypeError (consistent g d i j).
Proof.
  unfold consistent. apply bind_no_TypeError.
  - induction (seq 0 9) as [|k ks IH]; [done|]. cbn [consistent_lines].
    apply bind_no_TypeError; [apply cell_at_no_TypeError|]. intros a _.
    case_match; [done|].
    apply bind_no_TypeError; [apply cell_at_no_TypeError|]. intros b _.
    by case_match.
  - intros [|] _; [|done].
    induction (range2 _ _ _ _) as [|[a b] ks IH]; [done|].
    cbn [consistent_box].
    apply bind_no_TypeError; [apply cell_at_no_TypeError|]. intros c _.
    by case_match.
Qed.

Lemma search_values_no_TypeError (rec : Grid -> res (option Grid))
    sched g i j cell :
  reachable g -> cell_at (get_cells g) i j = Done cell ->
  (forall h, reachable h -> no_TypeError (rec h)) ->
  forall ds, (forall d, d ∈ ds -> d ∈ chars cell) ->
    no_TypeError (search_values rec sched g i j ds).
Proof.
  intros Hg Hcell Hrec. induction ds as [|d ds IH]; intros Hds; [done|].
  assert (no_TypeError (search_values rec sched g i j ds)) as Hrest.
  { apply IH. intros c Hc. apply Hds. by apply elem_of_cons; right. }
  cbn [search_values].
  apply bind_no_TypeError; [apply consistent_no_TypeError|].
  intros [|] _; [|done].
  apply bind_no_TypeError; [apply set_cell_no_TypeError|].
  intros g1 Hset.
  assert (reachable g1) as Hg1.
  { eapply reach_assign; [exact Hg|exact Hcell| |exact Hset].
    apply Hds. by left. }
  apply bind_no_TypeError; [apply consistency_loop_no_TypeError|].
  intros [g2 [|]] Hrun; simpl; [done|].
  apply bind_no_TypeError;
    [apply Hrec; by eapply consistency_loop_reachable|].
  by intros [h|] _.
Qed.

Lemma is_solved_no_TypeError g : no_TypeError (is_solved g).
Proof.
  unfold is_solved. induction (range2 _ _ _ _) as [|[i j] ijs IH]; [done|].
  cbn [is_solved_scan].
  apply bind_no_TypeError; [apply cell_at_no_TypeError|]. intros d _.
  by case_match.
Qed.

(** With [FirstAvailable], [search] never fails at its tuple unpacking
    on a board the program can reach. *)
Lemma search_FirstAvailable_no_TypeError fuel : forall sched g,
  reachable g -> no_TypeError (search fuel sched g FirstAvailable_new).
Proof.
  induction fuel as [|fuel IH]; intros sched g Hg; [done|].
  cbn [search].
  apply bind_no_TypeError; [apply is_solved_no_TypeError|].
  intros [|] Hs; [done|].
  destruct (FirstAvailable_scan_unsolved g _ (reachable_no_empty g Hg) Hs)
    as (i & j & d & Hsel & Hd & Hlen).
  unfold select_variable, FirstAvailable_select_variable, get_cells,
    get_width. change (range2 0 _width 0 _width) with (range2 0 9 0 9).
  unfold is_solved in Hs. unfold _width in Hsel. rewrite Hsel, bind_Done.
  unfold get_cells. rewrite Hd, bind_Done.
  eapply search_values_no_TypeError; [done|exact Hd| |done].
  intros h Hh. by apply IH.
Qed.

End Reachable.

(** ** Boards whose cells are all fixed *)

Section FullyFixed.

Implicit Types (g : Grid) (q p : coord) (Q : list coord).

(** Two 9x9 boards with the same domains are the same board. *)
Lemma grid_ext g g' :
  shape9 g -> shape9 g' ->
  (forall q, in_range q -> dom g' q = dom g q) -> g' = g.
Proof.
  intros [Hl Hr] [Hl' Hr'] Hdom. destruct g as [cs], g' as [cs'].
  simpl in *. f_equal. apply list_eq. intros i.
  destruct (decide (i < 9)) as [Hi|Hi].
  - assert (is_Some (cs !! i)) as [row Hrow]
      by (apply lookup_lt_is_Some_2; lia).
    assert (is_Some (cs' !! i)) as [row' Hrow']
      by (apply lookup_lt_is_Some_2; lia).
    rewrite Hrow, Hrow'. f_equal.
    pose proof (proj1 (Forall_lookup _ _) Hr _ _ Hrow) as Hlen.
    pose proof (proj1 (Forall_lookup _ _) Hr' _ _ Hrow') as Hlen'.
    simpl in Hlen, Hlen'. apply list_eq. intros j.
    destruct (decide (j < 9)) as [Hj|Hj].
    + assert (is_Some (row !! j)) as [d Hd]
        by (apply lookup_lt_is_Some_2; lia).
      assert (is_Some (row' !! j)) as [d' Hd']
        by (apply lookup_lt_is_Some_2; lia).
      specialize (Hdom (i, j) (conj Hi Hj)). unfold dom in Hdom.
      simpl in Hdom. rewrite Hrow, Hrow' in Hdom. simpl in Hdom.
      rewrite Hd, Hd' in Hdom. simpl in Hdom. by rewrite Hd, Hd', Hdom.
    + rewrite !lookup_ge_None_2 by lia. done.
  - rewrite !lookup_ge_None_2 by lia. done.
Qed.

(** On a board without open cell the loop of [consistency] changes
    nothing, whatever it returns. *)
Lemma consistency_fully_fixed picks g Q :
  shape9 g -> Forall in_range Q -> is_solved g = Done true ->
  exists flag, consistency picks g Q = Done (g, flag).
Proof.
  intros Hg HQ Hs.
  destruct (consistency_Done picks g Q Hg HQ) as (g' & flag & E & Hg' & Hre).
  exists flag. rewrite E. do 2 f_equal. apply grid_ext; [done|done|].
  intros q Hq. apply shrinks_fixed; [apply Hre|].
  by apply is_solved_fixed.
Qed.

End FullyFixed.

(** * The claims *)

(** ** Parsing *)

(** C1, as stated, fails: [read_file] has no validation at all.  An
    80-character string, an 82-character line and a string with the
    letter x are none of them valid puzzle strings, and reading each of
    them returns normally with rows appended to the board. *)
Lemma read_file_accepts_malformed :
  (~ valid_puzzle dots80 /\
   length (_cells (read_file Grid_new dots80)) = 8) /\
  (~ valid_puzzle easy_newline /\
   length (_cells (read_file Grid_new easy_newline)) = 9) /\
  (~ valid_puzzle with_x /\
   cell_at (_cells (read_file Grid_new with_x)) 0 0 = Done "x").
Proof.
  split_and!; try (apply (bool_decide_eq_false_1 _); vm_compute; reflexivity);
    vm_compute; reflexivity.
Qed.

(** C1, amended: [read_file] is total and validates nothing.  For every
    board and every string it appends one row per nine characters read,
    the characters left over after the last full row being dropped; a
    dot is stored as the complete domain and any other character as the
    one-character string of itself. *)
Theorem read_file_total g s :
  exists rows,
    _cells (read_file g s) = _cells g ++ rows /\
    length rows = len s / 9 /\
    forall k, k < len s / 9 ->
      rows !! k = Some (take 9 (drop (9 * k) (domains_of s))).
Proof. apply read_file_cells. Qed.

(** C6, as stated, fails for the character 0: it is stored as the
    one-character domain "0", not as the complete domain. *)
Lemma read_file_zero_is_kept :
  len with_zero = 81 /\
  cell_at (_cells (read_file Grid_new with_zero)) 0 0 = Done "0" /\
  "0" <> _complete_domain.
Proof. vm_compute. repeat split; discriminate || reflexivity. Qed.

(** C6, amended: an 81-character string is read into nine rows of nine
    domains; the cell at [(i, j)] holds the complete domain when the
    character at [9 * i + j] is a dot, and the one-character string of
    that character otherwise (the singleton of the digit for 1-9). *)
Theorem read_file_81_cells s :
  len s = 81 ->
  shape9 (read_file Grid_new s) /\
  forall i j, i < 9 -> j < 9 ->
    exists p, chars s !! (9 * i + j) = Some p /\
      cell_at (_cells (read_file Grid_new s)) i j =
        Done (if Ascii.eqb p "." then "123456789" else str1 p).
Proof.
  intros Hs. split; [by apply read_file_shape9|]. intros i j Hi Hj.
  destruct (chars_lookup_81 s i j Hs Hi Hj) as [p Hp].
  exists p. split; [done|].
  apply read_file_cell_at; [lia|done|done].
Qed.

Lemma read_file_81_cells_witness :
  len easy = 81 /\
  (shape9 (read_file Grid_new easy) /\
   forall i j, i < 9 -> j < 9 ->
     exists p, chars easy !! (9 * i + j) = Some p /\
       cell_at (_cells (read_file Grid_new easy)) i j =
         Done (if Ascii.eqb p "." then "123456789" else str1 p)).
Proof. split; [reflexivity|]. apply (read_file_81_cells easy). reflexivity. Defined.

(** C8: reading a valid puzzle string and printing every cell back, the
    digit of a domain of length 1 and a dot for any other, gives the
    string back. *)
Theorem serialize_read_file_roundtrip s :
  valid_puzzle s -> serialize (read_file Grid_new s) = Done s.
Proof. intros [Hs _]. by apply serialize_read_file. Qed.

Lemma serialize_read_file_roundtrip_witness :
  valid_puzzle easy /\ serialize (read_file Grid_new easy) = Done easy.
Proof.
  assert (valid_puzzle easy) as H
    by (apply (bool_decide_eq_true_1 _); vm_compute; reflexivity).
  split; [exact H|]. apply (serialize_read_file_roundtrip easy H).
Defined.

(** ** Variable selection *)

(** C4, as stated, fails on the tie-break: on the board of 81 unknown
    cells every cell has nine candidates, the first of them in scan
    order is [(0, 0)], and [MRV] returns the last one, [(8, 8)]. *)
Lemma MRV_takes_the_last_tie :
  board (read_file Grid_new blank) /\
  len (dom (read_file Grid_new blank) (0, 0)) = 9 /\
  len (dom (read_file Grid_new blank) (8, 8)) = 9 /\
  select_variable MRV_new (read_file Grid_new blank) = Done (Some (8, 8)).
Proof.
  split; [apply (bool_decide_eq_true_1 _); vm_compute; reflexivity|].
  vm_compute. repeat split.
Qed.

(** C4, amended: on a board with at least one open cell, [MRV] returns a
    cell whose number of candidates is the smallest number greater than
    one on the board, and among the cells with that number of
    candidates it returns the last one in row-major scan order: every
    cell scanned before it is fixed or has at least as many candidates,
    every cell scanned after it is fixed or has strictly more. *)
Theorem MRV_select_variable_last_minimum g :
  board g -> Exists (fun q => 1 < len (dom g q)) all_coords ->
  exists i j before after,
    select_variable MRV_new g = Done (Some (i, j)) /\
    all_coords = before ++ (i, j) :: after /\
    1 < len (dom g (i, j)) /\
    Forall (fun q => len (dom g q) = 1 \/
                     len (dom g (i, j)) <= len (dom g q)) before /\
    Forall (fun q => len (dom g q) = 1 \/
                     len (dom g (i, j)) < len (dom g q)) after.
Proof.
  intros Hb Hex.
  destruct (MRV_scan_spec g all_coords (0, 0) 9) as (v & E & Hv);
    [apply Hb|by apply Forall_all_coords|].
  destruct Hv as [[-> Hall]|(b & a & Hsplit & Hn & Hs & Hb' & Ha)].
  - exfalso. apply Exists_exists in Hex as (q & Hq & Hlen).
    pose proof (board_len g q Hb (proj1 (all_coords_in_range q) Hq)).
    destruct (proj1 (Forall_forall _ _) Hall q Hq); lia.
  - destruct v as [i j]. exists i, j, b, a.
    assert (in_range (i, j)) as Hr.
    { apply all_coords_in_range. rewrite Hsplit.
      apply elem_of_app. right. by left. }
    pose proof (board_len g (i, j) Hb Hr).
    split_and!; [|done|lia|done|done].
    unfold select_variable, MRV_select_variable, get_width, _width.
    change (range2 0 9 0 9) with all_coords. by rewrite E.
Qed.

Lemma MRV_select_variable_last_minimum_witness :
  board two_ways_swept /\
  Exists (fun q => 1 < len (dom two_ways_swept q)) all_coords /\
  exists i j before after,
    select_variable MRV_new two_ways_swept = Done (Some (i, j)) /\
    all_coords = before ++ (i, j) :: after /\
    1 < len (dom two_ways_swept (i, j)) /\
    Forall (fun q => len (dom two_ways_swept q) = 1 \/
                     len (dom two_ways_swept (i, j))
                     <= len (dom two_ways_swept q)) before /\
    Forall (fun q => len (dom two_ways_swept q) = 1 \/
                     len (dom two_ways_swept (i, j))
                     < len (dom two_ways_swept q)) after.
Proof.
  assert (board two_ways_swept) as Hb
    by (apply (bool_decide_eq_true_1 _); vm_compute; reflexivity).
  assert (Exists (fun q => 1 < len (dom two_ways_swept q)) all_coords) as He
    by (apply (bool_decide_eq_true_1 _); vm_compute; reflexivity).
  split; [exact Hb|]. split; [exact He|].
  apply (MRV_select_variable_last_minimum two_ways_swept Hb He).
Defined.

(** C5, as stated, fails for [MRV]: on a solved board it returns the
    coordinates [(0, 0)] of a fixed cell, not [None]. *)
Lemma MRV_returns_a_fixed_cell :
  is_solved (read_file Grid_new easy_solved) = Done true /\
  select_variable MRV_new (read_file Grid_new easy_solved)
    = Done (Some (0, 0)) /\
  fixed (read_file Grid_new easy_solved) (0, 0).
Proof. vm_compute. repeat split; discriminate || reflexivity. Qed.

(** C5, amended: on a board that [is_solved] accepts,
    [FirstAvailable] returns [None] and [MRV] returns [(0, 0)], the
    value its scan starts from. *)
Theorem selectors_on_solved_board g :
  is_solved g = Done true ->
  select_variable FirstAvailable_new g = Done None /\
  select_variable MRV_new g = Done (Some (0, 0)).
Proof.
  intros Hs. pose proof (is_solved_scan_true _ _ Hs) as Hall. split.
  - by apply FirstAvailable_scan_fixed.
  - unfold select_variable, MRV_select_variable, get_width.
    by rewrite (MRV_scan_fixed g _ (0, 0) 9 Hall).
Qed.

Lemma selectors_on_solved_board_witness :
  is_solved (read_file Grid_new easy_solved) = Done true /\
  (select_variable FirstAvailable_new (read_file Grid_new easy_solved)
     = Done None /\
   select_variable MRV_new (read_file Grid_new easy_solved)
     = Done (Some (0, 0))).
Proof.
  split; [reflexivity|].
  apply (selectors_on_solved_board (read_file Grid_new easy_solved)).
  reflexivity.
Defined.

(** ** Propagation *)

(** C10: on a 9x9 board and a set of coordinates of the board, the loop
    of [consistency] returns within as many rounds as there are open
    cells plus pending coordinates, whatever the order of the pops: a
    removal never lengthens a domain, and a coordinate is added only for
    a cell whose domain has just dropped to length 1. *)
Theorem consistency_terminates fuel picks g Q :
  shape9 g -> Forall in_range Q -> count_multi g + length Q <= fuel ->
  exists g' flag, consistency_loop fuel picks g Q = Done (g', flag).
Proof.
  intros Hg HQ Hf.
  destruct (consistency_loop_fuel_enough fuel picks g Q Hg HQ Hf)
    as (g' & flag & E & _).
  by exists g', flag.
Qed.

Lemma consistency_terminates_witness :
  shape9 (read_file Grid_new easy) /\
  Forall in_range [(0, 0); (0, 1)] /\
  count_multi (read_file Grid_new easy) + length [(0, 0); (0, 1)] <= 60 /\
  exists g' flag,
    consistency_loop 60 (fun n => n) (read_file Grid_new easy)
      [(0, 0); (0, 1)] = Done (g', flag).
Proof.
  assert (shape9 (read_file Grid_new easy)) as H1
    by (apply (bool_decide_eq_true_1 _); vm_compute; reflexivity).
  assert (Forall in_range [(0, 0); (0, 1)]) as H2
    by (apply (bool_decide_eq_true_1 _); vm_compute; reflexivity).
  assert (count_multi (read_file Grid_new easy) + length [(0, 0); (0, 1)]
          <= 60) as H3 by (vm_compute; lia).
  split_and!; [exact H1|exact H2|exact H3|].
  apply (consistency_terminates 60 (fun n => n) _ _ H1 H2 H3).
Defined.

(** C7: on a board at a propagation fixed point, [consistency] started
    from all the fixed cells, as [pre_process_consistency] starts it,
    returns the same board and no contradiction, whatever the order of
    the pops. *)
Theorem consistency_idempotent sched g :
  board g -> arc_consistent g ->
  exists Q,
    fixed_cells g = Done Q /\
    (forall picks, consistency picks g Q = Done (g, false)) /\
    pre_process_consistency sched g = Done (g, tt).
Proof.
  intros Hb Hac.
  destruct (fixed_cells_spec g (proj1 Hb)) as (Q & EQ & HQ).
  assert (forall picks, consistency picks g Q = Done (g, false)) as Hrun.
  { intros picks. apply consistency_loop_idle; [done|done| | |lia].
    - apply Forall_forall. intros q Hq. by apply HQ.
    - apply Forall_forall. intros q Hq. by apply HQ. }
  exists Q. split_and!; [done|done|].
  unfold pre_process_consistency. rewrite EQ, bind_Done.
  by rewrite Hrun.
Qed.

Lemma consistency_idempotent_witness :
  board two_ways_swept /\ arc_consistent two_ways_swept /\
  exists Q,
    fixed_cells two_ways_swept = Done Q /\
    (forall picks,
       consistency picks two_ways_swept Q = Done (two_ways_swept, false)) /\
    pre_process_consistency first_pick two_ways_swept
      = Done (two_ways_swept, tt).
Proof.
  assert (board two_ways_swept) as Hb
    by (apply (bool_decide_eq_true_1 _); vm_compute; reflexivity).
  assert (arc_consistent two_ways_swept) as Hac
    by (apply (bool_decide_eq_true_1 _); vm_compute; reflexivity).
  split; [exact Hb|]. split; [exact Hac|].
  apply (consistency_idempotent first_pick two_ways_swept Hb Hac).
Defined.

(** ** Contradictions and soundness *)

(** The sweep from all the fixed cells of a 9x9 board on which some
    fixed cell has a peer fixed to the same value ends with the
    contradiction flag, whatever the order of the pops. *)
Lemma consistency_detects_duplicate picks g Q p1 p2 d :
  shape9 g -> fixed_cells g = Done Q ->
  in_range p1 -> p2 ∈ peers p1 ->
  dom g p1 = str1 d -> dom g p2 = str1 d ->
  exists g', consistency picks g Q = Done (g', true).
Proof.
  intros Hg EQ H1 H2 D1 D2.
  destruct (fixed_cells_spec g Hg) as (Q' & EQ' & HQ).
  rewrite EQ in EQ'. injection EQ' as <-.
  assert (Forall in_range Q) as Hr
    by (apply Forall_forall; intros q Hq; by apply HQ).
  destruct (consistency_Done picks g Q Hg Hr) as (g' & flag & E & _).
  exists g'. rewrite E. do 2 f_equal.
  eapply (consistency_loop_detects _ _ g Q g' flag p1 p2 d); try done.
  apply HQ. split; [done|]. unfold fixed. by rewrite D1.
Qed.

(** C2, evaluated on a deliberately inconsistent input: the first row of
    [twice_five] starts with two fives.  The propagator does find the
    contradiction, [pre_process_consistency] drops it and returns [None]
    with the board as it was read, and [search], finding every cell
    fixed, returns that board as solved, with either selector and
    whatever the order of the pops. *)
Theorem contradiction_dropped_by_pre_process sched fuel :
  let g := read_file Grid_new twice_five in
  valid_puzzle twice_five /\
  dom g (0, 0) = "5" /\ dom g (0, 1) = "5" /\
  (exists Q g',
     fixed_cells g = Done Q /\
     consistency (sched g Q) g Q = Done (g', true)) /\
  pre_process_consistency sched g = Done (g, tt) /\
  solve (S fuel) sched FirstAvailable_new twice_five = Done (Some g) /\
  solve (S fuel) sched MRV_new twice_five = Done (Some g) /\
  ~ valid_solution g.
Proof.
  intros g.
  assert (shape9 g) as Hg by (by apply read_file_shape9).
  assert (is_solved g = Done true) as Hs by (vm_compute; reflexivity).
  destruct (fixed_cells_spec g Hg) as (Q & EQ & HQ).
  assert (Forall in_range Q) as Hr
    by (apply Forall_forall; intros q Hq; by apply HQ).
  assert (in_range (0, 0)) as H00 by (split; simpl; lia).
  assert ((0, 1) ∈ peers (0, 0)) as H01
    by (apply (bool_decide_eq_true_1 _); vm_compute; reflexivity).
  assert (dom g (0, 0) = str1 "5") as D1 by (vm_compute; reflexivity).
  assert (dom g (0, 1) = str1 "5") as D2 by (vm_compute; reflexivity).
  destruct (consistency_detects_duplicate (sched g Q) g Q (0, 0) (0, 1) "5"
              Hg EQ H00 H01 D1 D2) as (g' & Hdet).
  destruct (consistency_fully_fixed (sched g Q) g Q Hg Hr Hs) as (flag & Hsame).
  assert (pre_process_consistency sched g = Done (g, tt)) as Hpre.
  { unfold pre_process_consistency. rewrite EQ, bind_Done. by rewrite Hsame. }
  split_and!.
  - apply (bool_decide_eq_true_1 _). vm_compute. reflexivity.
  - exact D1.
  - exact D2.
  - exists Q, g'. split; [exact EQ|exact Hdet].
  - exact Hpre.
  - unfold solve. fold g. rewrite Hpre, bind_Done.
    cbn [search]. rewrite Hs. reflexivity.
  - unfold solve. fold g. rewrite Hpre, bind_Done.
    cbn [search]. rewrite Hs. reflexivity.
  - apply (bool_decide_eq_false_1 _). vm_compute. reflexivity.
Qed.

(** C3, as stated, fails: [search] returns any board whose cells all
    have length 1, without looking at its rows, columns and boxes.  The
    board read from [twice_five] comes back as solved although its
    first row holds the digit 5 twice and the digit 3 not at all. *)
Lemma search_returns_an_invalid_board :
  search 1 first_pick (read_file Grid_new twice_five) FirstAvailable_new
    = Done (Some (read_file Grid_new twice_five)) /\
  occurrences (read_file Grid_new twice_five) (row_cells 0) "5" = 2 /\
  occurrences (read_file Grid_new twice_five) (row_cells 0) "3" = 0 /\
  ~ valid_solution (read_file Grid_new twice_five).
Proof.
  split; [vm_compute; reflexivity|].
  split; [vm_compute; reflexivity|].
  split; [vm_compute; reflexivity|].
  apply (bool_decide_eq_false_1 _). vm_compute. reflexivity.
Qed.

(** C3, amended: when [search] is started on a board that is a
    propagation fixed point (nine rows of nine non-empty candidate sets
    of digits, the value of every fixed cell absent from its peers), the
    board it returns has only fixed cells, and every row, every column
    and every 3x3 box of it holds each digit 1-9 exactly once.  This
    holds for every selector and every order of the pops. *)
Theorem search_sound_on_fixed_point {T} `{VarSelector T} (sel : T)
    sched fuel g g' :
  board g -> arc_consistent g ->
  search fuel sched g sel = Done (Some g') ->
  is_solved g' = Done true /\ valid_solution g'.
Proof.
  intros Hb Hac Hrun.
  pose proof (search_sound sel sched fuel g g' Hb Hac Hrun) as Hsol.
  split; [apply Hsol|by apply solved_fixed_point_valid].
Qed.

Lemma search_sound_on_fixed_point_witness :
  board two_ways_swept /\ arc_consistent two_ways_swept /\
  search 3 first_pick two_ways_swept FirstAvailable_new
    = Done (Some (read_file Grid_new easy_solved)) /\
  (is_solved (read_file Grid_new easy_solved) = Done true /\
   valid_solution (read_file Grid_new easy_solved)).
Proof.
  assert (board two_ways_swept) as Hb
    by (apply (bool_decide_eq_true_1 _); vm_compute; reflexivity).
  assert (arc_consistent two_ways_swept) as Hac
    by (apply (bool_decide_eq_true_1 _); vm_compute; reflexivity).
  assert (search 3 first_pick two_ways_swept FirstAvailable_new
          = Done (Some (read_file Grid_new easy_solved))) as Hrun
    by (vm_compute; reflexivity).
  split; [exact Hb|]. split; [exact Hac|]. split; [exact Hrun|].
  apply (search_sound_on_fixed_point FirstAvailable_new first_pick 3
           two_ways_swept _ Hb Hac Hrun).
Defined.

(** ** The unpacking of the selected variable *)

(** C9, as stated, fails: no board the program builds is unsolved and
    without open cell, because the three removals return before they
    store an empty domain. *)
Lemma no_reachable_board_without_choice :
  ~ exists g,
      reachable g /\ is_solved g = Done false /\
      select_variable FirstAvailable_new g = Done None.
Proof.
  intros (g & Hg & Hs & Hsel).
  destruct (FirstAvailable_scan_unsolved g _ (reachable_no_empty g Hg) Hs)
    as (i & j & d & E & _).
  unfold select_variable, FirstAvailable_select_variable, get_cells,
    get_width in Hsel. by rewrite E in Hsel.
Qed.

(** The failure C9 describes does happen on a board with an empty domain,
    which has to be built by hand. *)
Lemma search_TypeError_on_hole :
  is_solved hole_grid = Done false /\
  select_variable FirstAvailable_new hole_grid = Done None /\
  search 1 first_pick hole_grid FirstAvailable_new = Raise TypeError.
Proof. vm_compute. repeat split; discriminate || reflexivity. Qed.

(** C9, amended: on every board the program can build (by reading
    strings, by removals, by the trial assignments of [search]) every
    stored domain is non-empty, so wherever [is_solved] answers [False]
    [FirstAvailable] returns a cell, and [search] with [FirstAvailable]
    never raises [TypeError] at its tuple unpacking. *)
Theorem search_unpacking_never_fails fuel sched g :
  reachable g ->
  no_empty g /\
  search fuel sched g FirstAvailable_new <> Raise TypeError.
Proof.
  intros Hg. split; [by apply reachable_no_empty|].
  by apply search_FirstAvailable_no_TypeError.
Qed.

Lemma search_unpacking_never_fails_witness :
  reachable (read_file Grid_new two_ways) /\
  (no_empty (read_file Grid_new two_ways) /\
   search 5 first_pick (read_file Grid_new two_ways) FirstAvailable_new
     <> Raise TypeError).
Proof.
  assert (reachable (read_file Grid_new two_ways)) as H
    by (apply reach_read, reach_new).
  split; [exact H|].
  apply (search_unpacking_never_fails 5 first_pick _ H).
Defined.

(** * Lemmas for the further properties *)

(** ** The pre-check of [search] *)

Section Consistent.

Implicit Types (g : Grid) (q p : coord) (d : ascii).

Lemma hit_spec (a : string) d :
  (len a =? 1) && String.eqb a (str1 d) = true <-> a = str1 d.
Proof.
  rewrite andb_true_iff, Nat.eqb_eq, String.eqb_eq. split; [tauto|].
  intros ->. done.
Qed.

Lemma hit_false (a : string) d :
  (len a =? 1) && String.eqb a (str1 d) = false <-> a <> str1 d.
Proof. rewrite <- hit_spec. by destruct (_ && _). Qed.

Lemma consistent_lines_spec g d row col idxs :
  shape9 g -> row < 9 -> col < 9 -> Forall (fun i => i < 9) idxs ->
  exists b, consistent_lines g (str1 d) row col idxs = Done b /\
    (b = true <->
     Forall (fun i => dom g (row, i) <> str1 d /\ dom g (i, col) <> str1 d)
       idxs).
Proof.
  intros Hg Hr Hc. induction idxs as [|i idxs IH]; intros Hi.
  - exists true. split; [done|]. split; [constructor|done].
  - apply Forall_cons in Hi as [Hi Hrest]. cbn [consistent_lines].
    unfold get_cells.
    rewrite (cell_at_dom g row i Hg (conj Hr Hi)), bind_Done.
    destruct ((len (dom g (row, i)) =? 1) && _) eqn:E1.
    { exists false. split; [done|]. split; [done|].
      intros [[H _] _]%Forall_cons. by apply hit_spec in E1. }
    rewrite (cell_at_dom g i col Hg (conj Hi Hc)), bind_Done.
    destruct ((len (dom g (i, col)) =? 1) && _) eqn:E2.
    { exists false. split; [done|]. split; [done|].
      intros [[_ H] _]%Forall_cons. by apply hit_spec in E2. }
    destruct (IH Hrest) as (b & -> & Hb). exists b. split; [done|].
    rewrite Hb, Forall_cons. apply hit_false in E1, E2. tauto.
Qed.

Lemma consistent_box_spec g d ijs :
  shape9 g -> Forall in_range ijs ->
  exists b, consistent_box g (str1 d) ijs = Done b /\
    (b = true <-> Forall (fun q => dom g q <> str1 d) ijs).
Proof.
  intros Hg. induction ijs as [|[i j] ijs IH]; intros Hi.
  - exists true. split; [done|]. split; [constructor|done].
  - apply Forall_cons in Hi as [Hi Hrest]. cbn [consistent_box].
    unfold get_cells. rewrite (cell_at_dom g i j Hg Hi), bind_Done.
    destruct ((len (dom g (i, j)) =? 1) && _) eqn:E1.
    { exists false. split; [done|]. split; [done|].
      intros [H _]%Forall_cons. by apply hit_spec in E1. }
    destruct (IH Hrest) as (b & -> & Hb). exists b. split; [done|].
    rewrite Hb, Forall_cons. apply hit_false in E1. tauto.
Qed.

(** [consistent] answers [True] exactly when no cell of the row, the
    column and the box, the cell itself included, is fixed to the
    digit. *)
Lemma consistent_spec g d row col :
  shape9 g -> in_range (row, col) ->
  exists b, consistent g (str1 d) row col = Done b /\
    (b = true <->
     Forall (fun q => dom g q <> str1 d) (lines_and_box row col)).
Proof.
  intros Hg [Hr Hc]. simpl in Hr, Hc. unfold consistent, lines_and_box.
  destruct (consistent_lines_spec g d row col (seq 0 9) Hg Hr Hc)
    as (b1 & -> & Hb1).
  { apply Forall_forall. intros i Hi%list_elem_of_In%in_seq. lia. }
  rewrite bind_Done.
  assert (b1 = true <->
          Forall (fun q => dom g q <> str1 d) (row_cells row) /\
          Forall (fun q => dom g q <> str1 d) (column_cells col)) as Hlines.
  { rewrite Hb1. unfold row_cells, column_cells.
    rewrite !Forall_fmap, <- Forall_and. done. }
  destruct b1.
  - destruct (consistent_box_spec g d (box_cells row col) Hg)
      as (b2 & Hrun & Hb2); [by apply box_cells_in_range|].
    exists b2. split; [exact Hrun|].
    rewrite Hb2, !Forall_app. tauto.
  - exists false. split; [done|]. split; [done|].
    rewrite !Forall_app. intros (H1 & H2 & _).
    by apply Hlines.
Qed.

End Consistent.

(** ** Scans of the whole board *)

Section Scans.

Implicit Types (g : Grid) (q p : coord).

Lemma is_solved_scan_spec g ijs :
  shape9 g -> Forall in_range ijs ->
  exists b, is_solved_scan (_cells g) ijs = Done b /\
    (b = true <-> Forall (fixed g) ijs).
Proof.
  intros Hg. induction ijs as [|[i j] ijs IH]; intros Hi.
  - exists true. split; [done|]. split; [constructor|done].
  - apply Forall_cons in Hi as [Hi Hrest]. cbn [is_solved_scan].
    rewrite (cell_at_dom g i j Hg Hi), bind_Done.
    destruct (Nat.eqb_spec (len (dom g (i, j))) 1) as [E|E].
    + destruct (IH Hrest) as (b & -> & Hb). exists b. split; [done|].
      rewrite Hb, Forall_cons. unfold fixed at 2. tauto.
    + exists false. split; [done|]. split; [done|].
      intros [H _]%Forall_cons. done.
Qed.

Lemma is_solved_spec g :
  shape9 g ->
  exists b, is_solved g = Done b /\
    (b = true <-> Forall (fixed g) all_coords).
Proof.
  intros Hg. apply is_solved_scan_spec; [done|]. by apply Forall_all_coords.
Qed.

Lemma FirstAvailable_scan_spec g ijs :
  shape9 g -> Forall in_range ijs ->
  (FirstAvailable_scan (_cells g) ijs = Done None /\
   Forall (fun q => len (dom g q) <= 1) ijs) \/
  (exists i j before after,
     FirstAvailable_scan (_cells g) ijs = Done (Some (i, j)) /\
     ijs = before ++ (i, j) :: after /\
     Forall (fun q => len (dom g q) <= 1) before /\
     1 < len (dom g (i, j))).
Proof.
  intros Hg. induction ijs as [|[i j] ijs IH]; intros Hi.
  - left. split; [done|constructor].
  - apply Forall_cons in Hi as [Hi Hrest]. cbn [FirstAvailable_scan].
    rewrite (cell_at_dom g i j Hg Hi), bind_Done.
    destruct (Nat.ltb_spec 1 (len (dom g (i, j)))) as [E|E].
    + right. exists i, j, [], ijs. split_and!; [done|done|constructor|done].
    + destruct (IH Hrest) as [[-> Hall]|(i' & j' & b & a & -> & -> & Hb & Hl)].
      * left. split; [done|]. by constructor.
      * right. exists i', j', ((i, j) :: b), a.
        split_and!; [done|done|by constructor|done].
Qed.

Lemma unsolved_board_open g :
  board g -> is_solved g = Done false ->
  Exists (fun q => 1 < len (dom g q)) all_coords.
Proof.
  intros Hb Hs. destruct (is_solved_spec g (proj1 Hb)) as (b & E & Hiff).
  rewrite Hs in E. injection E as <-.
  destruct (decide (Forall (fixed g) all_coords)) as [Hall|Hnot].
  - apply Hiff in Hall. done.
  - apply not_Forall_Exists in Hnot; [|apply _].
    apply Exists_exists in Hnot as (q & Hq & Hn).
    apply Exists_exists. exists q. split; [done|].
    unfold compose, fixed in Hn.
    pose proof (board_len g q Hb (proj1 (all_coords_in_range q) Hq)). lia.
Qed.

Lemma FirstAvailable_picks_open : picks_open FirstAvailable_new.
Proof.
  intros g Hb Hs. pose proof (unsolved_board_open g Hb Hs) as Hex.
  destruct (FirstAvailable_scan_Some g all_coords (proj1 Hb))
    as ([i j] & E & Hin & Hl); [by apply Forall_all_coords|done|].
  exists i, j. split_and!; [exact E|by apply all_coords_in_range|done].
Qed.

Lemma MRV_picks_open : picks_open MRV_new.
Proof.
  intros g Hb Hs. pose proof (unsolved_board_open g Hb Hs) as Hex.
  destruct (MRV_scan_spec g all_coords (0, 0) 9) as (v & E & Hv);
    [apply Hb|by apply Forall_all_coords|].
  destruct Hv as [[-> Hall]|(b & a & Hsplit & Hn & Hsm & Hb' & Ha)].
  - exfalso. apply Exists_exists in Hex as (q & Hq & Hlen).
    pose proof (board_len g q Hb (proj1 (all_coords_in_range q) Hq)).
    destruct (proj1 (Forall_forall _ _) Hall q Hq); lia.
  - destruct v as [i j]. exists i, j.
    assert (in_range (i, j)) as Hr.
    { apply all_coords_in_range. rewrite Hsplit.
      apply elem_of_app. right. by left. }
    pose proof (board_len g (i, j) Hb Hr).
    split_and!; [|done|lia].
    unfold select_variable, MRV_select_variable, get_width, _width.
    change (range2 0 9 0 9) with all_coords. by rewrite E.
Qed.

End Scans.

(** ** Propagation and the solutions of a board *)

Section Solutions.

Implicit Types (g : Grid) (q p : coord) (Q : list coord)
  (sol : coord -> ascii).

Lemma solution_peers sol p q :
  solution sol -> in_range p -> q ∈ peers p -> sol p <> sol q.
Proof.
  intros Hsol Hp Hq.
  pose proof (proj1 (Forall_all_coords _) Hsol p Hp) as H. simpl in H.
  by apply (proj1 (Forall_forall _ _) H q).
Qed.

Lemma admits_at g sol q : admits g sol -> in_range q -> sol q ∈ chars (dom g q).
Proof. intros Ha Hq. by apply (proj1 (Forall_all_coords _) Ha q). Qed.

Lemma admits_fixed g sol q d :
  admits g sol -> in_range q -> dom g q = str1 d -> sol q = d.
Proof.
  intros Ha Hq Hd. pose proof (admits_at g sol q Ha Hq) as H.
  rewrite Hd in H. by apply list_elem_of_singleton in H.
Qed.

Lemma fixed_refines g g' q : refines g' g -> fixed g q -> fixed g' q.
Proof.
  intros Hre Hf. unfold fixed. by rewrite (shrinks_fixed _ _ (Hre q) Hf).
Qed.

(** A removal started at a fixed cell, on a board that admits a
    solution, raises no flag and deletes no digit of the solution. *)
Lemma remove_domain_scan_keeps sol row col ijs : forall g va,
  shape9 g -> in_range (row, col) -> Forall in_range ijs ->
  (forall q, q ∈ ijs -> q <> (row, col) -> q ∈ peers (row, col)) ->
  fixed g (row, col) -> solution sol -> admits g sol ->
  Forall (fixed g) va -> Forall in_range va ->
  exists g' va',
    remove_domain_scan row col ijs g va = Done (g', (Some va', false)) /\
    shape9 g' /\ refines g' g /\ admits g' sol /\
    Forall (fixed g') va' /\ Forall in_range va'.
Proof.
  induction ijs as [|[i j] ijs IH];
    intros g va Hg Hp Hr Hpeers Hfix Hsol Hadm Hva Hvr.
  - exists g, va. split_and!; done || apply refines_refl.
  - apply Forall_cons in Hr as [Hq Hr]. cbn [remove_domain_scan].
    assert (forall q, q ∈ ijs -> q <> (row, col) -> q ∈ peers (row, col))
      as Hpeers'.
    { intros q Hin. apply Hpeers. by apply elem_of_cons; right. }
    destruct (decide ((i, j) = (row, col))) as [E|E].
    { injection E as -> ->. rewrite !Nat.eqb_refl. simpl. by apply IH. }
    assert ((i =? row) && (j =? col) = false) as ->.
    { apply andb_false_iff.
      destruct (Nat.eqb_spec i row) as [->|]; [|by left].
      destruct (Nat.eqb_spec j col) as [->|]; [done|by right]. }
    unfold get_cells.
    pose proof (cell_at_dom g i j Hg Hq) as Hcell.
    rewrite Hcell, bind_Done.
    rewrite (cell_at_dom g row col Hg Hp), bind_Done. cbn zeta.
    destruct (len_1_inv _ Hfix) as [d Hd]. rewrite Hd.
    set (new := replace (dom g (i, j)) (str1 d)).
    assert (sol (i, j) ∈ chars new) as Hin.
    { unfold new. rewrite replace_str1_chars. apply list_elem_of_filter.
      split; [|by apply admits_at].
      rewrite <- (admits_fixed g sol (row, col) d Hadm Hp Hd).
      intros Heq. eapply (solution_peers sol (row, col) (i, j)); try done.
      apply Hpeers; [by left|done]. }
    assert (len new <> 0) as E0.
    { intros E0. apply len_0 in E0. rewrite E0 in Hin.
      by apply elem_of_nil in Hin. }
    destruct (Nat.eqb_spec (len new) 0) as [|_]; [done|].
    pose proof (shrinks_replace (dom g (i, j)) (str1 d) E0) as Hsh.
    fold new in Hsh.
    pose proof (set_cell_Done g i j _ new Hcell) as Hset.
    set (g1 := mkGrid _) in Hset. rewrite Hset, bind_Done.
    pose proof (set_cell_shape9 _ _ _ _ _ Hset Hg) as Hg1.
    pose proof (refines_set_cell _ _ _ _ _ Hset Hsh) as Hr1.
    assert (admits g1 sol) as Hadm1.
    { apply Forall_all_coords. intros q Hrq.
      rewrite (set_cell_dom _ _ _ _ _ q Hset).
      case_decide as Eq; [by subst q|by apply admits_at]. }
    set (va1 := if (len new =? 1) && (1 <? len (dom g (i, j)))
                then va ++ [(i, j)] else va).
    assert (Forall (fixed g1) va1 /\ Forall in_range va1) as [Hva1 Hvr1].
    { assert (Forall (fixed g1) va) as Hva'.
      { eapply Forall_impl; [exact Hva|]. intros q. by apply fixed_refines. }
      unfold va1. destruct (Nat.eqb_spec (len new) 1) as [E1|]; [|done].
      destruct (1 <? len (dom g (i, j))); [|done]. simpl.
      rewrite !Forall_app. split_and!; try done.
      - constructor; [|constructor]. unfold fixed.
        rewrite (set_cell_dom _ _ _ _ _ (i, j) Hset).
        by rewrite decide_True.
      - by constructor. }
    destruct (IH g1 va1 Hg1 Hp Hr Hpeers')
      as (g' & va' & Hrun & H1 & H2 & H3 & H4 & H5); try done.
    { by apply fixed_refines with g. }
    exists g', va'. split_and!; try done. by eapply refines_trans.
Qed.

(** The loop of [consistency], started from fixed cells on a board that
    admits a solution, never raises its flag and leaves a board that
    still admits the solution. *)
Lemma consistency_loop_keeps sol fuel : forall picks g Q,
  shape9 g -> Forall in_range Q -> Forall (fixed g) Q ->
  solution sol -> admits g sol ->
  consistency_loop fuel picks g Q = OutOfFuel \/
  exists g',
    consistency_loop fuel picks g Q = Done (g', false) /\
    shape9 g' /\ refines g' g /\ admits g' sol.
Proof.
  induction fuel as [|fuel IH]; intros picks g Q Hg HQ HF Hsol Hadm.
  - destruct Q; [|by left]. right. exists g.
    split_and!; done || apply refines_refl.
  - destruct Q as [|q0 Q'] eqn:EQ.
    { right. exists g. split_and!; done || apply refines_refl. }
    rewrite consistency_loop_unfold. cbv zeta. rewrite <- EQ in *.
    set (k := picks 0 mod length Q).
    assert (k < length Q) as Hk by (subst k Q; simpl; lia_div).
    assert (is_Some (Q !! k)) as [[r c] Hp] by by apply lookup_lt_is_Some_2.
    rewrite (nth_lookup_Some _ _ _ _ Hp).
    pose proof (proj1 (Forall_lookup _ _) HQ _ _ Hp) as Hr.
    pose proof (proj1 (Forall_lookup _ _) HF _ _ Hp) as Hfix.
    simpl in Hfix. pose proof Hr as [Hr1 Hr2]. simpl in Hr1, Hr2.
    destruct (remove_domain_scan_keeps sol r c (row_cells r) g [])
      as (g1 & rv & R1 & S1 & F1 & A1 & V1 & I1); try done.
    { by apply row_cells_in_range. }
    { intros q Hq Hne. by apply peers_row. }
    destruct (remove_domain_scan_keeps sol r c (column_cells c) g1 [])
      as (g2 & cv & R2 & S2 & F2 & A2 & V2 & I2); try done.
    { by apply column_cells_in_range. }
    { intros q Hq Hne. by apply peers_column. }
    { by apply fixed_refines with g. }
    destruct (remove_domain_scan_keeps sol r c (box_cells r c) g2 [])
      as (g3 & uv & R3 & S3 & F3 & A3 & V3 & I3); try done.
    { by apply box_cells_in_range. }
    { intros q Hq Hne. by apply peers_box. }
    { apply fixed_refines with g1; [done|]. by apply fixed_refines with g. }
    change (remove_domain_row g r c)
      with (remove_domain_scan r c (row_cells r) g []).
    rewrite R1, bind_Done.
    change (remove_domain_column g1 r c)
      with (remove_domain_scan r c (column_cells c) g1 []).
    rewrite R2, bind_Done.
    change (remove_domain_unit g2 r c)
      with (remove_domain_scan r c (box_cells r c) g2 []).
    rewrite R3, bind_Done. simpl.
    assert (refines g3 g) as F30.
    { eapply refines_trans; [exact F3|].
      eapply refines_trans; [exact F2|exact F1]. }
    destruct (IH (fun n => picks (S n)) g3
                (foldl set_add (delete k Q) (rv ++ cv ++ uv)))
      as [->|(g' & -> & S' & F' & A')]; try done.
    + apply round_in_range; [done|]. rewrite !Forall_app. done.
    + apply foldl_set_add_Forall.
      * apply Forall_delete. eapply Forall_impl; [exact HF|].
        intros q. by apply fixed_refines.
      * rewrite !Forall_app. split_and!; [|by eapply Forall_impl;
          [exact V2|intros q; by apply fixed_refines]|done].
        eapply Forall_impl; [exact V1|]. intros q Hq.
        apply fixed_refines with g2; [done|]. by apply fixed_refines with g1.
    + by left.
    + right. exists g'. split_and!; try done. by eapply refines_trans.
Qed.

Lemma consistency_keeps sol picks g Q :
  shape9 g -> Forall in_range Q -> Forall (fixed g) Q ->
  solution sol -> admits g sol ->
  exists g',
    consistency picks g Q = Done (g', false) /\
    shape9 g' /\ refines g' g /\ admits g' sol.
Proof.
  intros Hg HQ HF Hsol Hadm.
  destruct (consistency_Done picks g Q Hg HQ) as (g0 & flag & E & _).
  destruct (consistency_loop_keeps sol (count_multi g + length Q) picks g Q
              Hg HQ HF Hsol Hadm) as [E'|(g' & E' & H)].
  - unfold consistency in E. by rewrite E in E'.
  - exists g'. by split.
Qed.

End Solutions.

(** ** What [search] returns *)

Section SearchReturns.

Implicit Types (g h : Grid) (q p : coord) (Q : list coord)
  (sol : coord -> ascii).

Lemma consistency_loop_count fuel : forall picks g Q g' flag,
  shape9 g -> Forall in_range Q ->
  consistency_loop fuel picks g Q = Done (g', flag) ->
  count_multi g' <= count_multi g.
Proof.
  induction fuel as [|fuel IH]; intros picks g Q g' flag Hg HQ Hrun.
  - destruct Q; [|done]. by injection Hrun as <- <-.
  - destruct Q as [|q0 Q'] eqn:EQ; [by injection Hrun as <- <-|].
    rewrite <- EQ in *.
    destruct (consistency_loop_round fuel picks g Q)
      as (k & p & g3 & Hk & S3 & F3 & P3 & C3 & [E|(new & Hpost & E)]);
      [done|done|by subst|..]; rewrite E in Hrun.
    + by injection Hrun as <- <-.
    + destruct Hpost as (_ & Hr & _).
      pose proof (IH _ _ _ _ _ S3 (round_in_range Q k new HQ Hr) Hrun). lia.
Qed.

(** The propagation that follows a trial assignment: it returns, and
    the board it leaves is a board with fewer open cells. *)
Lemma assign_and_propagate picks g i j d g1 :
  board g -> in_range (i, j) -> 1 < len (dom g (i, j)) ->
  d ∈ chars (dom g (i, j)) -> set_cell g i j (str1 d) = Done g1 ->
  refines g1 g /\
  exists g2 flag,
    consistency picks g1 [(i, j)] = Done (g2, flag) /\
    board g2 /\ refines g2 g /\ count_multi g2 < count_multi g.
Proof.
  intros Hb Hr Hopen Hd Hset.
  assert (refines g1 g) as Hre.
  { eapply refines_set_cell; [done|]. split; [|done].
    by apply singleton_sublist_l. }
  split; [done|].
  pose proof (set_cell_shape9 _ _ _ _ _ Hset (proj1 Hb)) as Hg1.
  pose proof (count_multi_set_cell g i j _ (str1 d) g1
                (cell_at_dom g i j (proj1 Hb) Hr) Hset) as Hcnt.
  unfold multi in Hcnt. rewrite decide_True in Hcnt by done.
  rewrite decide_False in Hcnt by (simpl; lia).
  destruct (consistency_Done picks g1 [(i, j)] Hg1)
    as (g2 & flag & E & Hg2 & Hre2); [by constructor|].
  exists g2, flag. split; [done|].
  assert (refines g2 g) as Hre' by by eapply refines_trans.
  split_and!; [by eapply refines_board|done|].
  unfold consistency in E.
  assert (Forall in_range [(i, j)]) as HQ by by constructor.
  pose proof (consistency_loop_count _ _ _ _ _ _ Hg1 HQ E). lia.
Qed.

(** A digit that passes the pre-check is tried on an open cell. *)
Lemma consistent_true_open g i j d :
  board g -> in_range (i, j) -> d ∈ chars (dom g (i, j)) ->
  consistent g (str1 d) i j = Done true -> 1 < len (dom g (i, j)).
Proof.
  intros Hb Hr Hd Hc.
  destruct (consistent_spec g d i j (proj1 Hb) Hr) as (b & E & Hiff).
  rewrite Hc in E. injection E as <-.
  pose proof (proj1 Hiff eq_refl) as Hall.
  assert ((i, j) ∈ lines_and_box i j) as Hin.
  { unfold lines_and_box. apply elem_of_app. left.
    apply list_elem_of_fmap. exists j. split; [done|].
    apply list_elem_of_In, in_seq. destruct Hr as [_ Hj]. simpl in Hj. lia. }
  pose proof (proj1 (Forall_forall _ _) Hall _ Hin) as Hne. simpl in Hne.
  pose proof (board_len g (i, j) Hb Hr) as Hlen.
  destruct (decide (len (dom g (i, j)) = 1)) as [E1|]; [|lia].
  destruct (len_1_inv _ E1) as [c Hc']. rewrite Hc' in Hd, Hne.
  apply list_elem_of_singleton in Hd as ->. done.
Qed.

Lemma search_values_returns (rec : Grid -> res (option Grid)) sched g i j :
  board g -> in_range (i, j) ->
  (forall h, board h -> count_multi h < count_multi g ->
     exists r, rec h = Done r) ->
  forall ds, (forall d, d ∈ ds -> d ∈ chars (dom g (i, j))) ->
    exists r, search_values rec sched g i j ds = Done r.
Proof.
  intros Hb Hr Hrec. induction ds as [|d ds IH]; intros Hds.
  - by exists None.
  - assert (exists r, search_values rec sched g i j ds = Done r) as Hrest.
    { apply IH. intros c Hc. apply Hds. by apply elem_of_cons; right. }
    assert (d ∈ chars (dom g (i, j))) as Hd by (apply Hds; by left).
    cbn [search_values].
    destruct (consistent_spec g d i j (proj1 Hb) Hr) as ([|] & Ec & _);
      rewrite Ec, bind_Done; [|done].
    pose proof (consistent_true_open g i j d Hb Hr Hd Ec) as Hopen.
    rewrite copy_id.
    pose proof (set_cell_Done g i j _ (str1 d)
                  (cell_at_dom g i j (proj1 Hb) Hr)) as Hset.
    set (g1 := mkGrid _) in Hset. rewrite Hset, bind_Done.
    destruct (assign_and_propagate (sched g1 [(i, j)]) g i j d g1
                Hb Hr Hopen Hd Hset)
      as (_ & g2 & flag & E & Hb2 & _ & Hlt).
    rewrite E, bind_Done. destruct flag; simpl; [done|].
    destruct (Hrec g2 Hb2 Hlt) as ([h|] & ->); rewrite bind_Done; [|done].
    by eexists.
Qed.

(** On a board, [search] returns within a recursion depth of one more
    than the number of open cells. *)
Lemma search_returns {T} `{VarSelector T} (sel : T) sched fuel :
  picks_open sel ->
  forall g, board g -> count_multi g < fuel ->
    exists r, search fuel sched g sel = Done r.
Proof.
  intros Hsel. induction fuel as [|fuel IH]; intros g Hb Hf; [lia|].
  cbn [search].
  destruct (is_solved_spec g (proj1 Hb)) as ([|] & Es & _);
    rewrite Es, bind_Done; [by eexists|].
  destruct (Hsel g Hb Es) as (i & j & -> & Hr & Hopen).
  rewrite bind_Done. unfold get_cells.
  rewrite (cell_at_dom g i j (proj1 Hb) Hr), bind_Done.
  apply search_values_returns; [done|done| |done].
  intros h Hh Hlt. apply IH; [done|lia].
Qed.

Lemma count_multi_le_81 g : shape9 g -> count_multi g <= 81.
Proof.
  intros [Hl Hr]. unfold count_multi.
  assert (forall l : list (list string),
    Forall (fun row => length row = 9) l ->
    sum_list (map (fun row => length (filter (fun d => 1 < len d) row)) l)
    <= 9 * length l) as Hsum.
  { induction l as [|row l IH]; intros Hall; [simpl; lia|].
    apply Forall_cons in Hall as [Hrow Hall]. specialize (IH Hall).
    pose proof (length_filter (fun d => 1 < len d) row). simpl. lia. }
  specialize (Hsum _ Hr). lia.
Qed.

(** The board [search] returns is made of the board it was given by
    deleting candidates. *)
Lemma search_values_refines (rec : Grid -> res (option Grid)) sched g i j :
  shape9 g -> in_range (i, j) ->
  (forall h h', shape9 h -> rec h = Done (Some h') ->
     shape9 h' /\ refines h' h) ->
  forall ds g',
    (forall d, d ∈ ds -> d ∈ chars (dom g (i, j))) ->
    search_values rec sched g i j ds = Done (Some g') ->
    shape9 g' /\ refines g' g.
Proof.
  intros Hg Hr Hrec. induction ds as [|d ds IH]; intros g' Hds Hrun; [done|].
  assert (forall d, d ∈ ds -> d ∈ chars (dom g (i, j))) as Hds'
    by (intros c Hc; apply Hds; by apply elem_of_cons; right).
  cbn [search_values] in Hrun.
  apply bind_Done_inv in Hrun as ([|] & Hok & Hrun); [|by apply IH].
  rewrite copy_id in Hrun.
  apply bind_Done_inv in Hrun as (g1 & Hset & Hrun).
  apply bind_Done_inv in Hrun as ([g2 [|]] & Hcons & Hrun); simpl in Hrun;
    [by apply IH|].
  apply bind_Done_inv in Hrun as ([h'|] & Hh & Hrun); [|by apply IH].
  injection Hrun as ->.
  pose proof (set_cell_shape9 _ _ _ _ _ Hset Hg) as Hg1.
  assert (refines g1 g) as Hre1.
  { eapply refines_set_cell; [done|]. split; [|done].
    apply singleton_sublist_l, Hds. by left. }
  destruct (consistency_Done (sched g1 [(i, j)]) g1 [(i, j)] Hg1)
    as (g2' & flag & E & Hg2 & Hre2); [by constructor|].
  rewrite Hcons in E. injection E as <- <-.
  destruct (Hrec g2 g' Hg2 Hh) as [Hg' Hre']. split; [done|].
  eapply refines_trans; [exact Hre'|]. by eapply refines_trans.
Qed.

Lemma search_refines {T} `{VarSelector T} (sel : T) sched fuel :
  forall g g', shape9 g -> search fuel sched g sel = Done (Some g') ->
    shape9 g' /\ refines g' g.
Proof.
  induction fuel as [|fuel IH]; intros g g' Hg Hrun; [done|].
  cbn [search] in Hrun.
  apply bind_Done_inv in Hrun as ([|] & Hsolved & Hrun).
  { injection Hrun as <-. split; [done|apply refines_refl]. }
  apply bind_Done_inv in Hrun as ([[i j]|] & Hsel & Hrun); [|done].
  apply bind_Done_inv in Hrun as (d & Hd & Hrun).
  unfold get_cells in Hd.
  eapply search_values_refines; [done| | | |exact Hrun].
  - by eapply cell_at_in_range.
  - intros h h' Hh Hh'. by eapply IH.
  - intros c Hc. by rewrite (cell_at_Done_dom _ _ _ _ Hd).
Qed.

End SearchReturns.

(** ** Completeness of [search] *)

Section Complete.

Implicit Types (g h : Grid) (q p : coord) (Q : list coord)
  (sol : coord -> ascii).

Lemma lines_and_box_peers i j q :
  q ∈ lines_and_box i j -> q <> (i, j) -> q ∈ peers (i, j).
Proof. intros Hq Hne. by apply list_elem_of_filter. Qed.

(** The digit of a solution passes the pre-check on an open cell. *)
Lemma consistent_solution g sol i j :
  board g -> in_range (i, j) -> 1 < len (dom g (i, j)) ->
  solution sol -> admits g sol ->
  consistent g (str1 (sol (i, j))) i j = Done true.
Proof.
  intros Hb Hr Hopen Hsol Hadm.
  destruct (consistent_spec g (sol (i, j)) i j (proj1 Hb) Hr)
    as (b & E & Hiff).
  rewrite E. f_equal. apply Hiff. apply Forall_forall. intros q Hq Hdq.
  destruct (decide (q = (i, j))) as [->|Hne].
  - rewrite Hdq in Hopen. simpl in Hopen. lia.
  - pose proof (lines_and_box_peers i j q Hq Hne) as Hp.
    pose proof (peers_in_range _ _ Hr Hp) as Hrq.
    apply (solution_peers sol (i, j) q Hsol Hr Hp).
    symmetry. by apply (admits_fixed g sol q).
Qed.

Lemma search_values_complete (rec : Grid -> res (option Grid))
    sched g i j sol :
  board g -> in_range (i, j) -> 1 < len (dom g (i, j)) ->
  solution sol -> admits g sol ->
  (forall h, board h -> count_multi h < count_multi g ->
     exists r, rec h = Done r) ->
  (forall h, board h -> count_multi h < count_multi g -> admits h sol ->
     exists h', rec h = Done (Some h')) ->
  forall ds, (forall d, d ∈ ds -> d ∈ chars (dom g (i, j))) ->
    sol (i, j) ∈ ds ->
    exists g', search_values rec sched g i j ds = Done (Some g').
Proof.
  intros Hb Hr Hopen Hsol Hadm Hret Hrec.
  induction ds as [|d ds IH]; intros Hds Hin;
    [by apply elem_of_nil in Hin|].
  assert (forall d, d ∈ ds -> d ∈ chars (dom g (i, j))) as Hds'
    by (intros c Hc; apply Hds; by apply elem_of_cons; right).
  assert (d ∈ chars (dom g (i, j))) as Hd by (apply Hds; by left).
  cbn [search_values].
  pose proof (set_cell_Done g i j _ (str1 d)
                (cell_at_dom g i j (proj1 Hb) Hr)) as Hset.
  set (g1 := mkGrid _) in Hset.
  destruct (assign_and_propagate (sched g1 [(i, j)]) g i j d g1
              Hb Hr Hopen Hd Hset)
    as (Hre1 & g2 & flag & E & Hb2 & _ & Hlt).
  destruct (decide (d = sol (i, j))) as [->|Hne].
  - rewrite (consistent_solution g sol i j Hb Hr Hopen Hsol Hadm), bind_Done.
    rewrite copy_id, Hset, bind_Done.
    assert (admits g1 sol) as Hadm1.
    { apply Forall_all_coords. intros q Hrq.
      rewrite (set_cell_dom _ _ _ _ _ q Hset).
      case_decide as Eq; [subst q; by left|by apply admits_at]. }
    destruct (consistency_keeps sol (sched g1 [(i, j)]) g1 [(i, j)])
      as (g2' & E' & _ & _ & Hadm2); try done.
    { eapply set_cell_shape9; [done|apply Hb]. }
    { by constructor. }
    { constructor; [|constructor]. unfold fixed.
      rewrite (set_cell_dom _ _ _ _ _ (i, j) Hset).
      by rewrite decide_True. }
    rewrite E in E'. injection E' as <- ->.
    rewrite E, bind_Done. simpl.
    destruct (Hrec g2 Hb2 Hlt Hadm2) as (h' & ->). rewrite bind_Done.
    by exists h'.
  - apply elem_of_cons in Hin as [Heq|Hin]; [congruence|].
    destruct (consistent_spec g d i j (proj1 Hb) Hr) as ([|] & Ec & _);
      rewrite Ec, bind_Done; [|by apply IH].
    rewrite copy_id, Hset, bind_Done, E, bind_Done.
    destruct flag; simpl; [by apply IH|].
    destruct (Hret g2 Hb2 Hlt) as ([h|] & ->); rewrite bind_Done;
      [by exists h|by apply IH].
Qed.

(** On a board that admits a solution, [search] returns a board. *)
Lemma search_complete {T} `{VarSelector T} (sel : T) sched sol fuel :
  picks_open sel -> solution sol ->
  forall g, board g -> admits g sol -> count_multi g < fuel ->
    exists g', search fuel sched g sel = Done (Some g').
Proof.
  intros Hsel Hsol. induction fuel as [|fuel IH];
    intros g Hb Hadm Hf; [lia|].
  cbn [search].
  destruct (is_solved_spec g (proj1 Hb)) as ([|] & Es & _);
    rewrite Es, bind_Done; [by eexists|].
  destruct (Hsel g Hb Es) as (i & j & -> & Hr & Hopen).
  rewrite bind_Done. unfold get_cells.
  rewrite (cell_at_dom g i j (proj1 Hb) Hr), bind_Done.
  apply (search_values_complete _ sched g i j sol); try done.
  - intros h Hh Hlt. apply (search_returns sel sched fuel Hsel); [done|lia].
  - intros h Hh Hlt Hadmh. apply IH; [done|done|lia].
  - by apply admits_at.
Qed.

End Complete.

(** ** The whole pipeline *)

Section Pipeline.

Implicit Types (g h : Grid) (q p : coord) (Q : list coord)
  (sol : coord -> ascii).

Lemma candidates_domain_of c : puzzle_char c -> candidates (domain_of c).
Proof.
  unfold puzzle_char. simpl. rewrite !elem_of_cons.
  intros Hc. repeat (destruct Hc as [->|Hc]);
    try (apply (bool_decide_eq_true_1 _); vm_compute; reflexivity).
  by apply elem_of_nil in Hc.
Qed.

(** A valid puzzle string is read into a board. *)
Lemma read_file_board s : valid_puzzle s -> board (read_file Grid_new s).
Proof.
  intros [Hlen Hchars]. split; [by apply read_file_shape9|].
  apply Forall_all_coords. intros [i j] [Hi Hj]. simpl in Hi, Hj.
  destruct (chars_lookup_81 s i j Hlen Hi Hj) as [c Hc].
  rewrite (cell_at_Done_dom _ _ _ _
             (read_file_cell_at s i j c ltac:(lia) Hj Hc)).
  apply candidates_domain_of.
  by apply (proj1 (Forall_lookup _ _) Hchars _ _ Hc).
Qed.

(** The sweep from all the fixed cells of a board, when it ends without
    flag, ends on a propagation fixed point. *)
Lemma sweep_fixed_point picks g Q g' :
  board g -> fixed_cells g = Done Q ->
  consistency picks g Q = Done (g', false) ->
  board g' /\ arc_consistent g'.
Proof.
  intros Hb EQ Hrun.
  destruct (fixed_cells_spec g (proj1 Hb)) as (Q' & EQ' & HQ).
  rewrite EQ in EQ'. injection EQ' as <-.
  eapply consistency_loop_sound; [|exact Hrun].
  split_and!; [done| |].
  - apply Forall_forall. intros q Hq. by apply HQ.
  - intros q Hq Hfix. left. by apply HQ.
Qed.

(** The main loop body on a valid puzzle that has a solution. *)
Lemma solve_solvable {T} `{VarSelector T} (sel : T) sched sol s :
  picks_open sel -> valid_puzzle s -> solution sol ->
  admits (read_file Grid_new s) sol ->
  exists g',
    solve 82 sched sel s = Done (Some g') /\
    is_solved g' = Done true /\ valid_solution g' /\
    refines g' (read_file Grid_new s).
Proof.
  intros Hsel Hs Hsol Hadm. set (g := read_file Grid_new s) in *.
  pose proof (read_file_board s Hs) as Hb. fold g in Hb.
  destruct (fixed_cells_spec g (proj1 Hb)) as (Q & EQ & HQ).
  destruct (consistency_keeps sol (sched g Q) g Q)
    as (g1 & E1 & Hg1 & Hre1 & Hadm1); try done.
  { apply Hb. }
  { apply Forall_forall. intros q Hq. by apply HQ. }
  { apply Forall_forall. intros q Hq. by apply HQ. }
  destruct (sweep_fixed_point _ g Q g1 Hb EQ E1) as [Hb1 Hac1].
  pose proof (count_multi_le_81 g1 Hg1) as Hcnt.
  destruct (search_complete sel sched sol 82 Hsel Hsol g1 Hb1 Hadm1)
    as (g' & Hrun); [lia|].
  destruct (search_sound sel sched 82 g1 g' Hb1 Hac1 Hrun)
    as (Hb' & Hac' & Hsolved).
  destruct (search_refines sel sched 82 g1 g' Hg1 Hrun) as [_ Hre'].
  exists g'. split_and!.
  - unfold solve. fold g. unfold pre_process_consistency.
    rewrite EQ, bind_Done, E1, bind_Done, bind_Done. exact Hrun.
  - done.
  - by apply solved_fixed_point_valid.
  - by eapply refines_trans.
Qed.

End Pipeline.

(** ** Boards without solution *)

Section Unsolvable.

Implicit Types (g h : Grid) (q p : coord) (Q : list coord)
  (sol : coord -> ascii).

Lemma read_off_fixed g q : fixed g q -> dom g q = str1 (read_off g q).
Proof. intros [d Hd]%len_1_inv. unfold read_off. by rewrite Hd. Qed.

Lemma solved_fixed_point_solution g :
  solved_fixed_point g -> solution (read_off g) /\ admits g (read_off g).
Proof.
  intros (Hb & Hac & Hs). split.
  - apply Forall_all_coords. intros p Hp.
    apply Forall_forall. intros q Hq Heq.
    pose proof (is_solved_fixed g p Hs Hp) as Hfp.
    pose proof (is_solved_fixed g q Hs (peers_in_range _ _ Hp Hq)) as Hfq.
    pose proof (proj1 (Forall_all_coords _) Hac p Hp Hfp) as Hprop.
    pose proof (proj1 (Forall_forall _ _) Hprop q Hq) as Ha.
    rewrite (read_off_fixed g p Hfp), (read_off_fixed g q Hfq) in Ha.
    apply Forall_cons in Ha as [Ha _]. apply Ha. rewrite Heq. by left.
  - apply Forall_all_coords. intros q Hq.
    pose proof (read_off_fixed g q (is_solved_fixed g q Hs Hq)) as E.
    cbv beta. set (c := read_off g q) in *. rewrite E. by left.
Qed.

Lemma admits_refines g g' sol : refines g' g -> admits g' sol -> admits g sol.
Proof.
  intros Hre Hadm. apply Forall_all_coords. intros q Hq.
  eapply shrinks_elem; [apply Hre|]. by apply admits_at.
Qed.

(** On a propagation fixed point that admits no solution, [search]
    returns [False]. *)
Lemma search_unsolvable {T} `{VarSelector T} (sel : T) sched fuel g :
  picks_open sel -> board g -> arc_consistent g ->
  (forall sol, solution sol -> ~ admits g sol) ->
  count_multi g < fuel ->
  search fuel sched g sel = Done None.
Proof.
  intros Hsel Hb Hac Hnone Hf.
  destruct (search_returns sel sched fuel Hsel g Hb Hf) as ([g'|] & E);
    [|done].
  exfalso.
  pose proof (search_sound sel sched fuel g g' Hb Hac E) as Hsol.
  destruct (search_refines sel sched fuel g g' (proj1 Hb) E) as [_ Hre].
  destruct (solved_fixed_point_solution g' Hsol) as [H1 H2].
  apply (Hnone (read_off g') H1). by eapply admits_refines.
Qed.

End Unsolvable.

(** ** Inputs of the wrong length *)

Section Lengths.

Implicit Types (g h : Grid) (q p : coord) (Q : list coord).

Lemma cell_at_outcome cells i j :
  (exists d, cell_at cells i j = Done d) \/
  cell_at cells i j = Raise IndexError.
Proof. unfold cell_at. repeat case_match; eauto. Qed.

Lemma fixed_cells_scan_raises g ijs : forall Q,
  Exists (fun q => cell_at (_cells g) q.1 q.2 = Raise IndexError) ijs ->
  fixed_cells_scan g ijs Q = Raise IndexError.
Proof.
  induction ijs as [|[i j] ijs IH]; intros Q Hex.
  - by apply Exists_nil in Hex.
  - cbn [fixed_cells_scan]. unfold get_cells.
    destruct (cell_at_outcome (_cells g) i j) as [[d Hd]|Hd];
      rewrite Hd; [|done].
    rewrite bind_Done. apply Exists_cons in Hex as [Hex|Hex].
    { simpl in Hex. by rewrite Hd in Hex. }
    case_match; by apply IH.
Qed.

(** A board with fewer than nine rows makes [pre_process_consistency]
    raise [IndexError]. *)
Lemma pre_process_short_board sched g :
  length (_cells g) < 9 -> pre_process_consistency sched g = Raise IndexError.
Proof.
  intros Hlen. unfold pre_process_consistency, fixed_cells.
  rewrite fixed_cells_scan_raises; [done|].
  apply Exists_exists. exists (length (_cells g), 0). split.
  - apply all_coords_in_range. split; simpl; lia.
  - simpl. unfold cell_at. by rewrite lookup_ge_None_2.
Qed.

Lemma read_file_rows s : length (_cells (read_file Grid_new s)) = len s / 9.
Proof.
  destruct (read_file_cells Grid_new s) as (rows & -> & Hl & _). done.
Qed.

(** Fewer than nine characters add nothing to the board. *)
Lemma read_file_short g t : len t < 9 -> read_file g t = g.
Proof.
  intros Ht. destruct (read_file_cells g t) as (rows & E & Hl & _).
  assert (len t / 9 = 0) as E0 by lia_div. rewrite E0 in Hl.
  destruct rows; [|done]. rewrite app_nil_r in E.
  destruct g as [cs], (read_file _ t) as [cs']. simpl in E. by subst.
Qed.

Lemma domains_of_append s t : domains_of (s +:+ t) = domains_of s ++ domains_of t.
Proof. unfold domains_of. by rewrite chars_append, map_app. Qed.

Lemma len_domains_of s : length (domains_of s) = len s.
Proof. unfold domains_of. by rewrite length_map, len_chars. Qed.

Lemma len_append s t : len (s +:+ t) = len s + len t.
Proof. by rewrite !len_chars, chars_append, length_app. Qed.

(** Reading a string whose length is a multiple of nine and then
    another one is reading the two strings joined. *)
Lemma read_file_append g s t :
  len s mod 9 = 0 ->
  read_file g (s +:+ t) = read_file (read_file g s) t.
Proof.
  intros Hs.
  destruct (read_file_cells g (s +:+ t)) as (rows & E & Hl & Hk).
  destruct (read_file_cells g s) as (rows1 & E1 & Hl1 & Hk1).
  destruct (read_file_cells (read_file g s) t) as (rows2 & E2 & Hl2 & Hk2).
  assert (rows = rows1 ++ rows2) as Hrows.
  { rewrite len_append in Hl, Hk.
    assert ((len s + len t) / 9 = len s / 9 + len t / 9) as Hdiv by lia_div.
    assert (len s = 9 * (len s / 9)) as Hmul by lia_div.
    apply list_eq. intros k.
    destruct (decide (k < len s / 9)) as [Hk'|Hk'].
    - rewrite lookup_app_l by lia. rewrite Hk by lia. rewrite Hk1 by lia.
      f_equal. rewrite domains_of_append.
      rewrite drop_app_le by (rewrite len_domains_of; lia).
      rewrite take_app_le; [done|].
      rewrite length_drop, len_domains_of. lia.
    - rewrite lookup_app_r by lia. rewrite Hl1.
      destruct (decide (k < len s / 9 + len t / 9)) as [Hk''|Hk''].
      + rewrite Hk by lia. rewrite Hk2 by lia. do 2 f_equal.
        rewrite domains_of_append.
        rewrite drop_app_ge by (rewrite len_domains_of; lia).
        rewrite len_domains_of. f_equal. lia.
      + rewrite !lookup_ge_None_2; [done|lia|lia]. }
  destruct (read_file g (s +:+ t)) as [cs], (read_file (read_file g s) t)
    as [cs']. simpl in *. f_equal.
  by rewrite E, E2, E1, Hrows, app_assoc.
Qed.

End Lengths.

(** ** The exact effect of a removal *)

Section Effect.

Implicit Types (g h : Grid) (q p : coord) (Q : list coord).

Lemma remove_domain_scan_effect row col ijs : forall g va g' out,
  shape9 g -> in_range (row, col) -> Forall in_range ijs -> NoDup ijs ->
  remove_domain_scan row col ijs g va = Done (g', out) ->
  removal_effect (row, col) ijs g va g' out.
Proof.
  induction ijs as [|[i j] ijs IH]; intros g va g' out Hg Hp Hr Hnd Hrun.
  - injection Hrun as <- <-. split_and!.
    + split; [done|]. by intros H%Exists_nil.
    + done.
    + intros _. split; [by intros q Hq%elem_of_nil|].
      exists []. rewrite app_nil_r. split; [done|].
      intros q. split; [by intros H%elem_of_nil|].
      by intros [H%elem_of_nil _].
  - apply Forall_cons in Hr as [Hq Hr]. apply NoDup_cons in Hnd as [Hni Hnd].
    cbn [remove_domain_scan] in Hrun.
    destruct (decide ((i, j) = (row, col))) as [E|E].
    { injection E as -> ->. rewrite !Nat.eqb_refl in Hrun. simpl in Hrun.
      destruct (IH g va g' out Hg Hp Hr Hnd Hrun) as (H1 & H2 & H3).
      split_and!.
      - rewrite H1, Exists_cons. unfold emptied_by at 2. tauto.
      - intros q [Hq'| ->]; apply H2; [left|by right].
        intros Hin. apply Hq'. by apply elem_of_cons; right.
      - intros Hout. destruct (H3 Hout) as (H4 & extra & -> & H5). split.
        + intros q Hin Hne. apply H4; [|done].
          by apply elem_of_cons in Hin as [->|Hin].
        + exists extra. split; [done|]. intros q. rewrite H5, elem_of_cons.
          split; [tauto|]. intros ([->|?] & ? & ?); [done|tauto]. }
    assert ((i =? row) && (j =? col) = false) as Hskip.
    { apply andb_false_iff.
      destruct (Nat.eqb_spec i row) as [->|]; [|by left].
      destruct (Nat.eqb_spec j col) as [->|]; [done|by right]. }
    rewrite Hskip in Hrun. unfold get_cells in Hrun.
    pose proof (cell_at_dom g i j Hg Hq) as Hcell.
    rewrite Hcell, bind_Done in Hrun.
    rewrite (cell_at_dom g row col Hg Hp), bind_Done in Hrun.
    cbn zeta in Hrun.
    set (new := replace (dom g (i, j)) (dom g (row, col))) in *.
    destruct (Nat.eqb_spec (len new) 0) as [E0|E0].
    { injection Hrun as <- <-. split_and!; [|done|done].
      split; [intros _|done]. apply Exists_cons. left.
      split; [done|]. by apply len_0. }
    pose proof (set_cell_Done g i j _ new Hcell) as Hset.
    set (g1 := mkGrid _) in *. rewrite Hset, bind_Done in Hrun.
    pose proof (set_cell_shape9 _ _ _ _ _ Hset Hg) as Hg1.
    assert (forall q, q <> (i, j) -> dom g1 q = dom g q) as Hsame.
    { intros q Hne. rewrite (set_cell_dom _ _ _ _ _ q Hset).
      by rewrite decide_False. }
    assert (dom g1 (i, j) = new) as Hnew.
    { rewrite (set_cell_dom _ _ _ _ _ (i, j) Hset). by rewrite decide_True. }
    assert (forall q, q ∈ ijs -> q <> (i, j)) as Hrest
      by (intros q Hin ->; done).
    destruct (IH g1 _ g' out Hg1 Hp Hr Hnd Hrun) as (H1 & H2 & H3).
    assert (dom g1 (row, col) = dom g (row, col)) as Hp1
      by (apply Hsame; congruence).
    split_and!.
    + rewrite H1, Exists_cons, !Exists_exists. unfold emptied_by. split.
      * intros (q & Hin & Hne & Hem). right. exists q.
        split; [done|]. split; [done|].
        by rewrite <- (Hsame q (Hrest q Hin)), <- Hp1.
      * intros [[_ Hem]|(q & Hin & Hne & Hem)].
        { exfalso. apply E0. unfold new. by rewrite Hem. }
        exists q. split; [done|]. split; [done|].
        by rewrite (Hsame q (Hrest q Hin)), Hp1.
    + intros q Hq'. rewrite H2.
      * apply Hsame. destruct Hq' as [Hq'| ->]; [|congruence].
        intros ->. apply Hq'. by left.
      * destruct Hq' as [Hq'|Hq']; [left|by right].
        intros Hin. apply Hq'. by apply elem_of_cons; right.
    + intros Hout. destruct (H3 Hout) as (H4 & extra & Eout & H5). split.
      * intros q Hin Hne. apply elem_of_cons in Hin as [->|Hin].
        { rewrite H2 by by left. done. }
        rewrite (H4 q Hin Hne). by rewrite (Hsame q (Hrest q Hin)), Hp1.
      * assert (dom g' (i, j) = new) as Hfin by (rewrite H2; [done|by left]).
        destruct ((len new =? 1) && (1 <? len (dom g (i, j)))) eqn:Erec.
        -- apply andb_true_iff in Erec as [L1%Nat.eqb_eq L2%Nat.ltb_lt].
           exists ((i, j) :: extra). rewrite Eout, <- app_assoc.
           split; [done|]. intros q. rewrite !elem_of_cons, H5. split.
           ++ intros [->|(Hin & Hne & Hl1 & Hl2)].
              ** split_and!; [by left|done|done|by rewrite Hfin].
              ** rewrite (Hsame q (Hrest q Hin)) in Hl1. tauto.
           ++ intros ([->|Hin] & Hne & Hl1 & Hl2); [by left|right].
              rewrite (Hsame q (Hrest q Hin)). tauto.
        -- exists extra. split; [done|]. intros q.
           rewrite elem_of_cons, H5. split.
           ++ intros (Hin & Hne & Hl1 & Hl2).
              rewrite (Hsame q (Hrest q Hin)) in Hl1. tauto.
           ++ intros ([->|Hin] & Hne & Hl1 & Hl2).
              ** exfalso. rewrite Hfin in Hl2.
                 apply andb_false_iff in Erec as [Er|Er].
                 --- apply Nat.eqb_neq in Er. done.
                 --- apply Nat.ltb_ge in Er. lia.
              ** rewrite (Hsame q (Hrest q Hin)). tauto.
Qed.

Lemma NoDup_row_cells r : NoDup (row_cells r).
Proof.
  apply NoDup_fmap_2_strong; [|apply NoDup_seq]. by intros ?? _ _ [= ->].
Qed.

Lemma NoDup_column_cells c : NoDup (column_cells c).
Proof.
  apply NoDup_fmap_2_strong; [|apply NoDup_seq]. by intros ?? _ _ [= ->].
Qed.

Lemma NoDup_list_prod {A B} (l : list A) (k : list B) :
  NoDup l -> NoDup k -> NoDup (list_prod l k).
Proof.
  intros Hl Hk. induction Hl as [|a l Ha Hl IH]; [constructor|].
  simpl. apply NoDup_app. split_and!.
  - apply NoDup_fmap_2_strong; [|done]. by intros ?? _ _ [= ->].
  - intros [a' b] Hin Hin'.
    apply list_elem_of_fmap in Hin as (b' & [= -> ->] & _).
    apply list_elem_of_In, in_prod_iff in Hin' as [Hin' _].
    by apply list_elem_of_In in Hin'.
  - exact IH.
Qed.

Lemma NoDup_box_cells r c : NoDup (box_cells r c).
Proof.
  unfold box_cells, range2. apply NoDup_list_prod; apply NoDup_seq.
Qed.

End Effect.

(** ** [MRV] and empty domains *)

Section EmptyDomain.

Implicit Types (g h : Grid) (q p : coord).

(** On a 9x9 board with an empty domain [MRV] selects an empty cell, and
    [search] finds no digit to try. *)
Lemma search_MRV_empty_domain sched fuel g q :
  shape9 g -> in_range q -> dom g q = EmptyString ->
  search (S fuel) sched g MRV_new = Done None.
Proof.
  intros Hg Hq Hd. cbn [search].
  destruct (is_solved_spec g Hg) as (b & -> & Hiff). rewrite bind_Done.
  destruct b.
  { pose proof (proj1 Hiff eq_refl) as Hall.
    pose proof (proj1 (Forall_all_coords _) Hall q Hq) as Hf.
    unfold fixed in Hf. by rewrite Hd in Hf. }
  destruct (MRV_scan_spec g all_coords (0, 0) 9) as (v & E & Hv);
    [done|by apply Forall_all_coords|].
  unfold select_variable, MRV_select_variable, get_width, _width.
  change (range2 0 9 0 9) with all_coords. rewrite E, !bind_Done.
  assert (in_range v /\ len (dom g v) = 0) as [Hrv Hlen].
  { destruct Hv as [[-> Hall]|(b & a & Hsplit & Hn & Hsm & Hb' & Ha)].
    - exfalso. apply all_coords_in_range in Hq.
      destruct (proj1 (Forall_forall _ _) Hall q Hq) as [H|H];
        rewrite Hd in H; simpl in H; lia.
    - split.
      + apply all_coords_in_range. rewrite Hsplit.
        apply elem_of_app. right. by left.
      + apply all_coords_in_range in Hq. rewrite Hsplit in Hq.
        apply elem_of_app in Hq as [Hq|Hq].
        * destruct (proj1 (Forall_forall _ _) Hb' q Hq) as [H|H];
            rewrite Hd in H; simpl in H; lia.
        * apply elem_of_cons in Hq as [->|Hq]; [by rewrite Hd|].
          destruct (proj1 (Forall_forall _ _) Ha q Hq) as [H|H];
            rewrite Hd in H; simpl in H; lia. }
  destruct v as [i j]. unfold get_cells.
  rewrite (cell_at_dom g i j Hg Hrv), bind_Done.
  apply len_0 in Hlen. by rewrite Hlen.
Qed.

End EmptyDomain.

(** * Further properties of the code *)

(** ** [Grid.read_file] and short lines *)

(** X1: reading a string whose length is a multiple of nine and then a
    second string leaves the board that reading the two strings joined
    leaves: each call starts a fresh row and appends to the rows already
    there. *)
Theorem read_file_twice g s t :
  len s mod 9 = 0 ->
  read_file (read_file g s) t = read_file g (s +:+ t).
Proof. intros Hs. symmetry. by apply read_file_append. Qed.

Lemma read_file_twice_witness :
  len easy mod 9 = 0 /\
  read_file (read_file Grid_new easy) two_ways
  = read_file Grid_new (easy +:+ two_ways).
Proof.
  assert (len easy mod 9 = 0) as H by reflexivity.
  split; [exact H|]. apply (read_file_twice Grid_new easy two_ways H).
Defined.

(** X2: up to eight characters after the last full row are ignored; in
    particular the newline that ends a line of the puzzle file. *)
Theorem read_file_ignores_trailing g s t :
  len s mod 9 = 0 -> len t < 9 ->
  read_file g (s +:+ t) = read_file g s.
Proof.
  intros Hs Ht. rewrite read_file_append by done. by apply read_file_short.
Qed.

Lemma read_file_ignores_trailing_witness :
  len easy mod 9 = 0 /\ len (String "010" EmptyString) < 9 /\
  read_file Grid_new (easy +:+ String "010" EmptyString)
  = read_file Grid_new easy.
Proof.
  assert (len easy mod 9 = 0) as H1 by reflexivity.
  assert (len (String "010" EmptyString) < 9) as H2 by (simpl; lia).
  split; [exact H1|]. split; [exact H2|].
  apply (read_file_ignores_trailing Grid_new easy _ H1 H2).
Defined.

(** X3: a line of fewer than 81 characters is read into fewer than nine
    rows, and the body of the main loop then fails with [IndexError] in
    [pre_process_consistency], before any search, with either selector. *)
Theorem short_line_raises_IndexError sched fuel s :
  len s < 81 ->
  pre_process_consistency sched (read_file Grid_new s) = Raise IndexError /\
  solve fuel sched FirstAvailable_new s = Raise IndexError /\
  solve fuel sched MRV_new s = Raise IndexError.
Proof.
  intros Hs.
  assert (pre_process_consistency sched (read_file Grid_new s)
          = Raise IndexError) as E.
  { apply pre_process_short_board. rewrite read_file_rows. lia_div. }
  split; [exact E|]. unfold solve. by rewrite E.
Qed.

Lemma short_line_raises_IndexError_witness :
  len dots80 < 81 /\
  (pre_process_consistency first_pick (read_file Grid_new dots80)
     = Raise IndexError /\
   solve 82 first_pick FirstAvailable_new dots80 = Raise IndexError /\
   solve 82 first_pick MRV_new dots80 = Raise IndexError).
Proof.
  assert (len dots80 < 81) as H by (vm_compute; lia).
  split; [exact H|].
  apply (short_line_raises_IndexError first_pick 82 dots80 H).
Defined.

(** ** Scans of the board *)

(** X4: on a 9x9 board [is_solved] raises nothing and answers [True]
    exactly when every one of the 81 domains has length 1. *)
Theorem is_solved_iff_all_fixed g :
  shape9 g ->
  exists b, is_solved g = Done b /\
    (b = true <-> Forall (fixed g) all_coords).
Proof. apply is_solved_spec. Qed.

Lemma is_solved_iff_all_fixed_witness :
  shape9 two_ways_swept /\
  exists b, is_solved two_ways_swept = Done b /\
    (b = true <-> Forall (fixed two_ways_swept) all_coords).
Proof.
  assert (shape9 two_ways_swept) as H
    by (apply (bool_decide_eq_true_1 _); vm_compute; reflexivity).
  split; [exact H|]. apply (is_solved_iff_all_fixed two_ways_swept H).
Defined.

(** X5: on a 9x9 board [FirstAvailable] returns [None] when no domain is
    longer than 1, and otherwise the first cell in row-major order whose
    domain is longer than 1. *)
Theorem FirstAvailable_first_open g :
  shape9 g ->
  (select_variable FirstAvailable_new g = Done None /\
   Forall (fun q => len (dom g q) <= 1) all_coords) \/
  (exists i j before after,
     select_variable FirstAvailable_new g = Done (Some (i, j)) /\
     all_coords = before ++ (i, j) :: after /\
     Forall (fun q => len (dom g q) <= 1) before /\
     1 < len (dom g (i, j))).
Proof.
  intros Hg. apply (FirstAvailable_scan_spec g all_coords Hg).
  by apply Forall_all_coords.
Qed.

Lemma FirstAvailable_first_open_witness :
  shape9 two_ways_swept /\
  ((select_variable FirstAvailable_new two_ways_swept = Done None /\
    Forall (fun q => len (dom two_ways_swept q) <= 1) all_coords) \/
   (exists i j before after,
      select_variable FirstAvailable_new two_ways_swept
        = Done (Some (i, j)) /\
      all_coords = before ++ (i, j) :: after /\
      Forall (fun q => len (dom two_ways_swept q) <= 1) before /\
      1 < len (dom two_ways_swept (i, j)))).
Proof.
  assert (shape9 two_ways_swept) as H
    by (apply (bool_decide_eq_true_1 _); vm_compute; reflexivity).
  split; [exact H|]. apply (FirstAvailable_first_open two_ways_swept H).
Defined.

(** X6: on a 9x9 board [consistent] raises nothing and answers [True]
    for a digit exactly when no cell of the row, the column and the box
    of the given cell, that cell included, is fixed to the digit. *)
Theorem consistent_iff_digit_free g d row col :
  shape9 g -> in_range (row, col) ->
  exists b, consistent g (str1 d) row col = Done b /\
    (b = true <->
     Forall (fun q => dom g q <> str1 d) (lines_and_box row col)).
Proof. apply consistent_spec. Qed.

Lemma consistent_iff_digit_free_witness :
  shape9 two_ways_swept /\ in_range (3, 5) /\
  exists b, consistent two_ways_swept (str1 "1") 3 5 = Done b /\
    (b = true <->
     Forall (fun q => dom two_ways_swept q <> str1 "1") (lines_and_box 3 5)).
Proof.
  assert (shape9 two_ways_swept) as H1
    by (apply (bool_decide_eq_true_1 _); vm_compute; reflexivity).
  assert (in_range (3, 5)) as H2 by (split; simpl; lia).
  split; [exact H1|]. split; [exact H2|].
  apply (consistent_iff_digit_free two_ways_swept "1" 3 5 H1 H2).
Defined.

(** ** The propagator *)

(** X7: on a 9x9 board each of the three removals returns without
    raising; it returns [(None, True)] exactly when deleting the domain
    of the given cell empties another cell it visits; it changes no cell
    outside the row (the column, the box) and not the given cell; and
    when it returns a list, every other cell of the row (the column, the
    box) holds its old domain with the occurrences of the domain of the
    given cell deleted, and the list holds exactly the visited cells
    whose domain dropped from more than one character to one. *)
Theorem removals_effect g r c :
  shape9 g -> in_range (r, c) ->
  (exists g' out, remove_domain_row g r c = Done (g', out) /\
     removal_effect (r, c) (row_cells r) g [] g' out) /\
  (exists g' out, remove_domain_column g r c = Done (g', out) /\
     removal_effect (r, c) (column_cells c) g [] g' out) /\
  (exists g' out, remove_domain_unit g r c = Done (g', out) /\
     removal_effect (r, c) (box_cells r c) g [] g' out).
Proof.
  intros Hg Hp. pose proof Hp as [Hr Hc]. simpl in Hr, Hc.
  assert (forall ijs, Forall in_range ijs -> NoDup ijs ->
    exists g' out, remove_domain_scan r c ijs g [] = Done (g', out) /\
      removal_effect (r, c) ijs g [] g' out) as Hscan.
  { intros ijs Hi Hn.
    destruct (remove_domain_scan_spec r c ijs g [] Hg Hp Hi)
      as (g' & out & E & _).
    exists g', out. split; [done|].
    by apply remove_domain_scan_effect. }
  split_and!.
  - apply Hscan; [by apply row_cells_in_range|apply NoDup_row_cells].
  - apply Hscan; [by apply column_cells_in_range|apply NoDup_column_cells].
  - apply Hscan; [by apply box_cells_in_range|apply NoDup_box_cells].
Qed.

Lemma removals_effect_witness :
  shape9 two_ways_swept /\ in_range (3, 0) /\
  ((exists g' out, remove_domain_row two_ways_swept 3 0 = Done (g', out) /\
      removal_effect (3, 0) (row_cells 3) two_ways_swept [] g' out) /\
   (exists g' out, remove_domain_column two_ways_swept 3 0 = Done (g', out) /\
      removal_effect (3, 0) (column_cells 0) two_ways_swept [] g' out) /\
   (exists g' out, remove_domain_unit two_ways_swept 3 0 = Done (g', out) /\
      removal_effect (3, 0) (box_cells 3 0) two_ways_swept [] g' out)).
Proof.
  assert (shape9 two_ways_swept) as H1
    by (apply (bool_decide_eq_true_1 _); vm_compute; reflexivity).
  assert (in_range (3, 0)) as H2 by (split; simpl; lia).
  split; [exact H1|]. split; [exact H2|].
  apply (removals_effect two_ways_swept 3 0 H1 H2).
Defined.

(** X8: on a 9x9 board and a set of cells of the board, [consistency]
    returns, and the board it leaves is 9x9 again; every domain of it is
    the old domain with characters deleted, a non-empty domain stays
    non-empty and a domain of length 1 stays as it is, flag or no
    flag. *)
Theorem consistency_only_shrinks picks g Q :
  shape9 g -> Forall in_range Q ->
  exists g' flag,
    consistency picks g Q = Done (g', flag) /\ shape9 g' /\
    forall q,
      chars (dom g' q) `sublist_of` chars (dom g q) /\
      (dom g q <> EmptyString -> dom g' q <> EmptyString) /\
      (fixed g q -> dom g' q = dom g q).
Proof.
  intros Hg HQ.
  destruct (consistency_Done picks g Q Hg HQ) as (g' & flag & E & Hg' & Hre).
  exists g', flag. split; [done|]. split; [done|]. intros q.
  destruct (Hre q) as [H1 H2]. split_and!; [done|done|].
  intros Hf. by apply shrinks_fixed.
Qed.

Lemma consistency_only_shrinks_witness :
  shape9 (read_file Grid_new easy) /\ Forall in_range (givens easy) /\
  exists g' flag,
    consistency (fun n => n) (read_file Grid_new easy) (givens easy)
      = Done (g', flag) /\ shape9 g' /\
    forall q,
      chars (dom g' q) `sublist_of` chars (dom (read_file Grid_new easy) q) /\
      (dom (read_file Grid_new easy) q <> EmptyString ->
       dom g' q <> EmptyString) /\
      (fixed (read_file Grid_new easy) q ->
       dom g' q = dom (read_file Grid_new easy) q).
Proof.
  assert (shape9 (read_file Grid_new easy)) as H1
    by (apply (bool_decide_eq_true_1 _); vm_compute; reflexivity).
  assert (Forall in_range (givens easy)) as H2
    by (apply (bool_decide_eq_true_1 _); vm_compute; reflexivity).
  split; [exact H1|]. split; [exact H2|].
  apply (consistency_only_shrinks (fun n => n) _ _ H1 H2).
Defined.

(** X9: when the sweep from all the fixed cells of a board ends without
    flag, the board it leaves is a propagation fixed point: it is a
    board, and the value of every fixed cell has been deleted from all
    the peers of the cell. *)
Theorem sweep_reaches_fixed_point picks g Q g' :
  board g -> fixed_cells g = Done Q ->
  consistency picks g Q = Done (g', false) ->
  board g' /\ arc_consistent g'.
Proof. apply sweep_fixed_point. Qed.

Lemma sweep_reaches_fixed_point_witness :
  board (read_file Grid_new two_ways) /\
  fixed_cells (read_file Grid_new two_ways) = Done (givens two_ways) /\
  consistency (fun n => n) (read_file Grid_new two_ways) (givens two_ways)
    = Done (two_ways_swept, false) /\
  (board two_ways_swept /\ arc_consistent two_ways_swept).
Proof.
  assert (board (read_file Grid_new two_ways)) as H1
    by (apply (bool_decide_eq_true_1 _); vm_compute; reflexivity).
  assert (fixed_cells (read_file Grid_new two_ways)
          = Done (givens two_ways)) as H2 by (vm_compute; reflexivity).
  assert (consistency (fun n => n) (read_file Grid_new two_ways)
            (givens two_ways) = Done (two_ways_swept, false)) as H3
    by (vm_compute; reflexivity).
  split; [exact H1|]. split; [exact H2|]. split; [exact H3|].
  apply (sweep_reaches_fixed_point (fun n => n) _ _ _ H1 H2 H3).
Defined.

(** X10: on a 9x9 board where some cell and one of its peers (same row,
    column or box) are fixed to the same value, the sweep from all the
    fixed cells ends with the contradiction flag, whatever the order of
    the pops. *)
Theorem sweep_flags_duplicate picks g Q p1 p2 d :
  shape9 g -> fixed_cells g = Done Q ->
  in_range p1 -> p2 ∈ peers p1 ->
  dom g p1 = str1 d -> dom g p2 = str1 d ->
  exists g', consistency picks g Q = Done (g', true).
Proof.
  intros Hg EQ H1 H2 D1 D2.
  destruct (fixed_cells_spec g Hg) as (Q' & EQ' & HQ).
  rewrite EQ in EQ'. injection EQ' as <-.
  assert (Forall in_range Q) as Hr
    by (apply Forall_forall; intros q Hq; by apply HQ).
  destruct (consistency_Done picks g Q Hg Hr) as (g' & flag & E & _).
  exists g'. rewrite E. do 2 f_equal.
  eapply (consistency_loop_detects _ _ g Q g' flag p1 p2 d); try done.
  apply HQ. split; [done|]. unfold fixed. by rewrite D1.
Qed.

Lemma sweep_flags_duplicate_witness :
  shape9 (read_file Grid_new twice_five) /\
  fixed_cells (read_file Grid_new twice_five) = Done (givens twice_five) /\
  in_range (0, 0) /\ (0, 1) ∈ peers (0, 0) /\
  dom (read_file Grid_new twice_five) (0, 0) = str1 "5" /\
  dom (read_file Grid_new twice_five) (0, 1) = str1 "5" /\
  exists g',
    consistency (fun n => 7 * n) (read_file Grid_new twice_five)
      (givens twice_five) = Done (g', true).
Proof.
  assert (shape9 (read_file Grid_new twice_five)) as H1
    by (apply (bool_decide_eq_true_1 _); vm_compute; reflexivity).
  assert (fixed_cells (read_file Grid_new twice_five)
          = Done (givens twice_five)) as H2 by (vm_compute; reflexivity).
  assert (in_range (0, 0)) as H3 by (split; simpl; lia).
  assert ((0, 1) ∈ peers (0, 0)) as H4
    by (apply (bool_decide_eq_true_1 _); vm_compute; reflexivity).
  assert (dom (read_file Grid_new twice_five) (0, 0) = str1 "5") as H5
    by (vm_compute; reflexivity).
  assert (dom (read_file Grid_new twice_five) (0, 1) = str1 "5") as H6
    by (vm_compute; reflexivity).
  split; [exact H1|]. split; [exact H2|]. split; [exact H3|].
  split; [exact H4|]. split; [exact H5|]. split; [exact H6|].
  apply (sweep_flags_duplicate (fun n => 7 * n) _ _ _ _ _ H1 H2 H3 H4 H5 H6).
Defined.

(** X11: propagation loses no solution.  On a 9x9 board that admits a
    solution, [consistency] started from fixed cells of the board ends
    without flag, and the board it leaves still admits the solution,
    whatever the order of the pops. *)
Theorem propagation_keeps_solutions sol picks g Q :
  shape9 g -> Forall in_range Q -> Forall (fixed g) Q ->
  solution sol -> admits g sol ->
  exists g', consistency picks g Q = Done (g', false) /\ admits g' sol.
Proof.
  intros Hg HQ HF Hsol Hadm.
  destruct (consistency_keeps sol picks g Q Hg HQ HF Hsol Hadm)
    as (g' & E & _ & _ & Ha).
  by exists g'.
Qed.

Lemma propagation_keeps_solutions_witness :
  shape9 (read_file Grid_new easy) /\
  Forall in_range (givens easy) /\
  Forall (fixed (read_file Grid_new easy)) (givens easy) /\
  solution easy_sol /\ admits (read_file Grid_new easy) easy_sol /\
  exists g',
    consistency (fun n => n) (read_file Grid_new easy) (givens easy)
      = Done (g', false) /\ admits g' easy_sol.
Proof.
  assert (shape9 (read_file Grid_new easy)) as H1
    by (apply (bool_decide_eq_true_1 _); vm_compute; reflexivity).
  assert (Forall in_range (givens easy)) as H2
    by (apply (bool_decide_eq_true_1 _); vm_compute; reflexivity).
  assert (Forall (fixed (read_file Grid_new easy)) (givens easy)) as H3
    by (apply (bool_decide_eq_true_1 _); vm_compute; reflexivity).
  assert (solution easy_sol) as H4
    by (apply (bool_decide_eq_true_1 _); vm_compute; reflexivity).
  assert (admits (read_file Grid_new easy) easy_sol) as H5
    by (apply (bool_decide_eq_true_1 _); vm_compute; reflexivity).
  split; [exact H1|]. split; [exact H2|]. split; [exact H3|].
  split; [exact H4|]. split; [exact H5|].
  apply (propagation_keeps_solutions easy_sol (fun n => n) _ _
           H1 H2 H3 H4 H5).
Defined.

(** ** The search *)

(** X12: on a board, [search] returns a board or [False] without
    raising, with either selector, and its recursion is never deeper
    than the number of open cells plus one, hence never deeper than
    82. *)
Theorem search_returns_within_depth sched fuel g :
  board g -> count_multi g < fuel ->
  count_multi g <= 81 /\
  (exists r, search fuel sched g FirstAvailable_new = Done r) /\
  (exists r, search fuel sched g MRV_new = Done r).
Proof.
  intros Hb Hf. split_and!.
  - apply count_multi_le_81, Hb.
  - by apply (search_returns _ sched fuel FirstAvailable_picks_open).
  - by apply (search_returns _ sched fuel MRV_picks_open).
Qed.

Lemma search_returns_within_depth_witness :
  board two_ways_swept /\ count_multi two_ways_swept < 5 /\
  (count_multi two_ways_swept <= 81 /\
   (exists r, search 5 first_pick two_ways_swept FirstAvailable_new
              = Done r) /\
   (exists r, search 5 first_pick two_ways_swept MRV_new = Done r)).
Proof.
  assert (board two_ways_swept) as H1
    by (apply (bool_decide_eq_true_1 _); vm_compute; reflexivity).
  assert (count_multi two_ways_swept < 5) as H2 by (vm_compute; lia).
  split; [exact H1|]. split; [exact H2|].
  apply (search_returns_within_depth first_pick 5 two_ways_swept H1 H2).
Defined.

(** X13: the board [search] returns on a 9x9 board is made of the board
    it was given by deleting candidates only: every domain of it is the
    old domain with characters deleted, and every cell that was fixed
    keeps its value.  This holds for every selector. *)
Theorem search_keeps_givens {T} `{VarSelector T} (sel : T) sched fuel g g' :
  shape9 g -> search fuel sched g sel = Done (Some g') ->
  shape9 g' /\
  forall q,
    chars (dom g' q) `sublist_of` chars (dom g q) /\
    (fixed g q -> dom g' q = dom g q).
Proof.
  intros Hg Hrun.
  destruct (search_refines sel sched fuel g g' Hg Hrun) as [Hg' Hre].
  split; [done|]. intros q. split; [apply Hre|].
  intros Hf. by apply shrinks_fixed.
Qed.

Lemma search_keeps_givens_witness :
  shape9 two_ways_swept /\
  search 3 first_pick two_ways_swept MRV_new
    = Done (Some (read_file Grid_new easy_solved)) /\
  (shape9 (read_file Grid_new easy_solved) /\
   forall q,
     chars (dom (read_file Grid_new easy_solved) q)
       `sublist_of` chars (dom two_ways_swept q) /\
     (fixed two_ways_swept q ->
      dom (read_file Grid_new easy_solved) q = dom two_ways_swept q)).
Proof.
  assert (shape9 two_ways_swept) as H1
    by (apply (bool_decide_eq_true_1 _); vm_compute; reflexivity).
  assert (search 3 first_pick two_ways_swept MRV_new
          = Done (Some (read_file Grid_new easy_solved))) as H2
    by (vm_compute; reflexivity).
  split; [exact H1|]. split; [exact H2|].
  apply (search_keeps_givens MRV_new first_pick 3 two_ways_swept _ H1 H2).
Defined.

(** X14: on a propagation fixed point that admits a solution, [search]
    returns a board, with either selector; every cell of that board is
    fixed, every row, column and box of it holds each digit 1-9 exactly
    once, and it is made of the given board by deleting candidates. *)
Theorem search_finds_a_solution sol sched fuel g :
  board g -> arc_consistent g -> solution sol -> admits g sol ->
  count_multi g < fuel ->
  (exists g', search fuel sched g FirstAvailable_new = Done (Some g') /\
     is_solved g' = Done true /\ valid_solution g' /\ refines g' g) /\
  (exists g', search fuel sched g MRV_new = Done (Some g') /\
     is_solved g' = Done true /\ valid_solution g' /\ refines g' g).
Proof.
  intros Hb Hac Hsol Hadm Hf.
  assert (forall T (I : VarSelector T) (sel : T), picks_open sel ->
    exists g', search fuel sched g sel = Done (Some g') /\
      is_solved g' = Done true /\ valid_solution g' /\ refines g' g)
    as Hany.
  { intros T I sel Hsel.
    destruct (search_complete sel sched sol fuel Hsel Hsol g Hb Hadm Hf)
      as (g' & Hrun).
    pose proof (search_sound sel sched fuel g g' Hb Hac Hrun) as Hfp.
    destruct (search_refines sel sched fuel g g' (proj1 Hb) Hrun)
      as [_ Hre].
    exists g'. split_and!; [done|apply Hfp| |done].
    by apply solved_fixed_point_valid. }
  split; apply Hany;
    [apply FirstAvailable_picks_open|apply MRV_picks_open].
Qed.

Lemma search_finds_a_solution_witness :
  board two_ways_swept /\ arc_consistent two_ways_swept /\
  solution easy_sol /\ admits two_ways_swept easy_sol /\
  count_multi two_ways_swept < 5 /\
  ((exists g', search 5 first_pick two_ways_swept FirstAvailable_new
               = Done (Some g') /\
      is_solved g' = Done true /\ valid_solution g' /\
      refines g' two_ways_swept) /\
   (exists g', search 5 first_pick two_ways_swept MRV_new
               = Done (Some g') /\
      is_solved g' = Done true /\ valid_solution g' /\
      refines g' two_ways_swept)).
Proof.
  assert (board two_ways_swept) as H1
    by (apply (bool_decide_eq_true_1 _); vm_compute; reflexivity).
  assert (arc_consistent two_ways_swept) as H2
    by (apply (bool_decide_eq_true_1 _); vm_compute; reflexivity).
  assert (solution easy_sol) as H3
    by (apply (bool_decide_eq_true_1 _); vm_compute; reflexivity).
  assert (admits two_ways_swept easy_sol) as H4
    by (apply (bool_decide_eq_true_1 _); vm_compute; reflexivity).
  assert (count_multi two_ways_swept < 5) as H5 by (vm_compute; lia).
  split; [exact H1|]. split; [exact H2|]. split; [exact H3|].
  split; [exact H4|]. split; [exact H5|].
  apply (search_finds_a_solution easy_sol first_pick 5 two_ways_swept
           H1 H2 H3 H4 H5).
Defined.

(** X15: on a propagation fixed point that admits no solution, [search]
    returns [False], with either selector. *)
Theorem search_reports_unsolvable sched fuel g :
  board g -> arc_consistent g ->
  (forall sol, solution sol -> ~ admits g sol) ->
  count_multi g < fuel ->
  search fuel sched g FirstAvailable_new = Done None /\
  search fuel sched g MRV_new = Done None.
Proof.
  intros Hb Hac Hnone Hf. split.
  - by apply (search_unsolvable _ sched fuel g FirstAvailable_picks_open).
  - by apply (search_unsolvable _ sched fuel g MRV_picks_open).
Qed.

Lemma ones_twos_unsolvable sol : solution sol -> ~ admits ones_twos sol.
Proof.
  intros Hsol Hadm.
  assert (in_range (0, 0) /\ in_range (0, 1) /\ in_range (0, 2))
    as (R0 & R1 & R2) by (repeat split; simpl; lia).
  pose proof (admits_at _ _ _ Hadm R0) as A0.
  pose proof (admits_at _ _ _ Hadm R1) as A1.
  pose proof (admits_at _ _ _ Hadm R2) as A2.
  assert ((0, 1) ∈ peers (0, 0)) as P01
    by (apply (bool_decide_eq_true_1 _); vm_compute; reflexivity).
  assert ((0, 2) ∈ peers (0, 0)) as P02
    by (apply (bool_decide_eq_true_1 _); vm_compute; reflexivity).
  assert ((0, 2) ∈ peers (0, 1)) as P12
    by (apply (bool_decide_eq_true_1 _); vm_compute; reflexivity).
  pose proof (solution_peers sol _ _ Hsol R0 P01) as N01.
  pose proof (solution_peers sol _ _ Hsol R0 P02) as N02.
  pose proof (solution_peers sol _ _ Hsol R1 P12) as N12.
  change (chars (dom ones_twos (0, 0))) with ["1"; "2"]%char in A0.
  change (chars (dom ones_twos (0, 1))) with ["1"; "2"]%char in A1.
  change (chars (dom ones_twos (0, 2))) with ["1"; "2"]%char in A2.
  rewrite !elem_of_cons in A0, A1, A2.
  destruct A0 as [E0|[E0|E0%elem_of_nil]]; [| |done];
    destruct A1 as [E1|[E1|E1%elem_of_nil]]; try done;
    destruct A2 as [E2|[E2|E2%elem_of_nil]]; try done; congruence.
Qed.

Lemma search_reports_unsolvable_witness :
  board ones_twos /\ arc_consistent ones_twos /\
  (forall sol, solution sol -> ~ admits ones_twos sol) /\
  count_multi ones_twos < 82 /\
  (search 82 first_pick ones_twos FirstAvailable_new = Done None /\
   search 82 first_pick ones_twos MRV_new = Done None).
Proof.
  assert (board ones_twos) as H1
    by (apply (bool_decide_eq_true_1 _); vm_compute; reflexivity).
  assert (arc_consistent ones_twos) as H2
    by (apply (bool_decide_eq_true_1 _); vm_compute; reflexivity).
  assert (count_multi ones_twos < 82) as H4 by (vm_compute; lia).
  split; [exact H1|]. split; [exact H2|].
  split; [exact ones_twos_unsolvable|]. split; [exact H4|].
  apply (search_reports_unsolvable first_pick 82 ones_twos H1 H2
           ones_twos_unsolvable H4).
Defined.




(** X17: with [MRV], a 9x9 board that holds an empty domain makes
    [search] return [False] at once: [MRV] selects an empty cell and the
    loop over its digits has nothing to try. *)
Theorem search_MRV_fails_on_empty_domain sched fuel g q :
  shape9 g -> in_range q -> dom g q = EmptyString ->
  search (S fuel) sched g MRV_new = Done None.
Proof. apply search_MRV_empty_domain. Qed.

Lemma search_MRV_fails_on_empty_domain_witness :
  shape9 hole_grid /\ in_range (0, 0) /\
  dom hole_grid (0, 0) = EmptyString /\
  search 1 first_pick hole_grid MRV_new = Done None.
Proof.
  assert (shape9 hole_grid) as H1
    by (apply (bool_decide_eq_true_1 _); vm_compute; reflexivity).
  assert (in_range (0, 0)) as H2 by (split; simpl; lia).
  assert (dom hole_grid (0, 0) = EmptyString) as H3 by reflexivity.
  split; [exact H1|]. split; [exact H2|]. split; [exact H3|].
  apply (search_MRV_fails_on_empty_domain first_pick 0 hole_grid (0, 0)
           H1 H2 H3).
Defined.

(** ** The body of the main loop *)

(** X18: for a valid puzzle string that has a solution (a completion in
    which no two peers are alike and which keeps every given digit), the
    body of the main loop returns a board with either selector; every
    cell of that board is fixed, every row, column and box of it holds
    each digit 1-9 exactly once, and every given digit is kept. *)
Theorem solve_finds_a_solution sol sched s :
  valid_puzzle s -> solution sol -> admits (read_file Grid_new s) sol ->
  (exists g', solve 82 sched FirstAvailable_new s = Done (Some g') /\
     is_solved g' = Done true /\ valid_solution g' /\
     refines g' (read_file Grid_new s)) /\
  (exists g', solve 82 sched MRV_new s = Done (Some g') /\
     is_solved g' = Done true /\ valid_solution g' /\
     refines g' (read_file Grid_new s)).
Proof.
  intros Hs Hsol Hadm. split.
  - by apply (solve_solvable _ sched sol s FirstAvailable_picks_open).
  - by apply (solve_solvable _ sched sol s MRV_picks_open).
Qed.

Lemma solve_finds_a_solution_witness :
  valid_puzzle easy /\ solution easy_sol /\
  admits (read_file Grid_new easy) easy_sol /\
  ((exists g', solve 82 first_pick FirstAvailable_new easy = Done (Some g') /\
      is_solved g' = Done true /\ valid_solution g' /\
      refines g' (read_file Grid_new easy)) /\
   (exists g', solve 82 first_pick MRV_new easy = Done (Some g') /\
      is_solved g' = Done true /\ valid_solution g' /\
      refines g' (read_file Grid_new easy))).
Proof.
  assert (valid_puzzle easy) as H1
    by (apply (bool_decide_eq_true_1 _); vm_compute; reflexivity).
  assert (solution easy_sol) as H2
    by (apply (bool_decide_eq_true_1 _); vm_compute; reflexivity).
  assert (admits (read_file Grid_new easy) easy_sol) as H3
    by (apply (bool_decide_eq_true_1 _); vm_compute; reflexivity).
  split; [exact H1|]. split; [exact H2|]. split; [exact H3|].
  apply (solve_finds_a_solution easy_sol first_pick easy H1 H2 H3).
Defined.
